(** * VerTac: cycle lifecycle, deviation engine and edge buffer

    A shallow embedding of four files of the VerTac repository:

    - [backend/services/cycle_state_machine.py]  (module [CycleFSM]),
    - [edge-connector/connector.py]              (module [Edge]),
    - [backend/app/services/analysis_service.py] (module [Analysis]),
    - [backend/services/deviation_analyzer.py]   (module [Deviation]),

    with the calls they make to numpy and scipy (module [NumPy]),
    followed by the properties established about them.

    Further modules follow the same files beyond their core: runs of the
    state machine ([CycleFSMRuns], [CycleFSMTimes]); the buffer, the
    sweeps, the simulator and the registration of the edge connector
    ([EdgeRuns], [Simulator], [EdgeStartup]); the flow from compared
    sensors to recommendations and detected anomalies ([AnalysisFlow]),
    the contributors to an abnormal stop ([RootCause]) and the ranking of
    sensors ([Ranking]). *)

From Stdlib Require Import ZArith List String Bool Lia QArith Qpower.
From Stdlib Require Import Reals Lra.
Import ListNotations.

(** ** Part I. Definitions *)

(** *** backend/services/cycle_state_machine.py *)

Module CycleFSM.

Local Open Scope Z_scope.

(** [class CycleState(str, Enum)] *)
Inductive CycleState : Set :=
| IDLE | WAITING_START | ACTIVE | STOPPING | STOPPED | ABORTED.

(** [class CycleEvent(str, Enum)] *)
Inductive CycleEvent : Set :=
| REGISTER_STREAM | CYCLE_START | CYCLE_STOP | CYCLE_PAUSE | CYCLE_RESUME
| SAMPLE_RECEIVED | CONNECTION_LOST | TIMEOUT | MANUAL_ABORT.

Definition CycleState_eqb (a b : CycleState) : bool :=
  match a, b with
  | IDLE, IDLE | WAITING_START, WAITING_START | ACTIVE, ACTIVE
  | STOPPING, STOPPING | STOPPED, STOPPED | ABORTED, ABORTED => true
  | _, _ => false
  end.

(** [state in [s1, s2, ...]] *)
Definition state_in (s : CycleState) (l : list CycleState) : bool :=
  existsb (CycleState_eqb s) l.

(** A [datetime] is a number of microseconds since the epoch, the
    resolution of Python's [datetime]. *)
Definition datetime := Z.

(** [timedelta.total_seconds() >= n] for an integer number [n] of seconds. *)
Definition microseconds (seconds : Z) : Z := seconds * 1000000.

(** Values of the [Dict[str, Any]] that a cycle carries. *)
Inductive meta_value : Set :=
| MStr (s : string)
| MTime (t : datetime).          (* [datetime.isoformat()] of [t] *)

Definition Dict := list (string * meta_value).

(** [d[k] = v]: replace in place, or add at the end. *)
Fixpoint dict_set (d : Dict) (k : string) (v : meta_value) : Dict :=
  match d with
  | [] => [(k, v)]
  | (k', v') :: d' =>
      if String.eqb k' k then (k, v) :: d' else (k', v') :: dict_set d' k v
  end.

(** [d.pop(k, None)], the popped value dropped. *)
Fixpoint dict_pop (d : Dict) (k : string) : Dict :=
  match d with
  | [] => []
  | (k', v') :: d' =>
      if String.eqb k' k then d' else (k', v') :: dict_pop d' k
  end.

(** [@dataclass class CycleMetadata] *)
Record CycleMetadata : Set := mkCycleMetadata {
  cycle_id : string;
  stream_id : string;
  dataset_id : string;
  cycle_number : Z;
  start_time : datetime;
  end_time : option datetime;
  sample_count : Z;
  is_reference : bool;
  health_score : option Q;
  anomaly_flag : bool;
  abort_reason : option string;
  custom_metadata : Dict
}.

Definition set_end_time (c : CycleMetadata) (t : datetime) : CycleMetadata :=
  mkCycleMetadata (cycle_id c) (stream_id c) (dataset_id c) (cycle_number c)
    (start_time c) (Some t) (sample_count c) (is_reference c)
    (health_score c) (anomaly_flag c) (abort_reason c) (custom_metadata c).

Definition set_sample_count (c : CycleMetadata) (n : Z) : CycleMetadata :=
  mkCycleMetadata (cycle_id c) (stream_id c) (dataset_id c) (cycle_number c)
    (start_time c) (end_time c) n (is_reference c)
    (health_score c) (anomaly_flag c) (abort_reason c) (custom_metadata c).

Definition set_abort_reason (c : CycleMetadata) (r : string) : CycleMetadata :=
  mkCycleMetadata (cycle_id c) (stream_id c) (dataset_id c) (cycle_number c)
    (start_time c) (end_time c) (sample_count c) (is_reference c)
    (health_score c) (anomaly_flag c) (Some r) (custom_metadata c).

Definition set_custom_metadata (c : CycleMetadata) (d : Dict) : CycleMetadata :=
  mkCycleMetadata (cycle_id c) (stream_id c) (dataset_id c) (cycle_number c)
    (start_time c) (end_time c) (sample_count c) (is_reference c)
    (health_score c) (anomaly_flag c) (abort_reason c) d.

(** A call made to one of the three hooks of the machine. *)
Inductive Call : Set :=
| StateChangeCall (stream : string) (old_state new_state : CycleState)
    (cycle : option string)
| CycleCompleteCall (cycle : CycleMetadata)
| ErrorCall.

(** A hook is known by whether a given call to it returns ([true]) or
    raises ([false]); what it does besides is outside the machine. *)
Definition Callable := Call -> bool.

(** [class CycleStateMachine] *)
Record CycleStateMachine : Set := mkFSM {
  self_stream_id : string;
  self_dataset_id : string;
  state : CycleState;
  current_cycle : option CycleMetadata;
  cycle_counter : Z;
  last_sample_time : option datetime;
  stop_time : option datetime;
  on_state_change : option Callable;
  on_cycle_complete : option Callable;
  on_error : option Callable
}.

Definition GRACE_PERIOD_SEC : Z := 10.
Definition SAMPLE_TIMEOUT_SEC : Z := 30.

(** [__init__] *)
Definition init (stream dataset : string) : CycleStateMachine :=
  mkFSM stream dataset IDLE None 0 None None None None None.

(** The assignments [fsm.on_state_change = ...] made after construction. *)
Definition with_callbacks (m : CycleStateMachine)
    (sc cc er : option Callable) : CycleStateMachine :=
  mkFSM (self_stream_id m) (self_dataset_id m) (state m) (current_cycle m)
    (cycle_counter m) (last_sample_time m) (stop_time m) sc cc er.

Definition set_state (m : CycleStateMachine) (s : CycleState) :=
  mkFSM (self_stream_id m) (self_dataset_id m) s (current_cycle m)
    (cycle_counter m) (last_sample_time m) (stop_time m)
    (on_state_change m) (on_cycle_complete m) (on_error m).

Definition set_current_cycle (m : CycleStateMachine) (c : CycleMetadata) :=
  mkFSM (self_stream_id m) (self_dataset_id m) (state m) (Some c)
    (cycle_counter m) (last_sample_time m) (stop_time m)
    (on_state_change m) (on_cycle_complete m) (on_error m).

Definition set_cycle_counter (m : CycleStateMachine) (n : Z) :=
  mkFSM (self_stream_id m) (self_dataset_id m) (state m) (current_cycle m)
    n (last_sample_time m) (stop_time m)
    (on_state_change m) (on_cycle_complete m) (on_error m).

Definition set_last_sample_time (m : CycleStateMachine) (t : datetime) :=
  mkFSM (self_stream_id m) (self_dataset_id m) (state m) (current_cycle m)
    (cycle_counter m) (Some t) (stop_time m)
    (on_state_change m) (on_cycle_complete m) (on_error m).

Definition set_stop_time (m : CycleStateMachine) (t : datetime) :=
  mkFSM (self_stream_id m) (self_dataset_id m) (state m) (current_cycle m)
    (cycle_counter m) (last_sample_time m) (Some t)
    (on_state_change m) (on_cycle_complete m) (on_error m).

(** What a call reads from outside the machine: the clock
    ([datetime.utcnow()], one reading per call) and the identifier that
    [uuid.uuid4()] would hand out. *)
Record Env : Set := mkEnv { now : datetime; uuid4 : string }.

(** The body of a method inside [try]: whether it ran to its end
    ([true]) or an exception left it ([false]), the machine as mutated so
    far, and the hook calls made. *)
Definition Step : Set := bool * CycleStateMachine * list Call.

(** [if self.current_cycle: self.current_cycle.f = ...] *)
Definition on_cycle (m : CycleStateMachine)
    (f : CycleMetadata -> CycleMetadata) : CycleStateMachine :=
  match current_cycle m with
  | Some c => set_current_cycle m (f c)
  | None => m
  end.

(** [_start_new_cycle] *)
Definition _start_new_cycle (m : CycleStateMachine) (metadata : Dict)
    (env : Env) : CycleStateMachine :=
  let m1 := set_cycle_counter m (cycle_counter m + 1) in
  let m2 := set_current_cycle m1
              (mkCycleMetadata (uuid4 env) (self_stream_id m1)
                 (self_dataset_id m1) (cycle_counter m1) (now env)
                 None 0 false None false None metadata) in
  set_last_sample_time m2 (now env).

(** [_grace_period_elapsed] *)
Definition _grace_period_elapsed (m : CycleStateMachine) (env : Env) : bool :=
  match stop_time m with
  | None => false
  | Some st => microseconds GRACE_PERIOD_SEC <=? now env - st
  end.

(** [_complete_cycle] *)
Definition _complete_cycle (m : CycleStateMachine) (env : Env) : Step :=
  match current_cycle m with
  | Some c =>
      let c' := set_end_time c (now env) in
      let m' := set_current_cycle m c' in
      match on_cycle_complete m' with
      | Some cb => (cb (CycleCompleteCall c'), m', [CycleCompleteCall c'])
      | None => (true, m', [])
      end
  | None => (true, m, [])
  end.

(** The chain of [if event == ...] of [transition]. *)
Definition dispatch (m : CycleStateMachine) (event : CycleEvent)
    (metadata : option Dict) (env : Env) : Step :=
  match event with
  | REGISTER_STREAM =>
      if CycleState_eqb (state m) IDLE
      then (true, set_state m WAITING_START, [])
      else (true, m, [])
  | CYCLE_START =>
      if state_in (state m) [WAITING_START; STOPPED; ABORTED]
      then (true,
            _start_new_cycle (set_state m ACTIVE)
              (match metadata with
               | Some (x :: d) => x :: d
               | _ => []            (* [metadata or {}] *)
               end) env,
            [])
      else (true, m, [])
  | CYCLE_STOP =>
      if CycleState_eqb (state m) ACTIVE
      then (true, set_stop_time (set_state m STOPPING) (now env), [])
      else (true, m, [])
  | CYCLE_PAUSE =>
      if CycleState_eqb (state m) ACTIVE
      then (true,
            on_cycle m (fun c =>
              set_custom_metadata c
                (dict_set (custom_metadata c) "paused_at"%string
                   (MTime (now env)))),
            [])
      else (true, m, [])
  | CYCLE_RESUME =>
      if CycleState_eqb (state m) ACTIVE
      then (true,
            on_cycle m (fun c =>
              set_custom_metadata c
                (dict_pop (custom_metadata c) "paused_at"%string)),
            [])
      else (true, m, [])
  | SAMPLE_RECEIVED =>
      if CycleState_eqb (state m) ACTIVE
      then (true,
            on_cycle (set_last_sample_time m (now env))
              (fun c => set_sample_count c (sample_count c + 1)),
            [])
      else if CycleState_eqb (state m) STOPPING
      then
        let m1 := on_cycle (set_last_sample_time m (now env))
                    (fun c => set_sample_count c (sample_count c + 1)) in
        if _grace_period_elapsed m1 env
        then _complete_cycle (set_state m1 STOPPED) env
        else (true, m1, [])
      else (true, m, [])
  | TIMEOUT =>
      if CycleState_eqb (state m) ACTIVE
      then
        _complete_cycle
          (on_cycle (set_state m ABORTED)
             (fun c => set_abort_reason c "sample_timeout"%string)) env
      else if CycleState_eqb (state m) STOPPING
      then
        if _grace_period_elapsed m env
        then _complete_cycle (set_state m STOPPED) env
        else (true, m, [])
      else (true, m, [])
  | CONNECTION_LOST =>
      if state_in (state m) [ACTIVE; STOPPING]
      then
        _complete_cycle
          (on_cycle (set_state m ABORTED)
             (fun c => set_abort_reason c "connection_lost"%string)) env
      else (true, m, [])
  | MANUAL_ABORT =>
      if state_in (state m) [ACTIVE; STOPPING]
      then
        _complete_cycle
          (on_cycle (set_state m ABORTED)
             (fun c => set_abort_reason c "manual_abort"%string)) env
      else (true, m, [])
  end.

(** [# Notify on state change] *)
Definition notify (old_state : CycleState) (m : CycleStateMachine) : Step :=
  match on_state_change m with
  | Some cb =>
      if negb (CycleState_eqb old_state (state m))
      then
        let call := StateChangeCall (self_stream_id m) old_state (state m)
                      (option_map cycle_id (current_cycle m)) in
        (cb call, m, [call])
      else (true, m, [])
  | None => (true, m, [])
  end.

(** How a call of [transition] ends: it returns a boolean, or the
    exception raised by [on_error] inside the handler leaves it. *)
Inductive Result : Set :=
| Returned (b : bool)
| Propagated.

(** [transition] *)
Definition transition (m : CycleStateMachine) (event : CycleEvent)
    (metadata : option Dict) (env : Env)
  : Result * CycleStateMachine * list Call :=
  let old_state := state m in
  let '(ok, m1, calls1) := dispatch m event metadata env in
  let '(ok, m2, calls2) :=
    if ok
    then let '(ok2, m2, calls2) := notify old_state m1 in
         (ok2, m2, calls1 ++ calls2)
    else (false, m1, calls1) in
  if ok then (Returned true, m2, calls2)
  else
    match on_error m2 with
    | Some cb =>
        if cb ErrorCall
        then (Returned false, m2, calls2 ++ [ErrorCall])
        else (Propagated, m2, calls2 ++ [ErrorCall])
    | None => (Returned false, m2, calls2)
    end.

(** [check_sample_timeout], the periodic tick. *)
Definition check_sample_timeout (m : CycleStateMachine) (env : Env)
  : Result * CycleStateMachine * list Call :=
  match state m, last_sample_time m with
  | ACTIVE, Some t =>
      if microseconds SAMPLE_TIMEOUT_SEC <? now env - t
      then transition m TIMEOUT None env
      else (Returned true, m, [])
  | STOPPING, _ =>
      if _grace_period_elapsed m env
      then transition m TIMEOUT None env
      else (Returned true, m, [])
  | _, _ => (Returned true, m, [])
  end.

(** What reaches a machine from outside: an event, or a tick. *)
Inductive Input : Set :=
| Event (event : CycleEvent) (metadata : option Dict) (env : Env)
| Tick (env : Env).

Definition feed (m : CycleStateMachine) (i : Input)
  : Result * CycleStateMachine * list Call :=
  match i with
  | Event e md env => transition m e md env
  | Tick env => check_sample_timeout m env
  end.

(** A machine driven by a sequence of inputs, with every hook call made
    on the way, oldest first. *)
Fixpoint run (m : CycleStateMachine) (inputs : list Input)
  : CycleStateMachine * list Call :=
  match inputs with
  | [] => (m, [])
  | i :: rest =>
      let '(_, m1, calls) := feed m i in
      let '(m2, calls') := run m1 rest in
      (m2, calls ++ calls')
  end.

(** The cycles, by number, handed to [on_cycle_complete] in a trace. *)
Fixpoint completions (calls : list Call) : list Z :=
  match calls with
  | [] => []
  | CycleCompleteCall c :: rest => cycle_number c :: completions rest
  | _ :: rest => completions rest
  end.

(** A sample run: a cycle of two samples, stopped, a late sample, ticks
    past the grace period, stray events, then a second cycle that the
    tick times out. *)
Definition demo_inputs : list Input :=
  [ Event REGISTER_STREAM None (mkEnv 0 EmptyString);
    Event CYCLE_START None (mkEnv 1000000 "c-1");
    Event SAMPLE_RECEIVED None (mkEnv 2000000 EmptyString);
    Event SAMPLE_RECEIVED None (mkEnv 3000000 EmptyString);
    Event CYCLE_STOP None (mkEnv 4000000 EmptyString);
    Event SAMPLE_RECEIVED None (mkEnv 5000000 EmptyString);
    Tick (mkEnv 15000000 EmptyString);
    Tick (mkEnv 16000000 EmptyString);
    Event SAMPLE_RECEIVED None (mkEnv 17000000 EmptyString);
    Event MANUAL_ABORT None (mkEnv 18000000 EmptyString);
    Event CYCLE_START None (mkEnv 20000000 "c-2");
    Tick (mkEnv 60000000 EmptyString);
    Event TIMEOUT None (mkEnv 61000000 EmptyString) ].

(** The pairs of section 4.1's table, as the specification lists them. *)
Definition listed_valid (event : CycleEvent) (s : CycleState) : bool :=
  match event, s with
  | REGISTER_STREAM, IDLE => true
  | CYCLE_START, (WAITING_START | STOPPED | ABORTED) => true
  | SAMPLE_RECEIVED, (ACTIVE | STOPPING) => true
  | CYCLE_STOP, ACTIVE => true
  | (CYCLE_PAUSE | CYCLE_RESUME), ACTIVE => true
  | TIMEOUT, (ACTIVE | STOPPING) => true
  | CONNECTION_LOST, (ACTIVE | STOPPING) => true
  | MANUAL_ABORT, (ACTIVE | STOPPING) => true
  | _, _ => false
  end.

(** A cycle is open in [ACTIVE] and [STOPPING], closed in [STOPPED] and
    [ABORTED]. *)
Definition open_state (s : CycleState) : Prop := s = ACTIVE \/ s = STOPPING.
Definition closed_state (s : CycleState) : Prop := s = STOPPED \/ s = ABORTED.

(** The number of the current cycle, if there is one. *)
Definition numbers (m : CycleStateMachine) : option Z :=
  option_map cycle_number (current_cycle m).

(** The invariant carried along a run: the numbers completed so far are
    distinct and were all handed out by the counter, the current cycle
    bears the counter's value, and a cycle that is still open is not
    among them. *)
Definition once_inv (m : CycleStateMachine) (done : list Z) : Prop :=
  NoDup done /\
  (forall k, In k done -> 1 <= k <= cycle_counter m) /\
  (forall n, numbers m = Some n -> n = cycle_counter m /\ 1 <= n) /\
  0 <= cycle_counter m /\
  (open_state (state m) -> ~ In (cycle_counter m) done).

(** The three things a call can do to the part of the machine that the
    invariant reads: nothing, open a cycle, or complete the open one. *)
Inductive effect (m m' : CycleStateMachine) (done : list Z) : Prop :=
| Quiet :
    done = [] -> cycle_counter m' = cycle_counter m ->
    numbers m' = numbers m ->
    (open_state (state m') -> open_state (state m)) ->
    effect m m' done
| Opened :
    done = [] -> cycle_counter m' = cycle_counter m + 1 ->
    numbers m' = Some (cycle_counter m') ->
    effect m m' done
| Completed (c : CycleMetadata) :
    open_state (state m) -> closed_state (state m') ->
    cycle_counter m' = cycle_counter m -> numbers m' = numbers m ->
    current_cycle m = Some c -> done = [cycle_number c] ->
    effect m m' done.

End CycleFSM.

(** *** edge-connector/connector.py *)

Module Edge.

Local Open Scope Z_scope.

(** [class SensorReading(BaseModel)]; the two floats are kept as exact
    rationals. *)
Record SensorReading : Set := mkReading {
  timestamp : string;
  sensor_id : string;
  sensor_name : string;
  value : Q;
  unit : string;
  quality : Q
}.

(** A row of the SQLite table [samples]: [created_at] is the second at
    which the row was inserted ([CURRENT_TIMESTAMP]). *)
Record Row : Set := mkRow {
  id : Z;
  reading : SensorReading;
  acked : bool;
  created_at : Z
}.

(** [class LocalBuffer]: the table, in insertion order, and the next value
    of its [AUTOINCREMENT] key. *)
Record LocalBuffer : Set := mkBuffer {
  rows : list Row;
  next_id : Z
}.

(** [_init_db] on a fresh database file. *)
Definition empty_buffer : LocalBuffer := mkBuffer [] 1.

(** [add_sample]: [INSERT INTO samples ...], [acked] left to its default. *)
Definition add_sample (b : LocalBuffer) (r : SensorReading) (clock : Z)
  : LocalBuffer :=
  mkBuffer (rows b ++ [mkRow (next_id b) r false clock]) (next_id b + 1).

(** [ORDER BY created_at ASC]: a stable insertion sort, rows of the same
    second staying in insertion order. *)
Fixpoint insert_by_created_at (x : Row) (l : list Row) : list Row :=
  match l with
  | [] => [x]
  | y :: l' =>
      if created_at x <? created_at y then x :: y :: l'
      else y :: insert_by_created_at x l'
  end.

Definition order_by_created_at (l : list Row) : list Row :=
  fold_right insert_by_created_at [] (rev l).

(** [get_unacked_samples] *)
Definition get_unacked_samples (b : LocalBuffer) (limit : nat)
  : list (Z * SensorReading) :=
  map (fun row => (id row, reading row))
    (firstn limit
       (order_by_created_at (filter (fun row => negb (acked row)) (rows b)))).

(** [mark_acked]: [UPDATE samples SET acked = 1 WHERE id IN (...)] *)
Definition mark_acked (b : LocalBuffer) (sample_ids : list Z) : LocalBuffer :=
  mkBuffer
    (map (fun row =>
            if existsb (Z.eqb (id row)) sample_ids
            then mkRow (id row) (reading row) true (created_at row)
            else row)
       (rows b))
    (next_id b).

(** [clear_old_acked]: acknowledged rows older than seven days go. *)
Definition clear_old_acked (b : LocalBuffer) (clock : Z) : LocalBuffer :=
  mkBuffer
    (filter (fun row =>
               negb (acked row && (created_at row <? clock - 7 * 86400)))
       (rows b))
    (next_id b).

(** How one [session.post] ends: with an HTTP status, with
    [asyncio.TimeoutError], or with another exception. *)
Inductive PostOutcome : Set :=
| Status (code : Z)
| TimeoutError
| OtherError.

(** The network as [send_batch] meets it: the outcome of its attempt
    number [retry_count]. *)
Definition Network := Z -> PostOutcome.

(** What a connector does to the world, in order. *)
Inductive Effect : Set :=
| Post (stream : string) (samples : list SensorReading)
| Sleep (seconds : Q)
| Insert (r : SensorReading).

(** [class EdgeConnector], the fields the loops use. *)
Record EdgeConnector : Set := mkConnector {
  batch_size : Z;
  flush_interval : Q;
  retry_max_attempts : Z;
  retry_backoff : Q;
  buffer : LocalBuffer;
  stream_id : option string;
  running : bool;
  batch : list SensorReading;
  last_flush : Q
}.

Definition set_buffer (c : EdgeConnector) (b : LocalBuffer) : EdgeConnector :=
  mkConnector (batch_size c) (flush_interval c) (retry_max_attempts c)
    (retry_backoff c) b (stream_id c) (running c) (batch c) (last_flush c).

Definition set_batch (c : EdgeConnector) (l : list SensorReading) :=
  mkConnector (batch_size c) (flush_interval c) (retry_max_attempts c)
    (retry_backoff c) (buffer c) (stream_id c) (running c) l (last_flush c).

Definition set_last_flush (c : EdgeConnector) (t : Q) :=
  mkConnector (batch_size c) (flush_interval c) (retry_max_attempts c)
    (retry_backoff c) (buffer c) (stream_id c) (running c) (batch c) t.

(** How the [while] loop of [send_batch] is left: by a [return], or by
    its condition turning false. [OutOfFuel] is the model's own and is
    shown never to occur. *)
Inductive LoopExit : Set :=
| Return (b : bool)
| LoopDone
| OutOfFuel.

(** [while retry_count < self.retry_max_attempts: ...] *)
Fixpoint send_loop (fuel : nat) (net : Network) (stream : string)
    (readings : list SensorReading) (max retry_count : Z) (backoff : Q)
  : LoopExit * list Effect :=
  if retry_count <? max then
    match fuel with
    | O => (OutOfFuel, [])
    | S fuel' =>
        match net retry_count with
        | Status code =>
            (Return (code =? 200), [Post stream readings])
        | TimeoutError | OtherError =>
            let retry_count := retry_count + 1 in
            if retry_count <? max then
              let '(e, effects) :=
                send_loop fuel' net stream readings max retry_count
                  (backoff * 2)%Q in
              (e, Post stream readings :: Sleep backoff :: effects)
            else
              let '(e, effects) :=
                send_loop fuel' net stream readings max retry_count backoff in
              (e, Post stream readings :: effects)
        end
    end
  else (LoopDone, []).

(** [for reading in readings: self.buffer.add_sample(reading)] *)
Definition store_all (b : LocalBuffer) (readings : list SensorReading)
    (clock : Z) : LocalBuffer :=
  fold_left (fun b r => add_sample b r clock) readings b.

(** [if not self.stream_id] *)
Definition registered (c : EdgeConnector) : option string :=
  match stream_id c with
  | Some s => if String.eqb s EmptyString then None else Some s
  | None => None
  end.

(** [send_batch]; [clock] is the second at which rows get inserted. *)
Definition send_batch (c : EdgeConnector) (readings : list SensorReading)
    (net : Network) (clock : Z) : bool * EdgeConnector * list Effect :=
  match registered c with
  | None => (false, c, [])
  | Some stream =>
      match send_loop (Z.to_nat (retry_max_attempts c)) net stream readings
              (retry_max_attempts c) 0 (retry_backoff c) with
      | (Return b, effects) => (b, c, effects)
      | (_, effects) =>
          (false, set_buffer c (store_all (buffer c) readings clock),
           effects ++ map Insert readings)
      end
  end.

(** [flush_batch] *)
Definition flush_batch (c : EdgeConnector) (net : Network) (clock : Z)
  : EdgeConnector * list Effect :=
  match batch c with
  | [] => (c, [])
  | readings_to_send =>
      let '(_, c', effects) :=
        send_batch (set_batch c []) readings_to_send net clock in
      (c', effects)
  end.

(** One turn of [read_loop]: the readings that [read_sample] returns,
    the wall clock [now] in seconds, and the network met if the turn
    flushes. The sleep that ends the turn is part of its effects. *)
Definition read_turn (c : EdgeConnector) (readings : list SensorReading)
    (now : Q) (interval : Q) (net : Network) (clock : Z)
  : EdgeConnector * list Effect :=
  let c1 := set_batch c (batch c ++ readings) in
  let elapsed := (now - last_flush c1)%Q in
  let '(c2, effects) :=
    if (batch_size c1 <=? Z.of_nat (List.length (batch c1)))
       || Qle_bool (flush_interval c1) elapsed
    then let '(c', effects) := flush_batch c1 net clock in
         (set_last_flush c' now, effects)
    else (c1, []) in
  (c2, effects ++ [Sleep interval]).

(** One turn of [retry_buffered_samples], the periodic sweep. *)
Definition retry_turn (c : EdgeConnector) (net : Network) (clock : Z)
  : EdgeConnector * list Effect :=
  let unacked_with_ids := get_unacked_samples (buffer c) 100 in
  let '(c1, effects) :=
    match unacked_with_ids with
    | [] => (c, [])
    | _ =>
        let row_ids := map fst unacked_with_ids in
        let readings := map snd unacked_with_ids in
        let '(ok, c', effects) := send_batch c readings net clock in
        ((if ok then set_buffer c' (mark_acked (buffer c') row_ids) else c'),
         effects)
    end in
  (set_buffer c1 (clear_old_acked (buffer c1) clock),
   effects ++ [Sleep 30%Q]).

(** The send attempts of a batch that never gets through, as the
    specification describes them: [n] posts, a pause after each but the
    last, the pause doubling from [backoff] on. *)
Fixpoint failed_attempts (n : nat) (stream : string)
    (readings : list SensorReading) (backoff : Q) : list Effect :=
  match n with
  | O => []
  | 1%nat => [Post stream readings]
  | S n' =>
      Post stream readings :: Sleep backoff
        :: failed_attempts n' stream readings (backoff * 2)%Q
  end.

Definition is_insert (e : Effect) : bool :=
  match e with Insert _ => true | _ => false end.

Definition is_post (e : Effect) : bool :=
  match e with Post _ _ => true | _ => false end.

(** The rows that storing [readings] adds to a buffer whose next key is
    [first]. *)
Fixpoint fresh_rows (first : Z) (readings : list SensorReading) (clock : Z)
  : list Row :=
  match readings with
  | [] => []
  | r :: rest => mkRow first r false clock :: fresh_rows (first + 1) rest clock
  end.

(** [True] of an attempt that ends in an exception. *)
Definition raises (o : PostOutcome) : bool :=
  match o with Status _ => false | _ => true end.

(** The pauses of a trace, in order. *)
Fixpoint delays (effects : list Effect) : list Q :=
  match effects with
  | [] => []
  | Sleep d :: rest => d :: delays rest
  | _ :: rest => delays rest
  end.

(** [backoff] after [k] executions of [backoff *= 2]. *)
Definition doubled (k : nat) (backoff : Q) : Q :=
  Nat.iter k (fun d => (d * 2)%Q) backoff.

Definition unacked (row : Row) : bool := negb (acked row).

(** A connector as [main] builds it, once registered as [stream]. *)
Definition demo_connector (stream : option string) : EdgeConnector :=
  mkConnector 10 1%Q 5 2%Q empty_buffer stream true [] 0%Q.

Definition demo_reading (n : Z) : SensorReading :=
  mkReading "2026-01-11T10:30:00Z" "s-1" "motor_speed" (n # 1) "RPM" (95 # 100).

End Edge.

(** *** The numeric library calls, as the two analysis files use them

    A Python [float] is kept as an exact real number: rounding and
    overflow are left out, the algorithms are not. What arithmetic on
    real numbers cannot express is kept apart: a result that is not a
    number ([NaN], from dividing zero by zero) and a call that raises. *)

Module NumPy.

Local Open Scope R_scope.

Inductive pyfloat : Type :=
| Num (r : R)
| NaN.

Inductive outcome (A : Type) : Type :=
| Ok (a : A)
| Raises.
Arguments Ok {A} a.
Arguments Raises {A}.

Definition bind {A B : Type} (x : outcome A) (f : A -> outcome B)
  : outcome B :=
  match x with
  | Ok a => f a
  | Raises => Raises
  end.

Definition lift1 (f : R -> R) (a : pyfloat) : pyfloat :=
  match a with
  | Num x => Num (f x)
  | NaN => NaN
  end.

Definition lift2 (f : R -> R -> R) (a b : pyfloat) : pyfloat :=
  match a, b with
  | Num x, Num y => Num (f x y)
  | _, _ => NaN
  end.

(** [a < b] on floats: false as soon as one side is not a number. *)
Definition py_lt (a b : pyfloat) : bool :=
  match a, b with
  | Num x, Num y => if Rlt_dec x y then true else false
  | _, _ => false
  end.

(** The built-ins [min(a, b)] and [max(a, b)]: the first argument stays
    unless the second beats it. *)
Definition py_min (a b : pyfloat) : pyfloat := if py_lt b a then b else a.
Definition py_max (a b : pyfloat) : pyfloat := if py_lt a b then b else a.

(** [np.clip(x, lo, hi)] *)
Definition np_clip (x : pyfloat) (lo hi : R) : pyfloat :=
  lift1 (fun v => Rmin (Rmax v lo) hi) x.

(** [np.sum] *)
Definition np_sum (l : list R) : R := fold_right Rplus 0 l.

(** [np.mean]: not a number on an empty array. *)
Definition np_mean (l : list R) : pyfloat :=
  match l with
  | [] => NaN
  | _ => Num (np_sum l / INR (List.length l))
  end.

(** [np.std], the population standard deviation. *)
Definition np_std (l : list R) : pyfloat :=
  match np_mean l with
  | Num m => lift1 sqrt (np_mean (map (fun x => (x - m) * (x - m)) l))
  | NaN => NaN
  end.

(** [np.min] and [np.max] of an array with first element [v]. *)
Definition np_min (v : R) (rest : list R) : R := fold_left Rmin rest v.
Definition np_max (v : R) (rest : list R) : R := fold_left Rmax rest v.

(** [np.argmax]: the first index of the largest element; raises on an
    empty array. *)
Fixpoint argmax_from (best : R) (best_i i : nat) (l : list R) : nat :=
  match l with
  | [] => best_i
  | x :: rest =>
      if Rlt_dec best x then argmax_from x i (S i) rest
      else argmax_from best best_i (S i) rest
  end.

Definition np_argmax (l : list R) : outcome nat :=
  match l with
  | [] => Raises
  | x :: rest => Ok (argmax_from x 0 1 rest)
  end.

(** The sum of the products of deviations that [np.cov] forms. *)
Definition cross_deviation (x y : list R) (mx my : R) : R :=
  np_sum (map (fun p => (fst p - mx) * (snd p - my)) (combine x y)).

(** [np.corrcoef(x, y)[0, 1]]. The two arrays are stacked, which raises
    if their lengths differ. With fewer than two observations the
    covariance has no degree of freedom and every entry is not a number.
    Otherwise the covariance is divided by the two standard deviations,
    one after the other, and clipped to [-1, 1]; a zero standard
    deviation comes with a zero covariance, and zero by zero is not a
    number. *)
Definition np_corrcoef (x y : list R) : outcome pyfloat :=
  if negb (Nat.eqb (List.length x) (List.length y)) then Raises
  else
    match x with
    | [] | [_] => Ok NaN
    | _ =>
        let n := INR (List.length x) in
        let mx := np_sum x / n in
        let my := np_sum y / n in
        let c_xx := cross_deviation x x mx mx / (n - 1) in
        let c_yy := cross_deviation y y my my / (n - 1) in
        let c_xy := cross_deviation x y mx my / (n - 1) in
        if Req_dec_T (sqrt c_xx) 0 then Ok NaN
        else if Req_dec_T (sqrt c_yy) 0 then Ok NaN
        else Ok (Num (Rmin (Rmax (c_xy / sqrt c_xx / sqrt c_yy) (-1)) 1))
    end.

(** [np.linspace(0, 1, num)] *)
Definition linspace01 (num : nat) : list R :=
  match num with
  | O => []
  | 1%nat => [0]
  | _ => map (fun i => INR i / INR (num - 1)) (seq 0 num)
  end.

(** [np.interp] at one point [x], past the knot [(x0, f0)] with
    [x0 <= x]: the value on the segment that holds [x], the last
    ordinate beyond the last knot. *)
Fixpoint interp_from (x x0 f0 : R) (xp fp : list R) : R :=
  match xp, fp with
  | x1 :: xp', f1 :: fp' =>
      if Rlt_dec x x1 then (f1 - f0) / (x1 - x0) * (x - x0) + f0
      else interp_from x x1 f1 xp' fp'
  | _, _ => f0
  end.

Definition interp_at (xp fp : list R) (x : R) : R :=
  match xp, fp with
  | x0 :: xp', f0 :: fp' =>
      if Rlt_dec x x0 then f0 else interp_from x x0 f0 xp' fp'
  | _, _ => 0
  end.

(** [np.interp(x, xp, fp)]: raises without sample points, or when [fp]
    and [xp] differ in length. *)
Definition np_interp (x xp fp : list R) : outcome (list R) :=
  match xp with
  | [] => Raises
  | _ =>
      if Nat.eqb (List.length xp) (List.length fp)
      then Ok (map (interp_at xp fp) x)
      else Raises
  end.

(** [l[i]] for an index that may fall outside the array, where the
    correlation sums have no term. *)
Definition term (l : list R) (i : Z) : R :=
  if (i <? 0)%Z then 0 else nth (Z.to_nat i) l 0.

(** [scipy.signal.correlate(x, y, mode='full')] *)
Definition correlate_full (x y : list R) : list R :=
  let n1 := List.length x in
  let n2 := List.length y in
  map (fun k =>
         np_sum (map (fun l =>
                        nth l x 0
                        * term y (Z.of_nat l - Z.of_nat k + Z.of_nat n2 - 1))
                   (seq 0 n1)))
    (seq 0 (n1 + n2 - 1)).

(** [mode='same']: the middle of the full output, as long as [x]. *)
Definition correlate_same (x y : list R) : list R :=
  firstn (List.length x)
    (skipn ((List.length y - 1) / 2) (correlate_full x y)).

(** [scipy.spatial.distance.euclidean] *)
Definition euclidean (u v : list R) : R :=
  sqrt (np_sum (map (fun p => (fst p - snd p) * (fst p - snd p))
                  (combine u v))).

End NumPy.

(** *** backend/app/services/analysis_service.py *)

Module Analysis.

Import NumPy.
Local Open Scope R_scope.

(** [class DeviationType(str, Enum)] *)
Inductive DeviationType : Set := SHAPE | TIMING | AMPLITUDE | OVERALL.

(** [class DeviationDetail(BaseModel)], without its optional fields. *)
Record DeviationDetail : Type := mkDeviationDetail {
  sensor_name : string;
  deviation_type : DeviationType;
  severity : R;
  compared_to : string
}.

(** The [1e-10] that guards the divisions. *)
Definition eps : R := / 10000000000.

(** [_resample_series] *)
Definition _resample_series (series : list R) (target_length : nat)
  : outcome (list R) :=
  let x_old := linspace01 (List.length series) in
  let x_new := linspace01 target_length in
  np_interp x_new x_old series.

(** [(series - np.mean(series)) / (np.std(series) + 1e-10)]: an
    elementwise expression, with no element to compute when the series is
    empty and its mean is not a number. *)
Definition z_normalize (series : list R) : list R :=
  match np_mean series, np_std series with
  | Num m, Num sd => map (fun x => (x - m) / (sd + eps)) series
  | _, _ => []
  end.

(** [_calculate_similarity] *)
Definition _calculate_similarity (series1 series2 : list R)
  : outcome pyfloat :=
  let s1_norm := z_normalize series1 in
  let s2_norm := z_normalize series2 in
  bind (np_corrcoef s1_norm s2_norm) (fun correlation =>
  let similarity := lift1 (fun c => (c + 1) / 2) correlation in
  Ok (np_clip similarity 0 1)).

(** [_detect_amplitude_deviation] *)
Definition _detect_amplitude_deviation (series1 series2 : list R) : pyfloat :=
  let mean1 := np_mean series1 in
  let mean2 := np_mean series2 in
  let std1 := np_std series1 in
  let std2 := np_std series2 in
  let mean_diff :=
    lift2 (fun a b => Rabs (a - b) / (Rabs b + eps)) mean1 mean2 in
  let std_diff :=
    lift2 (fun a b => Rabs (a - b) / (Rabs b + eps)) std1 std2 in
  py_min (lift2 (fun a b => (a + b) / 2) mean_diff std_diff) (Num 1).

(** [_detect_shape_deviation] *)
Definition _detect_shape_deviation (series1 series2 : list R)
  : outcome pyfloat :=
  bind (np_corrcoef series1 series2) (fun correlation =>
  Ok (py_max (Num 0) (lift1 (fun c => 1 - Rabs c) correlation))).

(** [_detect_timing_deviation] *)
Definition _detect_timing_deviation (series1 series2 : list R)
  : outcome pyfloat :=
  let correlation := correlate_same series1 series2 in
  bind (np_argmax correlation) (fun peak =>
  let lag := (Z.of_nat peak - Z.of_nat (List.length series1 / 2))%Z in
  let max_lag := INR (List.length series1) * (1 / 10) in
  Ok (py_min (Num (IZR (Z.abs lag) / max_lag)) (Num 1))).

(** The first lines of [_compare_sensor_data]: the two arrays that the
    detectors are given. *)
Definition aligned_values (sensor_data ref_data : list R)
  : outcome (list R * list R) :=
  if negb (Nat.eqb (List.length sensor_data) (List.length ref_data))
  then
    bind (_resample_series sensor_data (List.length ref_data))
      (fun sensor_values => Ok (sensor_values, ref_data))
  else Ok (sensor_data, ref_data).

(** [if dev > 0.2: deviations.append(DeviationDetail(...))] *)
Definition report (sensor : string) (kind : DeviationType) (dev : pyfloat)
    (compared : string) : list DeviationDetail :=
  match dev with
  | Num v =>
      if Rlt_dec (2 / 10) v then [mkDeviationDetail sensor kind v compared]
      else []
  | NaN => []
  end.

(** [_compare_sensor_data] *)
Definition _compare_sensor_data (sensor_data ref_data : list R)
    (sensor : string) (compared : string)
  : outcome (list DeviationDetail * pyfloat) :=
  bind (aligned_values sensor_data ref_data) (fun '(sensor_values, ref_values) =>
  bind (_calculate_similarity sensor_values ref_values) (fun similarity =>
  let amplitude_dev := _detect_amplitude_deviation sensor_values ref_values in
  bind (_detect_shape_deviation sensor_values ref_values) (fun shape_dev =>
  bind (_detect_timing_deviation sensor_values ref_values) (fun timing_dev =>
  Ok (report sensor AMPLITUDE amplitude_dev compared
        ++ report sensor SHAPE shape_dev compared
        ++ report sensor TIMING timing_dev compared,
      similarity))))).

(** The [weights] table of [_calculate_health_score]. *)
Definition weights (t : DeviationType) : R :=
  match t with
  | AMPLITUDE => 8 / 10
  | SHAPE => 1
  | TIMING => 6 / 10
  | OVERALL => 1
  end.

(** [_calculate_health_score] *)
Definition _calculate_health_score (deviations : list DeviationDetail) : R :=
  match deviations with
  | [] => 1
  | _ =>
      let weighted_sum :=
        np_sum (map (fun dev => severity dev * weights (deviation_type dev))
                  deviations) in
      let total_weight :=
        np_sum (map (fun dev => weights (deviation_type dev)) deviations) in
      let avg_deviation :=
        if Rlt_dec 0 total_weight then weighted_sum / total_weight else 0 in
      Rmax 0 (1 - avg_deviation)
  end.

(** [class Cycle(Base)], the columns that [analyze_root_cause] reads. *)
Record Cycle : Type := mkCycle {
  start_time : R;
  end_time : R;
  duration : R;
  is_complete : bool
}.

(** The window of [analyze_root_cause]. A [time_window_seconds] of zero
    counts as absent, as [None] does. *)
Definition window_start (cycle : Cycle) (time_window_seconds : option R) : R :=
  let stop_time := end_time cycle in
  let default := stop_time - duration cycle * (1 / 10) in
  match time_window_seconds with
  | Some w =>
      if Req_dec_T w 0 then default
      else Rmax (start_time cycle) (stop_time - w)
  | None => default
  end.

(** [analyze_root_cause], as far as its window goes: [None] without a
    cycle, for a complete cycle, or without a reference cycle; otherwise
    [analysis_window_start] and [analysis_window_end] of the response. *)
Definition analyze_root_cause (cycle : option Cycle)
    (time_window_seconds : option R) (ref_cycle : option Cycle)
  : option (R * R) :=
  match cycle with
  | None => None
  | Some cycle =>
      if is_complete cycle then None
      else
        match ref_cycle with
        | None => None
        | Some _ =>
            Some (window_start cycle time_window_seconds, end_time cycle)
        end
  end.

End Analysis.

(** *** backend/services/deviation_analyzer.py *)

Module Deviation.

Import NumPy.
Local Open Scope R_scope.

(** An entry of the DTW matrix: a real number, [np.inf], or a value
    that is not a number. *)
Inductive xreal : Type :=
| Fin (r : R)
| Inf
| XNaN.

Definition xadd (c : R) (x : xreal) : xreal :=
  match x with
  | Fin r => Fin (c + r)
  | Inf => Inf
  | XNaN => XNaN
  end.

(** [cost + x], for a cost that may not be a number. *)
Definition xadd_cost (cost : pyfloat) (x : xreal) : xreal :=
  match cost with
  | Num c => xadd c x
  | NaN => XNaN
  end.

(** [a < b]: false as soon as one side is not a number. *)
Definition x_lt (a b : xreal) : bool :=
  match a, b with
  | Fin x, Fin y => if Rlt_dec x y then true else false
  | Fin _, Inf => true
  | _, _ => false
  end.

(** The built-in [min(a, b, c)]: the running minimum gives way only to a
    strictly smaller value. *)
Definition x_min (a b : xreal) : xreal := if x_lt b a then b else a.
Definition x_min3 (a b c : xreal) : xreal := x_min (x_min a b) c.

(** [@dataclass class SensorDeviation]; its fields carry a [d_] so that
    the methods keep their names. *)
Record SensorDeviation : Type := mkSensorDeviation {
  d_sensor_id : string;
  d_sensor_name : string;
  d_euclidean_distance : R;
  d_dtw_distance : xreal;
  d_max_deviation : R;
  d_mean_deviation : R;
  d_contribution_rank : nat;
  d_severity : string
}.

Definition set_contribution_rank (d : SensorDeviation) (i : nat) :=
  mkSensorDeviation (d_sensor_id d) (d_sensor_name d)
    (d_euclidean_distance d) (d_dtw_distance d) (d_max_deviation d)
    (d_mean_deviation d) i (d_severity d).

(** [@dataclass class CycleAnalysisResult]: the ranked sensors and the
    two figures drawn from them (the alerts and the top three repeat
    fields of [sensor_deviations] and are left out). *)
Record CycleAnalysisResult : Type := mkCycleAnalysisResult {
  cycle_id : string;
  reference_cycle_id : string;
  comparison_type : string;
  sensor_deviations : list SensorDeviation;
  overall_health_score : pyfloat;
  anomaly_flag : bool
}.

(** [self.anomaly_threshold] and [self.warning_threshold] *)
Definition anomaly_threshold : R := 7 / 10.
Definition warning_threshold : R := 5 / 10.

(** [normalize_signal] *)
Definition normalize_signal (values : list R) : list R :=
  match values with
  | [] => values
  | v :: rest =>
      let min_val := np_min v rest in
      let max_val := np_max v rest in
      if Req_dec_T max_val min_val
      then map (fun _ => 0) values
      else map (fun x => (x - min_val) / (max_val - min_val)) values
  end.

(** [euclidean_distance] *)
Definition euclidean_distance (completed_values reference_values : list R)
  : R :=
  let min_len :=
    Nat.min (List.length completed_values) (List.length reference_values) in
  let completed_values := firstn min_len completed_values in
  let reference_values := firstn min_len reference_values in
  let completed_norm := normalize_signal completed_values in
  let reference_norm := normalize_signal reference_values in
  euclidean completed_norm reference_norm.

(** [interp1d(x, y, kind='linear', fill_value='extrapolate')] at [t],
    on the segment from [(x0, f0)] to [(x1, f1)] or a later one: the
    segment whose right end is the first knot not below [t], the last
    segment beyond. *)
Fixpoint interp1d_from (t x0 f0 x1 f1 : R) (xs fs : list R) : R :=
  match xs, fs with
  | x2 :: xs', f2 :: fs' =>
      if Rle_dec t x1 then (f1 - f0) / (x1 - x0) * (t - x0) + f0
      else interp1d_from t x1 f1 x2 f2 xs' fs'
  | _, _ => (f1 - f0) / (x1 - x0) * (t - x0) + f0
  end.

(** [interp1d] refuses arrays without an entry. On a single point it
    takes that point for both ends of its segment: the slope is zero
    divided by zero, and every value it returns is not a number. *)
Definition interp1d (x y : list R) : outcome (R -> pyfloat) :=
  if negb (Nat.eqb (List.length x) (List.length y)) then Raises
  else
    match x, y with
    | x0 :: x1 :: xs, f0 :: f1 :: fs =>
        Ok (fun t => Num (interp1d_from t x0 f0 x1 f1 xs fs))
    | [_], [_] => Ok (fun _ => NaN)
    | _, _ => Raises
    end.

(** The first lines of [dtw_distance]: both series brought to the
    longer length. *)
Definition dtw_align (completed_values reference_values : list R)
  : outcome (list pyfloat * list pyfloat) :=
  if negb (Nat.eqb (List.length completed_values)
             (List.length reference_values))
  then
    let x_completed := linspace01 (List.length completed_values) in
    let x_reference := linspace01 (List.length reference_values) in
    let x_common :=
      linspace01 (Nat.max (List.length completed_values)
                    (List.length reference_values)) in
    bind (interp1d x_completed completed_values) (fun f_completed =>
    bind (interp1d x_reference reference_values) (fun f_reference =>
    Ok (map f_completed x_common, map f_reference x_common)))
  else Ok (map Num completed_values, map Num reference_values).

(** The numbers of an array, if all its values are numbers. *)
Fixpoint numbers_of (values : list pyfloat) : option (list R) :=
  match values with
  | [] => Some []
  | Num x :: rest => option_map (cons x) (numbers_of rest)
  | NaN :: _ => None
  end.

(** [normalize_signal] on an array that may hold values that are not
    numbers. With such a value in it, [np.min] and [np.max] are not
    numbers, the test [max_val == min_val] fails, and every quotient is
    not a number. *)
Definition normalize_signal_of (values : list pyfloat) : list pyfloat :=
  match numbers_of values with
  | Some numbers => map Num (normalize_signal numbers)
  | None => map (fun _ => NaN) values
  end.

(** Row [0] of [dtw_matrix]: zero, then [np.inf]. *)
Definition first_row (m : nat) : list xreal := Fin 0 :: repeat Inf m.

(** The inner loop over [j]: the cells of row [i] from column [j] on,
    given the cells [up] of row [i-1] from column [j] on, the cell [diag]
    at [(i-1, j-1)] and the cell [left] at [(i, j-1)]. *)
Fixpoint fill_row (a : pyfloat) (reference_norm : list pyfloat)
    (up : list xreal) (diag left : xreal) : list xreal :=
  match reference_norm, up with
  | b :: bs, u :: up' =>
      let cost := lift2 (fun a b => Rabs (a - b)) a b in
      let cell := xadd_cost cost (x_min3 u left diag) in
      cell :: fill_row a bs up' u cell
  | _, _ => []
  end.

(** Row [i] from row [i-1]; column [0] keeps its [np.inf]. *)
Definition next_row (reference_norm : list pyfloat) (prev : list xreal)
    (a : pyfloat) : list xreal :=
  match prev with
  | d0 :: up => Inf :: fill_row a reference_norm up d0 Inf
  | [] => []
  end.

(** The outer loop over [i]: the last row of the matrix. *)
Definition dtw_last_row (completed_norm reference_norm : list pyfloat)
  : list xreal :=
  fold_left (next_row reference_norm) completed_norm
    (first_row (List.length reference_norm)).

(** [dtw_distance] *)
Definition dtw_distance (completed_values reference_values : list R)
  : outcome xreal :=
  bind (dtw_align completed_values reference_values)
    (fun '(completed_values, reference_values) =>
  let completed_norm := normalize_signal_of completed_values in
  let reference_norm := normalize_signal_of reference_values in
  Ok (last (dtw_last_row completed_norm reference_norm) Inf)).

(** The dictionary that [compute_deviation_metrics] returns. *)
Record Metrics : Type := mkMetrics {
  max_deviation : R;
  mean_deviation : R;
  std_deviation : R;
  peak_index : nat
}.

(** [compute_deviation_metrics]: [np.max] raises on empty arrays. *)
Definition compute_deviation_metrics
    (completed_values reference_values : list R) : outcome Metrics :=
  let min_len :=
    Nat.min (List.length completed_values) (List.length reference_values) in
  let completed_values := firstn min_len completed_values in
  let reference_values := firstn min_len reference_values in
  let deviations :=
    map (fun p => Rabs (fst p - snd p))
      (combine completed_values reference_values) in
  match deviations, np_mean deviations, np_std deviations,
        np_argmax deviations with
  | d :: rest, Num mean, Num std, Ok peak =>
      Ok (mkMetrics (np_max d rest) mean std peak)
  | _, _, _, _ => Raises
  end.

Section Smoothing.

(** [scipy.signal.savgol_filter(values, window_length, polyorder)], which
    lies outside the repository. *)
Variable savgol_filter : list R -> nat -> nat -> outcome (list R).

(** [smooth_signal] *)
Definition smooth_signal (values : list R) : list R :=
  let window_length := 11%nat in
  if Nat.ltb (List.length values) window_length then values
  else
    match savgol_filter values window_length 3 with
    | Ok smoothed => smoothed
    | Raises => values
    end.

(** [min(1.0, 0.6 * (euclidean_dist / 10.0) + 0.4 * (dtw_dist / 100.0))]:
    the [1.0] stays unless the score is smaller, so it stays when the
    score is not a number. *)
Definition combined_score (euclidean_dist : R) (dtw_dist : xreal) : R :=
  match dtw_dist with
  | Fin d =>
      let score := 6 / 10 * (euclidean_dist / 10) + 4 / 10 * (d / 100) in
      if Rlt_dec score 1 then score else 1
  | Inf => 1
  | XNaN => 1
  end.

Definition severity_of (score : R) : string :=
  if Rlt_dec anomaly_threshold score then "critical"
  else if Rlt_dec warning_threshold score then "warning"
  else "normal".

(** [analyze_sensor] *)
Definition analyze_sensor (sensor_id sensor_name : string)
    (completed_values reference_values : list R) : outcome SensorDeviation :=
  let completed_smooth := smooth_signal completed_values in
  let reference_smooth := smooth_signal reference_values in
  let euclidean_dist := euclidean_distance completed_smooth reference_smooth in
  bind (dtw_distance completed_smooth reference_smooth) (fun dtw_dist =>
  bind (compute_deviation_metrics completed_values reference_values)
    (fun metrics =>
  let score := combined_score euclidean_dist dtw_dist in
  Ok (mkSensorDeviation sensor_id sensor_name euclidean_dist dtw_dist
        (max_deviation metrics) (mean_deviation metrics) 0
        (severity_of score)))).

(** [reference_samples[sensor_id]], if the key is there. *)
Fixpoint lookup (samples : list (string * list R)) (key : string)
  : option (list R) :=
  match samples with
  | [] => None
  | (k, v) :: rest => if String.eqb k key then Some v else lookup rest key
  end.

(** [# Analyze each sensor] *)
Fixpoint analyze_each (completed_samples reference_samples
                         : list (string * list R))
  : outcome (list SensorDeviation) :=
  match completed_samples with
  | [] => Ok []
  | (sensor_id, values) :: rest =>
      match lookup reference_samples sensor_id with
      | None => analyze_each rest reference_samples
      | Some reference_values =>
          bind (analyze_sensor sensor_id sensor_id values reference_values)
            (fun deviation =>
          bind (analyze_each rest reference_samples) (fun deviations =>
          Ok (deviation :: deviations)))
      end
  end.

End Smoothing.

(** The sort key [x.euclidean_distance + x.dtw_distance]. *)
Definition rank_key (d : SensorDeviation) : xreal :=
  xadd (d_euclidean_distance d) (d_dtw_distance d).

(** [sort(key=..., reverse=True)]: stable, largest key first. This is
    the order that a stable sort leaves when the keys are numbers or
    [np.inf]. With a key that is not a number the comparisons are
    inconsistent, and the order that [list.sort] then leaves follows its
    merge strategy, not this definition: what is proved of the order is
    proved for keys that are numbers. *)
Fixpoint insert_ranked (x : SensorDeviation) (l : list SensorDeviation)
  : list SensorDeviation :=
  match l with
  | [] => [x]
  | y :: l' =>
      if x_lt (rank_key y) (rank_key x) then x :: y :: l'
      else y :: insert_ranked x l'
  end.

Definition sort_ranked (l : list SensorDeviation) : list SensorDeviation :=
  fold_left (fun sorted x => insert_ranked x sorted) l [].

(** [for i, deviation in enumerate(sensor_deviations, 1)] *)
Fixpoint enumerate_ranks (i : nat) (l : list SensorDeviation)
  : list SensorDeviation :=
  match l with
  | [] => []
  | d :: rest => set_contribution_rank d i :: enumerate_ranks (S i) rest
  end.

(** [severity_scores.get(d.severity, 0.5)] *)
Definition severity_scores (severity : string) : R :=
  if String.eqb severity "critical" then 0
  else if String.eqb severity "warning" then 5 / 10
  else if String.eqb severity "normal" then 1
  else 5 / 10.

(** [# Calculate overall health score] *)
Definition health_of (sensor_deviations : list SensorDeviation) : pyfloat :=
  match sensor_deviations with
  | [] => Num 100
  | _ =>
      let avg_severity :=
        np_mean (map (fun d => severity_scores (d_severity d))
                   sensor_deviations) in
      lift1 (fun avg => avg * 100) avg_severity
  end.

(** [analyze_cycle] *)
Definition analyze_cycle
    (savgol_filter : list R -> nat -> nat -> outcome (list R))
    (cycle : string) (completed_samples reference_samples
                        : list (string * list R))
    (reference_cycle : string) (comparison : string)
  : outcome CycleAnalysisResult :=
  bind (analyze_each savgol_filter completed_samples reference_samples)
    (fun deviations =>
  let ranked := enumerate_ranks 1 (sort_ranked deviations) in
  let health := health_of ranked in
  Ok (mkCycleAnalysisResult cycle reference_cycle comparison ranked health
        (py_lt health (Num 70)))).

(** A series whose samples all have the value [c]. *)
Definition constant_series (c : R) (n : nat) : list R := repeat c n.

(** An entry that is not negative; an entry that is, besides, finite. *)
Definition xnonneg (x : xreal) : Prop :=
  match x with Fin r => 0 <= r | Inf => True | XNaN => False end.

Definition xfin (x : xreal) : Prop :=
  match x with Fin r => 0 <= r | Inf | XNaN => False end.

End Deviation.

(** *** Runs of the cycle state machine: what the properties below speak of *)

Module CycleFSMRuns.

Import CycleFSM.
Local Open Scope Z_scope.

(** The clock reading that an input carries. *)
Definition input_time (i : Input) : datetime :=
  match i with
  | Event _ _ env => now env
  | Tick env => now env
  end.

(** The clock does not run backwards along the inputs, starting from
    [lo]. *)
Fixpoint clock_runs_on (lo : datetime) (inputs : list Input) : Prop :=
  match inputs with
  | [] => True
  | i :: rest => lo <= input_time i /\ clock_runs_on (input_time i) rest
  end.

(** The cycles handed to [on_cycle_complete] in a trace. *)
Fixpoint completed_cycles (calls : list Call) : list CycleMetadata :=
  match calls with
  | [] => []
  | CycleCompleteCall c :: rest => c :: completed_cycles rest
  | _ :: rest => completed_cycles rest
  end.

(** The calls made to [on_state_change] in a trace. *)
Fixpoint state_changes (calls : list Call) : list Call :=
  match calls with
  | [] => []
  | StateChangeCall s o n c :: rest =>
      StateChangeCall s o n c :: state_changes rest
  | _ :: rest => state_changes rest
  end.

(** The state that the branches of [transition] assign, by event, state
    before, and whether the grace period has elapsed. *)
Definition next_state (event : CycleEvent) (s : CycleState)
    (grace_elapsed : bool) : CycleState :=
  match event, s with
  | REGISTER_STREAM, IDLE => WAITING_START
  | CYCLE_START, (WAITING_START | STOPPED | ABORTED) => ACTIVE
  | CYCLE_STOP, ACTIVE => STOPPING
  | SAMPLE_RECEIVED, STOPPING => if grace_elapsed then STOPPED else STOPPING
  | TIMEOUT, ACTIVE => ABORTED
  | TIMEOUT, STOPPING => if grace_elapsed then STOPPED else STOPPING
  | (CONNECTION_LOST | MANUAL_ABORT), (ACTIVE | STOPPING) => ABORTED
  | _, _ => s
  end.

(** What holds of the current cycle in each state of a machine that was
    built by [__init__] and driven through [transition] and
    [check_sample_timeout] only. *)
Definition settled (m : CycleStateMachine) : Prop :=
  0 <= cycle_counter m /\
  (forall c, current_cycle m = Some c ->
     cycle_number c = cycle_counter m /\ 1 <= cycle_number c /\
     0 <= sample_count c /\
     stream_id c = self_stream_id m /\ dataset_id c = self_dataset_id m) /\
  match state m with
  | IDLE | WAITING_START =>
      current_cycle m = None /\ cycle_counter m = 0
  | ACTIVE =>
      exists c t, current_cycle m = Some c /\ end_time c = None /\
                  abort_reason c = None /\ last_sample_time m = Some t
  | STOPPING =>
      exists c t, current_cycle m = Some c /\ end_time c = None /\
                  abort_reason c = None /\ stop_time m = Some t
  | STOPPED =>
      exists c t, current_cycle m = Some c /\ end_time c = Some t /\
                  abort_reason c = None
  | ABORTED =>
      exists c t r, current_cycle m = Some c /\ end_time c = Some t /\
                    abort_reason c = Some r
  end.

(** [d.get(k)] *)
Fixpoint dict_get (d : Dict) (k : string) : option meta_value :=
  match d with
  | [] => None
  | (k', v) :: d' => if String.eqb k' k then Some v else dict_get d' k
  end.

(** The events of a batch of samples, one clock reading each. *)
Definition samples_received (clock : list datetime) : list Input :=
  map (fun t => Event SAMPLE_RECEIVED None (mkEnv t EmptyString)) clock.

(** A hook that never raises, or no hook at all. *)
Definition quiet_hook (cb : option Callable) : Prop :=
  match cb with
  | Some f => forall call, f call = true
  | None => True
  end.

(** Whether [event] opens a new cycle from state [s]. *)
Definition CycleEvent_taken (event : CycleEvent) (s : CycleState) : bool :=
  match event, s with
  | CYCLE_START, (WAITING_START | STOPPED | ABORTED) => true
  | _, _ => false
  end.

End CycleFSMRuns.


(** *** Times along a run *)

Module CycleFSMTimes.

Import CycleFSM.
Local Open Scope Z_scope.

(** The current cycle, if any, was started at [lo] or before. *)
Definition started_by (lo : datetime) (m : CycleStateMachine) : Prop :=
  forall c, current_cycle m = Some c -> start_time c <= lo.

(** A cycle that has an end time, not earlier than its start time. *)
Definition well_timed (c : CycleMetadata) : Prop :=
  exists e, end_time c = Some e /\ start_time c <= e.

End CycleFSMTimes.


(** *** The local buffer and the connector over time *)

Module EdgeRuns.

Import Edge.
Local Open Scope Z_scope.

(** The calls that the connector makes on its buffer. *)
Inductive BufferOp : Set :=
| AddSample (r : SensorReading) (clock : Z)
| MarkAcked (sample_ids : list Z)
| ClearOldAcked (clock : Z).

Definition apply_op (b : LocalBuffer) (op : BufferOp) : LocalBuffer :=
  match op with
  | AddSample r clock => add_sample b r clock
  | MarkAcked sample_ids => mark_acked b sample_ids
  | ClearOldAcked clock => clear_old_acked b clock
  end.

Definition apply_ops (b : LocalBuffer) (ops : list BufferOp) : LocalBuffer :=
  fold_left apply_op ops b.

(** The key of the table: no two rows share an [id], and every [id] in
    use lies between 1 and the next one to be given out. *)
Definition keyed (b : LocalBuffer) : Prop :=
  NoDup (map id (rows b)) /\
  Forall (fun row => 1 <= id row < next_id b) (rows b) /\
  1 <= next_id b.

(** Numbers in ascending order. *)
Fixpoint ascending (l : list Z) : Prop :=
  match l with
  | [] => True
  | x :: rest => Forall (Z.le x) rest /\ ascending rest
  end.

(** The rows still awaiting acknowledgement. *)
Definition backlog (b : LocalBuffer) : list Row := filter unacked (rows b).

(** The seconds slept in all, along a trace. *)
Definition total_delay (effects : list Effect) : Q :=
  fold_right Qplus 0%Q (delays effects).

(** A network whose first [k] attempts raise, and whose next one is
    answered with the status [code]. *)
Definition answers_at (net : Network) (k : Z) (code : Z) : Prop :=
  (forall j, 0 <= j < k -> raises (net j) = true) /\ net k = Status code.

End EdgeRuns.


(** *** The sensor simulator of the edge connector *)

Module Simulator.

Local Open Scope R_scope.

(** [class SensorType(str, Enum)] *)
Inductive SensorType : Set :=
| ANALOG
| ACCELEROMETER
| TEMPERATURE
| PRESSURE.

(** A float that is a number or an infinity: the limits of a sensor
    default to the infinities. Numbers are exact reals, and so are the
    sines of the simulated signals. *)
Inductive float : Type :=
| MinusInf
| Real (r : R)
| PlusInf.

(** [a < b] *)
Definition float_lt (a b : float) : bool :=
  match a, b with
  | MinusInf, (Real _ | PlusInf) => true
  | Real _, PlusInf => true
  | Real x, Real y => if Rlt_dec x y then true else false
  | _, _ => false
  end.

(** The built-ins [min(a, b)] and [max(a, b)]: the first argument stays
    unless the second beats it. *)
Definition min (a b : float) : float := if float_lt b a then b else a.
Definition max (a b : float) : float := if float_lt a b then b else a.

(** [@dataclass class SensorConfig] *)
Record SensorConfig : Type := mkSensorConfig {
  sensor_id : string;
  name : string;
  type : SensorType;
  unit : string;
  min_value : float;
  max_value : float
}.

(** [class SensorReading(BaseModel)], with the value as the simulator
    computes it. *)
Record SensorReading : Type := mkSensorReading {
  r_timestamp : string;
  r_sensor_id : string;
  r_sensor_name : string;
  r_value : float;
  r_unit : string;
  r_quality : R
}.

(** [class SensorSimulator] *)
Record SensorSimulator : Type := mkSensorSimulator {
  sensors : list SensorConfig;
  rate_hz : R;
  counter : Z
}.

(** [__init__] *)
Definition init (sensors : list SensorConfig) (rate_hz : R)
  : SensorSimulator :=
  mkSensorSimulator sensors rate_hz 0.

Definition interval (s : SensorSimulator) : R := 1 / rate_hz s.

(** The signal of a sensor before it is clamped; [gauss] is what
    [random.gauss(0, 2)] draws. *)
Definition signal (t : SensorType) (counter : Z) (gauss : R) : R :=
  match t with
  | ANALOG => 50 + 10 * sin (IZR counter * (1 / 10))
  | TEMPERATURE => 25 + 5 * sin (IZR counter * (1 / 100))
  | _ => 100 + gauss
  end.

(** [0.95 if self.counter % 100 != 0 else 0.7] *)
Definition quality_at (counter : Z) : R :=
  if negb (counter mod 100 =? 0)%Z then 95 / 100 else 7 / 10.

(** The body of the loop over [self.sensors]. *)
Definition read_sensor (counter : Z) (timestamp : string) (gauss : R)
    (sensor : SensorConfig) : SensorReading :=
  let value := Real (signal (type sensor) counter gauss) in
  (* Clamp to sensor limits *)
  let value := max (min_value sensor) (min (max_value sensor) value) in
  mkSensorReading timestamp (sensor_id sensor) (name sensor) value
    (unit sensor) (quality_at counter).

(** [read_sample]: [timestamp] is the clock reading of the call, and
    [gauss i] the draw made for the sensor at index [i]. *)
Definition read_sample (s : SensorSimulator) (timestamp : string)
    (gauss : nat -> R) : SensorSimulator * list SensorReading :=
  let counter := (counter s + 1)%Z in
  (mkSensorSimulator (sensors s) (rate_hz s) counter,
   map (fun p => read_sensor counter timestamp (gauss (fst p)) (snd p))
     (combine (seq 0 (List.length (sensors s))) (sensors s))).

(** Calls of [read_sample] one after the other, each with its clock
    reading and its draws. *)
Fixpoint read_samples (s : SensorSimulator)
    (calls : list (string * (nat -> R)))
  : SensorSimulator * list (list SensorReading) :=
  match calls with
  | [] => (s, [])
  | (timestamp, gauss) :: rest =>
      let '(s1, readings) := read_sample s timestamp gauss in
      let '(s2, more) := read_samples s1 rest in
      (s2, readings :: more)
  end.

(** [lo <= x <= hi] on floats. *)
Definition within (lo hi x : float) : Prop :=
  float_lt x lo = false /\ float_lt hi x = false.

End Simulator.

(** *** Registration at start-up *)

Module EdgeStartup.

Import Edge.
Local Open Scope Z_scope.

(** How the post of [register] ends: with a status and, in the body,
    maybe a [stream_id]; or with an exception. *)
Inductive RegisterOutcome : Set :=
| Answer (code : Z) (body_stream_id : option string)
| Raise.

(** What [start] does to the world before the loops begin. *)
Inductive StartEffect : Set :=
| PostRegister
| SleepFor (seconds : Z).

Definition set_stream_id (c : EdgeConnector) (s : option string)
  : EdgeConnector :=
  mkConnector (batch_size c) (flush_interval c) (retry_max_attempts c)
    (retry_backoff c) (buffer c) s (running c) (batch c) (last_flush c).

Definition set_running (c : EdgeConnector) (r : bool) : EdgeConnector :=
  mkConnector (batch_size c) (flush_interval c) (retry_max_attempts c)
    (retry_backoff c) (buffer c) (stream_id c) r (batch c) (last_flush c).

(** [register] *)
Definition register (c : EdgeConnector) (o : RegisterOutcome)
  : bool * EdgeConnector :=
  match o with
  | Answer code body_stream_id =>
      if code =? 200 then (true, set_stream_id c body_stream_id)
      else (false, c)
  | Raise => (false, c)
  end.

(** [for attempt in range(3): if await self.register(): break ...]:
    [turns] turns are left, and [net attempt] is the outcome of the post
    made in the turn [attempt]. *)
Fixpoint register_loop (turns attempt : nat) (c : EdgeConnector)
    (net : nat -> RegisterOutcome) : EdgeConnector * list StartEffect :=
  match turns with
  | O => (c, [])
  | S turns' =>
      let '(ok, c1) := register c (net attempt) in
      if ok then (c1, [PostRegister])
      else
        let '(c2, effects) := register_loop turns' (S attempt) c1 net in
        (c2, PostRegister :: SleepFor 5 :: effects)
  end.

(** [start], up to the two loops. *)
Definition start (c : EdgeConnector) (net : nat -> RegisterOutcome)
  : EdgeConnector * list StartEffect :=
  register_loop 3 0 (set_running c true) net.

(** The effects of [k] attempts that failed. *)
Definition failed_registrations (k : nat) : list StartEffect :=
  List.concat (repeat [PostRegister; SleepFor 5] k).

Definition is_register (e : StartEffect) : bool :=
  match e with PostRegister => true | _ => false end.

Definition accepted (o : RegisterOutcome) : bool :=
  match o with Answer code _ => code =? 200 | Raise => false end.

End EdgeStartup.


(** *** From the comparison of sensors to the verdict on a cycle *)

Module AnalysisFlow.

Import NumPy Analysis.
Local Open Scope R_scope.

(** A [pd.DataFrame] with the columns [time] and [value], row by row. *)
Definition DataFrame := list (R * R).

(** What [_load_cycle_sensor_data] returns: a frame per sensor name. *)
Definition CycleData := list (string * DataFrame).

Definition values (df : DataFrame) : list R := map snd df.

(** [data[sensor_name]], if the key is there. *)
Fixpoint frame (data : CycleData) (sensor_name : string)
  : option DataFrame :=
  match data with
  | [] => None
  | (k, df) :: rest =>
      if String.eqb k sensor_name then Some df else frame rest sensor_name
  end.

(** [class Cycle(Base)], the columns that [compare_cycles] reads, with
    the sensor data stored for the cycle. *)
Record CycleRow : Type := mkCycleRow {
  dataset_id : Z;
  sensor_data : CycleData
}.

(** The three sentences of [_generate_comparison_summary]. *)
Inductive Summary : Set :=
| HighlySimilar
| ModeratelySimilar (deviations : nat)
| DifferSignificantly (deviations : nat).

(** [_generate_comparison_summary] *)
Definition _generate_comparison_summary (deviations : list DeviationDetail)
    (similarity : pyfloat) : Summary :=
  if py_lt (Num (9 / 10)) similarity then HighlySimilar
  else if py_lt (Num (7 / 10)) similarity
       then ModeratelySimilar (List.length deviations)
       else DifferSignificantly (List.length deviations).

(** The loop of [compare_cycles] over [sensors_to_compare]. *)
Fixpoint compare_sensors (sensors_to_compare : list string)
    (cycle_data ref_data : CycleData)
  : outcome (list DeviationDetail * list pyfloat) :=
  match sensors_to_compare with
  | [] => Ok ([], [])
  | sensor_name :: rest =>
      match frame cycle_data sensor_name, frame ref_data sensor_name with
      | Some a, Some b =>
          bind (_compare_sensor_data (values a) (values b) sensor_name
                  "reference")
            (fun '(sensor_deviations, similarity) =>
          bind (compare_sensors rest cycle_data ref_data)
            (fun '(deviations, similarity_scores) =>
          Ok (sensor_deviations ++ deviations,
              similarity :: similarity_scores)))
      | _, _ => compare_sensors rest cycle_data ref_data
      end
  end.

(** The numbers of a list of floats, if all of them are. *)
Fixpoint all_numbers (l : list pyfloat) : option (list R) :=
  match l with
  | [] => Some []
  | Num x :: rest => option_map (cons x) (all_numbers rest)
  | NaN :: _ => None
  end.

(** [np.mean] of a list of floats. *)
Definition mean_of_floats (l : list pyfloat) : pyfloat :=
  match all_numbers l with
  | Some xs => np_mean xs
  | None => NaN
  end.

(** [compare_cycles], up to the arguments of its [ComparisonResponse]:
    the similarity score, the deviations and the summary. [ValueError]
    is [Raises]. *)
Definition compare_cycles (cycle ref_cycle : option CycleRow)
    (sensors : option (list string))
  : outcome (pyfloat * list DeviationDetail * Summary) :=
  match cycle, ref_cycle with
  | Some cycle, Some ref_cycle =>
      if negb (dataset_id cycle =? dataset_id ref_cycle)%Z then Raises
      else
        let cycle_data := sensor_data cycle in
        let ref_data := sensor_data ref_cycle in
        let sensors_to_compare :=
          match sensors with
          | Some (s :: l) => s :: l
          | _ => map fst cycle_data       (* [sensors or list(keys)] *)
          end in
        bind (compare_sensors sensors_to_compare cycle_data ref_data)
          (fun '(deviations, similarity_scores) =>
        let overall_similarity :=
          match similarity_scores with
          | [] => Num 0
          | _ => mean_of_floats similarity_scores
          end in
        Ok (overall_similarity, deviations,
            _generate_comparison_summary deviations overall_similarity))
  | _, _ => Raises
  end.

(** The sentences of [_generate_recommendations]. *)
Inductive Recommendation : Set :=
| OperatingNormally
| Inspect (sensor : string)
| Monitor (sensor : string)
| ContinueMonitoring.

(** [sensor_deviations[dev.sensor_name].append(dev)], the key added at
    the end when it is new. *)
Fixpoint group_add (groups : list (string * list DeviationDetail))
    (dev : DeviationDetail) : list (string * list DeviationDetail) :=
  match groups with
  | [] => [(sensor_name dev, [dev])]
  | (k, devs) :: rest =>
      if String.eqb k (sensor_name dev) then (k, devs ++ [dev]) :: rest
      else (k, devs) :: group_add rest dev
  end.

(** [# Generate recommendations per sensor] *)
Fixpoint recommend_each (groups : list (string * list DeviationDetail))
  : list Recommendation :=
  match groups with
  | [] => []
  | (sensor, devs) :: rest =>
      let avg_severity := np_mean (map severity devs) in
      if py_lt (Num (7 / 10)) avg_severity
      then Inspect sensor :: recommend_each rest
      else if py_lt (Num (4 / 10)) avg_severity
           then Monitor sensor :: recommend_each rest
           else recommend_each rest
  end.

(** [_generate_recommendations] *)
Definition _generate_recommendations
    (ref_deviations prev_deviations : list DeviationDetail)
  : list Recommendation :=
  match ref_deviations, prev_deviations with
  | [], [] => [OperatingNormally]
  | _, _ =>
      let sensor_deviations :=
        fold_left group_add (ref_deviations ++ prev_deviations) [] in
      let recommendations := recommend_each sensor_deviations in
      firstn 5
        (match recommendations with
         | [] => [ContinueMonitoring]
         | _ => recommendations
         end)
  end.




(** A deviation as [_compare_sensor_data] reports it. *)
Definition reportable (sensor compared : string) (dev : DeviationDetail)
  : Prop :=
  sensor_name dev = sensor /\ compared_to dev = compared /\
  2 / 10 < severity dev <= 1.

(** The sensor that a recommendation names, if it names one. *)
Definition recommended_sensor (r : Recommendation) : option string :=
  match r with
  | Inspect s | Monitor s => Some s
  | _ => None
  end.

(** The sensors that a list of recommendations names, in order. *)
Definition named_sensors (l : list Recommendation) : list string :=
  flat_map (fun r => match recommended_sensor r with
                     | Some s => [s]
                     | None => []
                     end) l.

(** The sensor is in both cycles' data. *)
Definition shared_sensor (cycle ref_cycle : CycleRow) (sensor : string)
  : Prop :=
  frame (sensor_data cycle) sensor <> None /\
  frame (sensor_data ref_cycle) sensor <> None.

End AnalysisFlow.


(** *** The contributors to an abnormal stop *)

Module RootCause.

Import NumPy Analysis AnalysisFlow.
Local Open Scope R_scope.

(** [Series.std()] of pandas: the sample standard deviation, which is
    not a number when there are fewer than two values. [Series.mean()]
    is [np_mean]. *)
Definition pd_std (l : list R) : pyfloat :=
  match l with
  | [] | [_] => NaN
  | _ =>
      match np_mean l with
      | Num m =>
          Num (sqrt (np_sum (map (fun x => (x - m) * (x - m)) l)
                     / (INR (List.length l) - 1)))
      | NaN => NaN
      end
  end.

(** [_calculate_window_deviation] *)
Definition _calculate_window_deviation (window_data ref_data : DataFrame)
    (window_start window_end : R) : pyfloat * DeviationType * R :=
  match window_data with
  | [] => (Num 0, OVERALL, window_start)
  | _ =>
      let window_mean := np_mean (values window_data) in
      let window_std := pd_std (values window_data) in
      let ref_mean := np_mean (values ref_data) in
      let ref_std := pd_std (values ref_data) in
      let mean_dev :=
        lift2 (fun a b => Rabs (a - b) / (Rabs b + eps)) window_mean ref_mean in
      let std_dev :=
        lift2 (fun a b => Rabs (a - b) / (Rabs b + eps)) window_std ref_std in
      let overall_deviation :=
        py_min (lift2 (fun a b => (a + b) / 2) mean_dev std_dev) (Num 1) in
      let dev_type := if py_lt std_dev mean_dev then AMPLITUDE else SHAPE in
      let deviation_time := fst (last window_data (0, 0)) in
      (overall_deviation, dev_type, deviation_time)
  end.

(** The three degrees of [_describe_deviation]. *)
Inductive SeverityText : Set := high | moderate | low.

(** [_describe_deviation], as the degree and the kind its sentence
    names. *)
Definition _describe_deviation (deviation_type : DeviationType) (score : R)
  : SeverityText * DeviationType :=
  (if Rlt_dec (7 / 10) score then high
   else if Rlt_dec (4 / 10) score then moderate else low,
   deviation_type).

(** [class RootCauseContributor(BaseModel)] *)
Record RootCauseContributor : Type := mkRootCauseContributor {
  c_sensor_name : string;
  contribution_score : R;
  c_deviation_type : DeviationType;
  time_of_deviation : R;
  description : SeverityText * DeviationType
}.

(** The rows of a frame whose time lies in the window. *)
Definition in_window (window_start stop_time : R) (df : DataFrame)
  : DataFrame :=
  filter (fun row =>
            (if Rle_dec window_start (fst row) then true else false)
            && (if Rle_dec (fst row) stop_time then true else false))
    df.

(** [# Analyze each sensor in the window]: the loop over the items of
    [cycle_data], whose keys are distinct. *)
Fixpoint window_contributors (cycle_data ref_data : CycleData)
    (window_start stop_time : R) : list RootCauseContributor :=
  match cycle_data with
  | [] => []
  | (sensor_name, sensor_series) :: rest =>
      let others := window_contributors rest ref_data window_start stop_time in
      match frame ref_data sensor_name with
      | None => others
      | Some ref_series =>
          match in_window window_start stop_time sensor_series with
          | [] => others
          | window_data =>
              let '(deviation_score, deviation_type, deviation_time) :=
                _calculate_window_deviation window_data ref_series
                  window_start stop_time in
              match deviation_score with
              | Num score =>
                  if Rlt_dec (3 / 10) score
                  then mkRootCauseContributor sensor_name score deviation_type
                         deviation_time
                         (_describe_deviation deviation_type score)
                       :: others
                  else others
              | NaN => others
              end
          end
      end
  end.

(** [contributors.sort(key=lambda x: x.contribution_score,
    reverse=True)]: stable, largest score first. *)
Fixpoint insert_contributor (x : RootCauseContributor)
    (l : list RootCauseContributor) : list RootCauseContributor :=
  match l with
  | [] => [x]
  | y :: l' =>
      if Rlt_dec (contribution_score y) (contribution_score x)
      then x :: y :: l'
      else y :: insert_contributor x l'
  end.

Definition sort_contributors (l : list RootCauseContributor)
  : list RootCauseContributor :=
  fold_left (fun sorted x => insert_contributor x sorted) l [].

(** The two sentences of [most_likely_cause]. *)
Inductive Cause : Set :=
| AbnormalBehaviorIn (sensor : string)
| NoClearDeviation.

(** [class RootCauseAnalysisResponse(BaseModel)] *)
Record RootCauseAnalysisResponse : Type := mkRootCauseAnalysisResponse {
  stop_time : R;
  analysis_window_start : R;
  analysis_window_end : R;
  ranked_contributors : list RootCauseContributor;
  most_likely_cause : Cause;
  confidence : R
}.

(** [analyze_root_cause] with the sensor data of the cycle and of the
    reference cycle of its dataset, if there is one. *)
Definition analyze_root_cause (cycle : option (Cycle * CycleData))
    (time_window_seconds : option R) (ref_cycle : option CycleData)
  : option RootCauseAnalysisResponse :=
  match cycle with
  | None => None
  | Some (cycle, cycle_data) =>
      if is_complete cycle then None
      else
        let stop_time := end_time cycle in
        let window_start := Analysis.window_start cycle time_window_seconds in
        match ref_cycle with
        | None => None
        | Some ref_data =>
            let contributors :=
              sort_contributors
                (window_contributors cycle_data ref_data window_start
                   stop_time) in
            let '(most_likely_cause, confidence) :=
              match contributors with
              | top_contributor :: _ =>
                  (AbnormalBehaviorIn (c_sensor_name top_contributor),
                   if Rlt_dec (95 / 100) (contribution_score top_contributor)
                   then 95 / 100
                   else contribution_score top_contributor)
              | [] => (NoClearDeviation, 1 / 10)
              end in
            Some (mkRootCauseAnalysisResponse stop_time window_start stop_time
                    contributors most_likely_cause confidence)
        end
  end.

(** Scores from the largest down. *)
Fixpoint descending (l : list R) : Prop :=
  match l with
  | [] => True
  | x :: rest => Forall (fun y => y <= x) rest /\ descending rest
  end.

End RootCause.


(** *** The ranking of sensors *)

Module Ranking.

Import NumPy Deviation.
Local Open Scope R_scope.

(** Keys from the largest down: none is followed by a larger one. *)
Fixpoint keys_descending (l : list xreal) : Prop :=
  match l with
  | [] => True
  | x :: rest => Forall (fun y => x_lt x y = false) rest /\ keys_descending rest
  end.

(** A deviation of a sensor that both cycles have, named by its id. *)
Definition analysed (completed_samples reference_samples
                       : list (string * list R)) (d : SensorDeviation)
  : Prop :=
  In (d_sensor_id d) (map fst completed_samples) /\
  lookup reference_samples (d_sensor_id d) <> None /\
  d_sensor_name d = d_sensor_id d.

End Ranking.

(** ** Part II. Properties *)

(** *** The cycle state machine *)

Section CycleFSMFacts.

Import CycleFSM.
Local Open Scope Z_scope.

Lemma CycleState_eqb_refl (s : CycleState) : CycleState_eqb s s = true.
Proof. destruct s; reflexivity. Qed.

Lemma notify_same_state (m : CycleStateMachine) :
  notify (state m) m = (true, m, []).
Proof.
  unfold notify. rewrite CycleState_eqb_refl. simpl.
  destruct (on_state_change m); reflexivity.
Qed.

(** An event outside the table leaves [dispatch] with nothing to do. *)
Lemma dispatch_unlisted (m : CycleStateMachine) (event : CycleEvent)
    (metadata : option Dict) (env : Env) :
  listed_valid event (state m) = false ->
  dispatch m event metadata env = (true, m, []).
Proof.
  intros H. unfold dispatch, state_in.
  destruct event; destruct (state m); simpl in *;
    solve [reflexivity | discriminate H].
Qed.

(** C3. For every state of the machine and every event such that the
    (event, state) pair is not listed in the transition table of section
    4.1, [transition] returns normally and leaves the whole machine as it
    was (so the state, the current cycle and its sample count are
    unchanged), and makes no hook call: neither the state-change nor the
    cycle-complete callback fires, and no error is reported. *)
Theorem transition_unlisted_pair_is_noop
    (m : CycleStateMachine) (event : CycleEvent)
    (metadata : option Dict) (env : Env) :
  listed_valid event (state m) = false ->
  transition m event metadata env = (Returned true, m, []).
Proof.
  intros H. unfold transition.
  rewrite (dispatch_unlisted m event metadata env H).
  rewrite notify_same_state. reflexivity.
Qed.

Lemma transition_unlisted_pair_is_noop_witness :
  let m := with_callbacks (init "stream-1" "dataset-1")
             (Some (fun _ => true)) (Some (fun _ => true)) None in
  listed_valid CYCLE_STOP (state m) = false /\
  transition m CYCLE_STOP None (mkEnv 0 "c-1") = (Returned true, m, []).
Proof.
  intros m. split; [reflexivity|].
  apply transition_unlisted_pair_is_noop. reflexivity.
Defined.

(** **** At most one completion per cycle *)

Lemma completions_app (a b : list Call) :
  completions (a ++ b) = completions a ++ completions b.
Proof.
  induction a as [|[ | |] a IH]; simpl; try rewrite IH; reflexivity.
Qed.

Lemma NoDup_snoc (l : list Z) (k : Z) :
  NoDup l -> ~ In k l -> NoDup (l ++ [k]).
Proof.
  intros Hl Hk. apply NoDup_app; [assumption|repeat constructor; simpl; tauto|].
  intros a Ha [<-|[]]. contradiction.
Qed.

Lemma effect_refl (m : CycleStateMachine) : effect m m [].
Proof. apply Quiet; auto. Qed.

Ltac effect_quiet :=
  apply Quiet;
  [ reflexivity | reflexivity | reflexivity
  | unfold open_state; simpl; intros [E|E];
    first [discriminate E | auto] ].

Ltac effect_opened := apply Opened; reflexivity.

Ltac effect_completed c :=
  apply (Completed _ _ _ c);
  [ unfold open_state; simpl; auto | unfold closed_state; simpl; auto
  | reflexivity | reflexivity | reflexivity | reflexivity ].

Lemma dispatch_effect (m m' : CycleStateMachine) (event : CycleEvent)
    (metadata : option Dict) (env : Env) (ok : bool) (calls : list Call) :
  dispatch m event metadata env = (ok, m', calls) ->
  effect m m' (completions calls).
Proof.
  destruct m as [sid did st cur k lst stp sc cc er].
  unfold dispatch, state_in, _complete_cycle, _grace_period_elapsed, on_cycle.
  intros H.
  destruct event; destruct st; destruct cur as [c|]; simpl in H;
    repeat match type of H with
      | context [if ?b then _ else _] => destruct b
      | context [match ?o with Some _ => _ | None => _ end] => destruct o
      end;
    inversion H; subst; simpl;
    first [ effect_quiet | effect_opened | effect_completed c ].
Qed.

Lemma notify_effect (old : CycleState) (m m' : CycleStateMachine)
    (ok : bool) (calls : list Call) :
  notify old m = (ok, m', calls) -> m' = m /\ completions calls = [].
Proof.
  unfold notify. intros H.
  destruct (on_state_change m);
    [destruct (negb (CycleState_eqb old (state m)))|];
    inversion H; subst; auto.
Qed.

Lemma transition_effect (m m' : CycleStateMachine) (event : CycleEvent)
    (metadata : option Dict) (env : Env) (r : Result) (calls : list Call) :
  transition m event metadata env = (r, m', calls) ->
  effect m m' (completions calls).
Proof.
  unfold transition. intros H.
  destruct (dispatch m event metadata env) as [[ok m1] calls1] eqn:Hd.
  apply dispatch_effect in Hd.
  destruct ok.
  - destruct (notify (state m) m1) as [[ok2 m2] calls2] eqn:Hn.
    apply notify_effect in Hn. destruct Hn as [-> Hc2].
    assert (Hc : completions (calls1 ++ calls2) = completions calls1)
      by (rewrite completions_app, Hc2; apply app_nil_r).
    destruct ok2; [|destruct (on_error m1) as [cb|]; [destruct (cb ErrorCall)|]];
      inversion H; subst;
      rewrite ?completions_app; simpl; rewrite ?app_nil_r;
      rewrite ?Hc2, ?app_nil_r; exact Hd.
  - destruct (on_error m1) as [cb|]; [destruct (cb ErrorCall)|];
      inversion H; subst;
      rewrite ?completions_app; simpl; rewrite ?app_nil_r; exact Hd.
Qed.

Lemma check_sample_timeout_effect (m m' : CycleStateMachine) (env : Env)
    (r : Result) (calls : list Call) :
  check_sample_timeout m env = (r, m', calls) ->
  effect m m' (completions calls).
Proof.
  unfold check_sample_timeout. intros H.
  destruct (state m); try destruct (last_sample_time m);
    repeat match type of H with
      | context [if ?b then _ else _] => destruct b
      end;
    first [ apply transition_effect in H; exact H
          | inversion H; subst; apply effect_refl ].
Qed.

Lemma feed_effect (m m' : CycleStateMachine) (i : Input)
    (r : Result) (calls : list Call) :
  feed m i = (r, m', calls) -> effect m m' (completions calls).
Proof.
  destruct i; simpl; [apply transition_effect|apply check_sample_timeout_effect].
Qed.

Lemma once_inv_step (m m' : CycleStateMachine) (done new : list Z) :
  once_inv m done -> effect m m' new -> once_inv m' (done ++ new).
Proof.
  intros (Hnd & Hle & Hcur & Hpos & Hopen) He. unfold once_inv.
  destruct He as [-> Hk Hn Hs | -> Hk Hn | c Ho Hc Hk Hn Hc0 ->].
  - rewrite app_nil_r, Hk, Hn.
    split; [exact Hnd|]. split; [exact Hle|]. split; [exact Hcur|].
    split; [exact Hpos|]. auto.
  - rewrite app_nil_r.
    split; [exact Hnd|].
    split; [intros k Hin; apply Hle in Hin; lia|].
    split; [intros n E; rewrite Hn in E; inversion E; lia|].
    split; [lia|].
    intros _ Hin. apply Hle in Hin. lia.
  - assert (Hnum : cycle_number c = cycle_counter m /\ 1 <= cycle_number c)
      by (apply Hcur; unfold numbers; rewrite Hc0; reflexivity).
    destruct Hnum as [Hnum Hone].
    rewrite Hk, Hn.
    split; [apply NoDup_snoc; [assumption|]; rewrite Hnum; auto|].
    split.
    { intros k Hin. apply in_app_or in Hin.
      destruct Hin as [Hin|[<-|[]]]; [apply Hle; exact Hin|lia]. }
    split; [exact Hcur|]. split; [exact Hpos|].
    unfold open_state, closed_state in *. intros [E|E];
      destruct Hc as [E'|E']; congruence.
Qed.

Lemma once_inv_run (inputs : list Input) (m m' : CycleStateMachine)
    (done : list Z) (calls : list Call) :
  once_inv m done -> run m inputs = (m', calls) ->
  once_inv m' (done ++ completions calls).
Proof.
  revert m done calls.
  induction inputs as [|i rest IH]; intros m done calls Hinv H; simpl in H.
  - inversion H; subst. simpl. rewrite app_nil_r. exact Hinv.
  - destruct (feed m i) as [[r m1] calls1] eqn:Hf.
    destruct (run m1 rest) as [m2 calls2] eqn:Hr.
    inversion H; subst.
    rewrite completions_app, app_assoc.
    apply (IH m1); [|exact Hr].
    apply (once_inv_step m); [exact Hinv|exact (feed_effect _ _ _ _ _ Hf)].
Qed.

Lemma once_inv_init (stream dataset : string) (sc cc er : option Callable) :
  once_inv (with_callbacks (init stream dataset) sc cc er) [].
Proof.
  unfold once_inv, numbers, open_state. simpl.
  split; [apply NoDup_nil|]. split; [intros k []|].
  split; [intros n E; discriminate E|]. split; [lia|].
  intros [E|E]; discriminate E.
Qed.

(** C4. Whatever events and periodic ticks reach a machine, in whatever
    order and whatever the hooks do, the completion callback is invoked at
    most once for each cycle allocated by [CYCLE_START] (cycles are told
    apart by their [cycle_number], which the counter hands out from one
    on); and once the machine is in [STOPPED] or [ABORTED], no event and
    no tick invokes it: only after a new cycle has been started, and
    reached its own end, does it fire again. *)
Theorem finalize_at_most_once_per_cycle :
  (forall (stream dataset : string) (sc cc er : option Callable)
          (inputs : list Input),
      let final := run (with_callbacks (init stream dataset) sc cc er)
                     inputs in
      NoDup (completions (snd final)) /\
      forall k, In k (completions (snd final)) ->
                1 <= k <= cycle_counter (fst final)) /\
  (forall (m m' : CycleStateMachine) (i : Input) (r : Result)
          (calls : list Call),
      state m = STOPPED \/ state m = ABORTED ->
      feed m i = (r, m', calls) ->
      completions calls = []).
Proof.
  split.
  - intros stream dataset sc cc er inputs final. subst final.
    destruct (run _ inputs) as [m' calls] eqn:Hr. simpl.
    destruct (once_inv_run _ _ _ _ _ (once_inv_init stream dataset sc cc er) Hr)
      as (Hnd & Hle & _).
    split; [exact Hnd|exact Hle].
  - intros m m' i r calls Hclosed Hf.
    destruct (feed_effect _ _ _ _ _ Hf) as [E _ _ _ | E _ _ | c Ho _ _ _ _ _];
      try exact E.
    unfold open_state in Ho.
    destruct Ho as [E|E]; destruct Hclosed as [E'|E']; congruence.
Qed.

Lemma finalize_at_most_once_per_cycle_witness :
  let m0 := with_callbacks (init "stream-1" "dataset-1")
              (Some (fun _ => true)) (Some (fun _ => true)) None in
  let m1 := fst (run m0 demo_inputs) in
  let late := Event CONNECTION_LOST None (mkEnv 62000000 EmptyString) in
  completions (snd (run m0 demo_inputs)) = [1; 2] /\
  NoDup (completions (snd (run m0 demo_inputs))) /\
  state m1 = ABORTED /\
  completions (snd (feed m1 late)) = [].
Proof.
  intros m0 m1 late.
  destruct finalize_at_most_once_per_cycle as [Honce Hclosed].
  split; [vm_compute; reflexivity|].
  split; [apply (Honce "stream-1"%string "dataset-1"%string)|].
  split; [vm_compute; reflexivity|].
  destruct (feed m1 late) as [[r m2] calls] eqn:Hf.
  simpl. apply (Hclosed m1 m2 late r calls); [|exact Hf].
  right. vm_compute. reflexivity.
Defined.

(** **** The scenarios of the specification *)

(** A start, five samples, a stop, three samples within the grace period
    and a tick past it: eight samples counted, the machine [STOPPED], one
    completion. *)
Example scenario_eight_samples :
  let m0 := with_callbacks (init "stream-1" "dataset-1")
              None (Some (fun _ => true)) None in
  let sample t := Event SAMPLE_RECEIVED None (mkEnv t EmptyString) in
  let '(m, calls) :=
    run m0 ([ Event REGISTER_STREAM None (mkEnv 0 EmptyString);
              Event CYCLE_START None (mkEnv 0 "c-1") ]
            ++ map sample [1000000; 2000000; 3000000; 4000000; 5000000]
            ++ [ Event CYCLE_STOP None (mkEnv 6000000 EmptyString) ]
            ++ map sample [7000000; 8000000; 9000000]
            ++ [ Tick (mkEnv 17000000 EmptyString) ]) in
  state m = STOPPED /\
  option_map sample_count (current_cycle m) = Some 8 /\
  option_map end_time (current_cycle m) = Some (Some 17000000) /\
  completions calls = [1].
Proof. vm_compute. repeat split. Qed.

(** After a stop, a sample short of the grace period leaves the machine
    [STOPPING]; a sample at the grace period forces [STOPPED] with one
    completion. *)
Example scenario_grace_period :
  let m0 := with_callbacks (init "stream-1" "dataset-1")
              None (Some (fun _ => true)) None in
  let stopping :=
    fst (run m0 [ Event REGISTER_STREAM None (mkEnv 0 EmptyString);
                  Event CYCLE_START None (mkEnv 0 "c-1");
                  Event CYCLE_STOP None (mkEnv 1000000 EmptyString) ]) in
  let early := transition stopping SAMPLE_RECEIVED None (mkEnv 10999999 EmptyString) in
  let late := transition stopping SAMPLE_RECEIVED None (mkEnv 11000000 EmptyString) in
  state (snd (fst early)) = STOPPING /\ completions (snd early) = [] /\
  state (snd (fst late)) = STOPPED /\ completions (snd late) = [1].
Proof. vm_compute. repeat split. Qed.

End CycleFSMFacts.

(** *** The edge connector *)

Section EdgeFacts.

Import Edge.
Local Open Scope Z_scope.

Lemma failed_attempts_SS (n : nat) (stream : string)
    (readings : list SensorReading) (backoff : Q) :
  failed_attempts (S (S n)) stream readings backoff
  = Post stream readings :: Sleep backoff
      :: failed_attempts (S n) stream readings (backoff * 2)%Q.
Proof. reflexivity. Qed.

(** When every attempt raises, the loop runs to the end of its
    condition, and its effects are the attempts with doubling pauses. *)
Lemma send_loop_all_raise (net : Network) (stream : string)
    (readings : list SensorReading) (max : Z) (fuel : nat) :
  forall (retry_count : Z) (backoff : Q),
    (forall k, retry_count <= k < max -> raises (net k) = true) ->
    (Z.to_nat (max - retry_count) <= fuel)%nat ->
    send_loop fuel net stream readings max retry_count backoff
    = (LoopDone,
       failed_attempts (Z.to_nat (max - retry_count)) stream readings backoff).
Proof.
  induction fuel as [|fuel IH]; intros rc backoff Hnet Hfuel; simpl.
  - destruct (rc <? max) eqn:Hlt.
    + apply Z.ltb_lt in Hlt. lia.
    + apply Z.ltb_ge in Hlt.
      replace (Z.to_nat (max - rc)) with 0%nat by lia. reflexivity.
  - destruct (rc <? max) eqn:Hlt.
    + apply Z.ltb_lt in Hlt.
      assert (Hr : raises (net rc) = true) by (apply Hnet; lia).
      assert (Hstep : Z.to_nat (max - rc) = S (Z.to_nat (max - (rc + 1))))
        by lia.
      destruct (rc + 1 <? max) eqn:Hlt'.
      * apply Z.ltb_lt in Hlt'.
        rewrite (IH (rc + 1) (backoff * 2)%Q)
          by (try (intros k Hk; apply Hnet); lia).
        rewrite Hstep.
        replace (Z.to_nat (max - (rc + 1)))
          with (S (Z.to_nat (max - (rc + 1)) - 1)) by lia.
        rewrite failed_attempts_SS.
        destruct (net rc); try discriminate Hr; reflexivity.
      * apply Z.ltb_ge in Hlt'.
        rewrite (IH (rc + 1) backoff)
          by (try (intros k Hk; apply Hnet); lia).
        rewrite Hstep.
        replace (Z.to_nat (max - (rc + 1))) with 0%nat by lia.
        destruct (net rc); try discriminate Hr; reflexivity.
    + apply Z.ltb_ge in Hlt.
      replace (Z.to_nat (max - rc)) with 0%nat by lia. reflexivity.
Qed.

(** In general the loop never runs out of the fuel it is given, writes
    nothing to the store, and is left by its condition only if every
    attempt raised. *)
Lemma send_loop_sound (net : Network) (stream : string)
    (readings : list SensorReading) (max : Z) (fuel : nat) :
  forall (retry_count : Z) (backoff : Q) (e : LoopExit)
         (effects : list Effect),
    (Z.to_nat (max - retry_count) <= fuel)%nat ->
    send_loop fuel net stream readings max retry_count backoff = (e, effects) ->
    e <> OutOfFuel /\
    forallb (fun x => negb (is_insert x)) effects = true /\
    (e = LoopDone ->
     forall k, retry_count <= k < max -> raises (net k) = true).
Proof.
  induction fuel as [|fuel IH]; intros rc backoff e effects Hfuel H;
    simpl in H.
  - destruct (rc <? max) eqn:Hlt.
    + apply Z.ltb_lt in Hlt. lia.
    + apply Z.ltb_ge in Hlt. inversion H; subst.
      repeat split; try discriminate; auto. intros _ k Hk. lia.
  - destruct (rc <? max) eqn:Hlt.
    + apply Z.ltb_lt in Hlt.
      destruct (net rc) as [code| |] eqn:Hn.
      * inversion H; subst. repeat split; try discriminate; auto.
      * destruct (rc + 1 <? max);
          match type of H with
          | (let '(_, _) := ?call in _) = _ =>
              destruct call as [e' eff'] eqn:Hrec
          end;
          inversion H; subst; apply IH in Hrec; try lia;
          destruct Hrec as (Hf & Hi & Hd); repeat split; auto;
          intros He k Hk; destruct (Z.eq_dec k rc) as [->|Hne];
          [rewrite Hn; reflexivity|apply Hd; [assumption|lia]
          |rewrite Hn; reflexivity|apply Hd; [assumption|lia]].
      * destruct (rc + 1 <? max);
          match type of H with
          | (let '(_, _) := ?call in _) = _ =>
              destruct call as [e' eff'] eqn:Hrec
          end;
          inversion H; subst; apply IH in Hrec; try lia;
          destruct Hrec as (Hf & Hi & Hd); repeat split; auto;
          intros He k Hk; destruct (Z.eq_dec k rc) as [->|Hne];
          [rewrite Hn; reflexivity|apply Hd; [assumption|lia]
          |rewrite Hn; reflexivity|apply Hd; [assumption|lia]].
    + apply Z.ltb_ge in Hlt. inversion H; subst.
      repeat split; try discriminate; auto. intros _ k Hk. lia.
Qed.

Lemma store_all_rows (readings : list SensorReading) (clock : Z) :
  forall b : LocalBuffer,
    store_all b readings clock
    = mkBuffer (rows b ++ fresh_rows (next_id b) readings clock)
        (next_id b + Z.of_nat (List.length readings)).
Proof.
  unfold store_all.
  induction readings as [|r rest IH]; intros b; simpl fold_left.
  - destruct b as [rs n]. simpl. rewrite app_nil_r, Z.add_0_r. reflexivity.
  - rewrite IH. unfold add_sample. simpl rows. simpl next_id.
    rewrite <- app_assoc. simpl. f_equal. lia.
Qed.

Lemma failed_attempts_posts (stream : string) (readings : list SensorReading)
    (n : nat) :
  forall backoff : Q,
    List.length (filter is_post (failed_attempts n stream readings backoff)) = n.
Proof.
  induction n as [|[|n] IH]; intros backoff; try reflexivity.
  rewrite failed_attempts_SS. cbn [filter is_post Datatypes.length].
  rewrite IH. reflexivity.
Qed.

Lemma failed_attempts_delays (stream : string) (readings : list SensorReading)
    (n : nat) :
  forall backoff : Q,
    delays (failed_attempts n stream readings backoff)
    = map (fun k => doubled k backoff) (seq 0 (pred n)).
Proof.
  induction n as [|[|n] IH]; intros backoff; try reflexivity.
  rewrite failed_attempts_SS. cbn [delays]. rewrite IH.
  cbn [pred seq map]. f_equal.
  rewrite <- seq_shift, map_map.
  apply map_ext. intros k. unfold doubled.
  rewrite Nat.iter_succ_r. reflexivity.
Qed.

Lemma failed_attempts_no_insert (stream : string)
    (readings : list SensorReading) (n : nat) :
  forall backoff : Q,
    forallb (fun x => negb (is_insert x))
      (failed_attempts n stream readings backoff) = true.
Proof.
  induction n as [|[|n] IH]; intros backoff; try reflexivity.
  rewrite failed_attempts_SS. cbn [forallb is_insert negb andb]. apply IH.
Qed.

(** [backoff] doubled [k] times is [backoff * 2^k]. *)
Lemma doubled_power (k : nat) (backoff : Q) :
  (doubled k backoff == backoff * 2 ^ Z.of_nat k)%Q.
Proof.
  unfold doubled. induction k as [|k IH].
  - simpl. ring.
  - rewrite Nat.iter_succ, IH, Nat2Z.inj_succ.
    unfold Z.succ. rewrite Qpower_plus by discriminate. 
    simpl (2 ^ 1)%Q. ring.
Qed.

Lemma In_insert_by_created_at (x y : Row) (l : list Row) :
  In x (insert_by_created_at y l) <-> x = y \/ In x l.
Proof.
  induction l as [|z l IH]; simpl.
  - intuition.
  - destruct (created_at y <? created_at z); simpl; intuition.
Qed.

Lemma In_order_by_created_at (x : Row) (l : list Row) :
  In x (order_by_created_at l) <-> In x l.
Proof.
  unfold order_by_created_at. rewrite (in_rev l).
  induction (rev l) as [|y l' IH]; simpl; [tauto|].
  rewrite In_insert_by_created_at, IH. intuition.
Qed.

Lemma length_insert_by_created_at (y : Row) (l : list Row) :
  List.length (insert_by_created_at y l) = S (List.length l).
Proof.
  induction l as [|z l IH]; simpl; [reflexivity|].
  destruct (created_at y <? created_at z); simpl; auto.
Qed.

Lemma length_order_by_created_at (l : list Row) :
  List.length (order_by_created_at l) = List.length l.
Proof.
  unfold order_by_created_at. rewrite <- (length_rev l).
  induction (rev l) as [|y l' IH]; simpl; [reflexivity|].
  rewrite length_insert_by_created_at, IH. reflexivity.
Qed.

Lemma In_fresh_rows (readings : list SensorReading) (clock : Z)
    (r : SensorReading) :
  forall first : Z,
    In r readings ->
    exists row, In row (fresh_rows first readings clock) /\
                reading row = r /\ acked row = false.
Proof.
  induction readings as [|r' rest IH]; intros first Hin; [destruct Hin|].
  destruct Hin as [->|Hin].
  - eexists. split; [left; reflexivity|]. auto.
  - destruct (IH (first + 1) Hin) as (row & Hrow & Hr & Ha).
    exists row. split; [right; exact Hrow|]. auto.
Qed.

Lemma fresh_rows_unacked (readings : list SensorReading) (clock : Z) :
  forall first : Z,
    Forall (fun row => acked row = false) (fresh_rows first readings clock).
Proof.
  induction readings as [|r rest IH]; intros first; simpl; constructor; auto.
Qed.

Lemma map_reading_fresh_rows (readings : list SensorReading) (clock : Z) :
  forall first : Z, map reading (fresh_rows first readings clock) = readings.
Proof.
  induction readings as [|r rest IH]; intros first; simpl;
    [|rewrite IH]; reflexivity.
Qed.

(** A row that is stored and not acknowledged is in the sweep's catch,
    as soon as the sweep's bound covers the rows awaiting it. *)
Lemma unacked_row_is_swept (b : LocalBuffer) (limit : nat) (row : Row) :
  In row (rows b) -> acked row = false ->
  (List.length (filter (fun row => negb (acked row)) (rows b)) <= limit)%nat ->
  In (id row, reading row) (get_unacked_samples b limit).
Proof.
  intros Hin Hack Hlim. unfold get_unacked_samples.
  apply (in_map (fun row => (id row, reading row))).
  rewrite firstn_all2 by (rewrite length_order_by_created_at; exact Hlim).
  apply In_order_by_created_at. apply filter_In. split; [exact Hin|].
  rewrite Hack. reflexivity.
Qed.

(** With a backlog, a registered connector that is allowed at least one
    attempt opens its sweep by posting the backlog it fetched. *)
Lemma retry_turn_posts_backlog (c : EdgeConnector) (net : Network)
    (clock : Z) (stream : string) :
  registered c = Some stream -> 0 < retry_max_attempts c ->
  get_unacked_samples (buffer c) 100 <> [] ->
  exists rest,
    snd (retry_turn c net clock)
    = Post stream (map snd (get_unacked_samples (buffer c) 100)) :: rest.
Proof.
  intros Hreg Hmax Hne. unfold retry_turn.
  destruct (get_unacked_samples (buffer c) 100) as [|p l] eqn:Hg;
    [contradiction|].
  unfold send_batch. rewrite Hreg.
  destruct (Z.to_nat (retry_max_attempts c)) as [|fuel] eqn:Hf; [lia|].
  cbn [send_loop]. replace (0 <? retry_max_attempts c) with true
    by (symmetry; apply Z.ltb_lt; exact Hmax).
  destruct (net 0) as [code| |].
  - cbn. eexists. reflexivity.
  - destruct (0 + 1 <? retry_max_attempts c);
      match goal with
      | |- context [send_loop ?f ?n ?s ?r ?m ?k ?b] =>
          destruct (send_loop f n s r m k b) as [[ok| |] eff]
      end; cbn; eexists; reflexivity.
  - destruct (0 + 1 <? retry_max_attempts c);
      match goal with
      | |- context [send_loop ?f ?n ?s ?r ?m ?k ?b] =>
          destruct (send_loop f n s r m k b) as [[ok| |] eff]
      end; cbn; eexists; reflexivity.
Qed.

(** C2. For every batch handed to [send_batch] by a registered connector,
    if every send attempt ends in a timeout or a transport error, then
    [send_batch] makes [retry_max_attempts] attempts, pausing after each
    but the last for a delay that starts at [retry_backoff] and doubles
    each time; it then returns [False] having written every reading of the
    batch to the durable store, in order, as unacknowledged rows. These
    rows are in the catch of the periodic sweep (as soon as the backlog
    fits its bound), and the sweep posts its catch again. *)
Theorem send_batch_retries_then_stores
    (c : EdgeConnector) (readings : list SensorReading) (net : Network)
    (clock : Z) (stream : string) :
  registered c = Some stream ->
  (forall k, 0 <= k < retry_max_attempts c -> raises (net k) = true) ->
  let n := Z.to_nat (retry_max_attempts c) in
  let stored := fresh_rows (next_id (buffer c)) readings clock in
  exists (c' : EdgeConnector) (sends : list Effect),
    send_batch c readings net clock
      = (false, c', sends ++ map Insert readings) /\
    forallb (fun x => negb (is_insert x)) sends = true /\
    List.length (filter is_post sends) = n /\
    Forall (fun e => e = Post stream readings) (filter is_post sends) /\
    delays sends = map (fun k => doubled k (retry_backoff c)) (seq 0 (pred n)) /\
    rows (buffer c') = rows (buffer c) ++ stored /\
    map reading stored = readings /\
    Forall (fun row => acked row = false) stored /\
    (forall (r : SensorReading) (limit : nat),
        In r readings ->
        (List.length (filter (fun row => negb (acked row)) (rows (buffer c')))
         <= limit)%nat ->
        In r (map snd (get_unacked_samples (buffer c') limit))) /\
    (0 < retry_max_attempts c -> readings <> [] ->
     forall (net' : Network) (clock' : Z),
     exists rest,
       snd (retry_turn c' net' clock')
       = Post stream (map snd (get_unacked_samples (buffer c') 100)) :: rest).
Proof.
  intros Hreg Hnet n stored.
  exists (set_buffer c (store_all (buffer c) readings clock)).
  exists (failed_attempts n stream readings (retry_backoff c)).
  assert (Hrows : rows (store_all (buffer c) readings clock)
                  = rows (buffer c) ++ stored)
    by (rewrite store_all_rows; reflexivity).
  split; [|split; [|split; [|split; [|split; [|split; [|split;
    [|split; [|split]]]]]]]].
  - unfold send_batch. rewrite Hreg.
    rewrite send_loop_all_raise;
      rewrite ?Z.sub_0_r; auto with zarith.
  - apply failed_attempts_no_insert.
  - apply failed_attempts_posts.
  - clear. generalize (retry_backoff c).
    induction n as [|[|k] IH]; intros b.
    + constructor.
    + repeat constructor.
    + rewrite failed_attempts_SS. cbn [filter is_post].
      constructor; [reflexivity|apply IH].
  - apply failed_attempts_delays.
  - exact Hrows.
  - apply map_reading_fresh_rows.
  - apply fresh_rows_unacked.
  - intros r limit Hin Hlim.
    destruct (In_fresh_rows readings clock r (next_id (buffer c)) Hin)
      as (row & Hrow & Hr & Hack).
    rewrite <- Hr.
    change (reading row) with (snd (id row, reading row)).
    apply in_map. apply unacked_row_is_swept; auto.
    simpl. rewrite Hrows. apply in_or_app. right. exact Hrow.
  - intros Hmax Hne net' clock'.
    apply retry_turn_posts_backlog; auto.
    simpl buffer. unfold get_unacked_samples. rewrite Hrows.
    destruct readings as [|r0 rest0]; [contradiction|].
    intros Hnil. apply map_eq_nil in Hnil.
    assert (Hin : In (mkRow (next_id (buffer c)) r0 false clock)
                    (order_by_created_at
                       (filter (fun row => negb (acked row))
                          (rows (buffer c) ++ stored)))).
    { apply In_order_by_created_at, filter_In. split; [|reflexivity].
      apply in_or_app. right. left. reflexivity. }
    destruct (order_by_created_at _) as [|x l]; [destruct Hin|].
    discriminate Hnil.
Qed.

Lemma send_batch_retries_then_stores_witness :
  let c := demo_connector (Some "stream-1"%string) in
  let readings := [demo_reading 50; demo_reading 51] in
  exists (c' : EdgeConnector) (sends : list Effect),
    send_batch c readings (fun _ => TimeoutError) 7
      = (false, c', sends ++ map Insert readings) /\
    List.length (filter is_post sends) = 5%nat /\
    delays sends = [2; 4; 8; 16]%Q /\
    map id (rows (buffer c')) = [1; 2] /\
    map acked (rows (buffer c')) = [false; false].
Proof.
  intros c readings.
  destruct (send_batch_retries_then_stores c readings (fun _ => TimeoutError)
              7 "stream-1" eq_refl (fun _ _ => eq_refl))
    as (c' & sends & Hsend & _ & Hposts & _ & Hdelays & Hrows & _).
  exists c', sends.
  split; [exact Hsend|]. split; [exact Hposts|]. split; [exact Hdelays|].
  rewrite Hrows. split; reflexivity.
Defined.

(** What [send_batch] does in general: nothing is written to the store
    before the last attempt, and what is written, if anything, is the
    whole batch, after every attempt allowed has raised. *)
Lemma send_batch_sound (c : EdgeConnector) (readings : list SensorReading)
    (net : Network) (clock : Z) :
  exists (ok : bool) (c' : EdgeConnector) (sends : list Effect)
         (stored : list SensorReading),
    send_batch c readings net clock = (ok, c', sends ++ map Insert stored) /\
    forallb (fun x => negb (is_insert x)) sends = true /\
    batch c' = batch c /\ last_flush c' = last_flush c /\
    rows (buffer c')
      = rows (buffer c) ++ fresh_rows (next_id (buffer c)) stored clock /\
    (stored = [] \/
     stored = readings /\ ok = false /\
     List.length (filter is_post sends) = Z.to_nat (retry_max_attempts c) /\
     forall k, 0 <= k < retry_max_attempts c -> raises (net k) = true).
Proof.
  unfold send_batch.
  destruct (registered c) as [stream|] eqn:Hreg.
  - destruct (send_loop _ net stream readings (retry_max_attempts c) 0
                (retry_backoff c)) as [e effects] eqn:Hloop.
    destruct (send_loop_sound _ _ _ _ _ _ _ _ _
                ltac:(rewrite Z.sub_0_r; apply Nat.le_refl) Hloop)
      as (Hfuel & Hins & Hdone).
    destruct e as [b| |]; [| |contradiction].
    + exists b, c, effects, []. simpl. rewrite !app_nil_r. auto 10.
    + exists false, (set_buffer c (store_all (buffer c) readings clock)),
        effects, readings.
      simpl. rewrite store_all_rows. simpl.
      repeat split; auto. right.
      specialize (Hdone eq_refl).
      rewrite send_loop_all_raise in Hloop;
        [|exact Hdone|rewrite Z.sub_0_r; apply Nat.le_refl].
      inversion Hloop; subst. rewrite Z.sub_0_r.
      rewrite failed_attempts_posts. auto.
  - exists false, c, [], []. simpl. rewrite app_nil_r. auto 10.
Qed.

(** C1 (as amended). A sample that the read loop produces is appended,
    on arrival, to the in-memory batch only. A turn of the loop that does
    not flush leaves the durable store as it was and attempts no send. A
    turn that flushes empties the batch and hands it to [send_batch]; the
    durable store is written, if at all, only after every send attempt of
    that flush, and then only because each of the [retry_max_attempts]
    attempts raised, in which case the whole batch, the new sample
    included, is stored. *)
Theorem read_turn_stores_only_after_failed_sends
    (c : EdgeConnector) (readings : list SensorReading) (now interval : Q)
    (net : Network) (clock : Z) :
  let arrived := batch c ++ readings in
  let c' := fst (read_turn c readings now interval net clock) in
  let effects := snd (read_turn c readings now interval net clock) in
  (batch c' = arrived /\ buffer c' = buffer c /\ effects = [Sleep interval])
  \/
  (batch c' = [] /\
   exists (sends : list Effect) (stored : list SensorReading),
     effects = sends ++ map Insert stored ++ [Sleep interval] /\
     forallb (fun x => negb (is_insert x)) sends = true /\
     rows (buffer c')
       = rows (buffer c) ++ fresh_rows (next_id (buffer c)) stored clock /\
     (stored = [] \/
      stored = arrived /\
      List.length (filter is_post sends) = Z.to_nat (retry_max_attempts c) /\
      forall k, 0 <= k < retry_max_attempts c -> raises (net k) = true)).
Proof.
  intros arrived c' effects. subst c' effects. unfold read_turn.
  cbn [batch set_batch batch_size flush_interval last_flush].
  fold arrived.
  destruct ((batch_size c <=? Z.of_nat (List.length arrived))
            || Qle_bool (flush_interval c) (now - last_flush c)).
  - right. unfold flush_batch. cbn [batch set_batch].
    destruct arrived as [|r0 rest] eqn:Harr.
    + simpl. split; [reflexivity|]. exists [], []. simpl.
      rewrite app_nil_r. auto.
    + rewrite <- Harr.
      destruct (send_batch_sound
                  (set_batch (set_batch c arrived) []) arrived net clock)
        as (ok & c1 & sends & stored & Hsend & Hins & Hb & _ & Hrows & Hst).
      rewrite Hsend. simpl. split; [exact Hb|].
      exists sends, stored. rewrite <- app_assoc.
      repeat split; auto.
      destruct Hst as [Hst|(Hst & _ & Hp & Hr)]; [left; exact Hst|].
      right. auto.
  - left. simpl. auto.
Qed.

(** The claim as first stated fails: a turn in which a sample arrives and
    is sent at once, the send succeeding, never writes it to the store. *)
Lemma read_turn_sends_unstored_sample :
  let c := demo_connector (Some "stream-1"%string) in
  let r := demo_reading 50 in
  let c' := fst (read_turn c [r] 1%Q (1 # 10)%Q (fun _ => Status 200) 0) in
  let effects := snd (read_turn c [r] 1%Q (1 # 10)%Q (fun _ => Status 200) 0) in
  effects = [Post "stream-1" [r]; Sleep (1 # 10)%Q] /\
  rows (buffer c') = [] /\
  ~ In r (map reading (rows (buffer c'))).
Proof.
  vm_compute. repeat split. intros [].
Qed.

(** **** The scenario of the specification *)

(** A transport that fails three times and then succeeds, with five
    attempts allowed: the batch is delivered at the fourth attempt, after
    pauses of 2, 4 and 8 seconds, and nothing is written to the store. *)
Example scenario_three_failures_then_success :
  let c := demo_connector (Some "stream-1"%string) in
  let readings := [demo_reading 50] in
  let net := fun k => if k <? 3 then TimeoutError else Status 200 in
  let '(ok, c', effects) := send_batch c readings net 0 in
  ok = true /\ rows (buffer c') = [] /\
  effects = [ Post "stream-1" readings; Sleep 2;
              Post "stream-1" readings; Sleep 4;
              Post "stream-1" readings; Sleep 8;
              Post "stream-1" readings ].
Proof. vm_compute. repeat split. Qed.

End EdgeFacts.

(** *** The correlation-family comparison *)

Section AnalysisFacts.

Import NumPy Analysis.
Local Open Scope R_scope.

Lemma length_linspace01 (n : nat) : List.length (linspace01 n) = n.
Proof.
  destruct n as [|[|n]]; try reflexivity.
  unfold linspace01. rewrite length_map, length_seq. reflexivity.
Qed.

Lemma np_interp_defined (x xp fp : list R) :
  xp <> [] -> List.length xp = List.length fp ->
  np_interp x xp fp = Ok (map (interp_at xp fp) x).
Proof.
  intros Hne Hlen. unfold np_interp.
  destruct xp as [|x0 xp']; [contradiction|].
  rewrite Hlen, Nat.eqb_refl. reflexivity.
Qed.

Lemma _resample_series_defined (series : list R) (target_length : nat) :
  series <> [] ->
  _resample_series series target_length
  = Ok (map (interp_at (linspace01 (List.length series)) series)
          (linspace01 target_length)).
Proof.
  intros Hne. unfold _resample_series. apply np_interp_defined.
  - intros E. apply (f_equal (@List.length R)) in E.
    rewrite length_linspace01 in E. destruct series; [contradiction|discriminate].
  - apply length_linspace01.
Qed.

(** **** What the resampling keeps *)

Lemma interp_from_beyond (x : R) (xp : list R) :
  forall (fp : list R) (x0 f0 : R),
    (forall k, In k xp -> k <= x) ->
    List.length xp = List.length fp ->
    interp_from x x0 f0 xp fp = last (f0 :: fp) 0.
Proof.
  induction xp as [|x1 xp IH]; intros fp x0 f0 Hle Hlen;
    destruct fp as [|f1 fp]; try discriminate; [reflexivity|].
  cbn [interp_from].
  destruct (Rlt_dec x x1) as [Hlt|_].
  - specialize (Hle x1 (or_introl eq_refl)). lra.
  - rewrite IH; [reflexivity| |simpl in Hlen; congruence].
    intros k Hk. apply Hle. right. exact Hk.
Qed.

(** At or beyond the last knot, the interpolant takes the last ordinate. *)
Lemma interp_at_beyond (x : R) (xp fp : list R) :
  xp <> [] -> (forall k, In k xp -> k <= x) ->
  List.length xp = List.length fp ->
  interp_at xp fp x = last fp 0.
Proof.
  intros Hne Hle Hlen.
  destruct xp as [|x0 xp]; [contradiction|].
  destruct fp as [|f0 fp]; [discriminate|].
  cbn [interp_at].
  destruct (Rlt_dec x x0) as [Hlt|_].
  - specialize (Hle x0 (or_introl eq_refl)). lra.
  - apply interp_from_beyond; [|simpl in Hlen; congruence].
    intros k Hk. apply Hle. right. exact Hk.
Qed.

(** At the first knot, with the second one further on, it takes the
    first ordinate. *)
Lemma interp_at_first (x0 f0 : R) (xp fp : list R) :
  match xp with [] => True | x1 :: _ => x0 < x1 end ->
  interp_at (x0 :: xp) (f0 :: fp) x0 = f0.
Proof.
  intros H. cbn [interp_at].
  destruct (Rlt_dec x0 x0) as [Hlt|_]; [lra|].
  destruct xp as [|x1 xp]; [reflexivity|].
  destruct fp as [|f1 fp]; [reflexivity|].
  cbn [interp_from].
  destruct (Rlt_dec x0 x1) as [_|Hn]; [|contradiction].
  unfold Rdiv. ring.
Qed.

Lemma ratio_le_1 (a b : R) : 0 < b -> a <= b -> a / b <= 1.
Proof.
  intros Hb Hab. unfold Rdiv.
  assert (0 < / b) by (apply Rinv_0_lt_compat; exact Hb).
  assert (b * / b = 1) by (field; lra).
  nra.
Qed.

Lemma linspace01_SS (n : nat) :
  linspace01 (S (S n))
  = 0 :: map (fun i => INR i / INR (S n)) (seq 1 (S n)).
Proof.
  unfold linspace01. cbn [seq map]. f_equal.
  unfold Rdiv. apply Rmult_0_l.
Qed.

Lemma linspace01_le_1 (n : nat) (k : R) : In k (linspace01 n) -> k <= 1.
Proof.
  destruct n as [|[|n]].
  - intros [].
  - intros [<-|[]]. lra.
  - rewrite linspace01_SS. intros [<-|Hin]; [lra|].
    apply in_map_iff in Hin. destruct Hin as (i & <- & Hi).
    apply in_seq in Hi. apply ratio_le_1.
    + apply lt_0_INR. lia.
    + apply le_INR. lia.
Qed.

Lemma linspace01_last (n : nat) : last (linspace01 (S (S n))) 0 = 1.
Proof.
  unfold linspace01. rewrite seq_S, map_app. cbn [map]. rewrite last_last.
  replace (S (S n) - 1)%nat with (0 + S n)%nat by lia.
  apply Rinv_r. apply not_0_INR. discriminate.
Qed.

(** A series resampled to two samples or more keeps its first and its
    last sample: the normalized index runs from end to end. *)
Lemma _resample_series_keeps_ends (series : list R) (target_length : nat) :
  series <> [] -> (2 <= target_length)%nat ->
  exists resampled : list R,
    _resample_series series target_length = Ok resampled /\
    List.length resampled = target_length /\
    hd 0 resampled = hd 0 series /\
    last resampled 0 = last series 0.
Proof.
  intros Hne Ht.
  rewrite (_resample_series_defined _ _ Hne).
  eexists. split; [reflexivity|].
  split; [rewrite length_map; apply length_linspace01|].
  destruct target_length as [|[|m]]; try lia.
  set (xp := linspace01 (List.length series)).
  assert (Hxp : xp <> []).
  { intros E. apply (f_equal (@List.length R)) in E. unfold xp in E.
    rewrite length_linspace01 in E.
    destruct series; [contradiction|discriminate]. }
  assert (Hlen : List.length xp = List.length series)
    by apply length_linspace01.
  split.
  - rewrite linspace01_SS. cbn [map hd].
    destruct series as [|f0 fp]; [contradiction|].
    unfold xp. destruct fp as [|f1 fp].
    + apply (interp_at_first 0 f0 [] []). exact I.
    + cbn [List.length]. rewrite linspace01_SS. cbn [hd].
      apply interp_at_first. cbn [seq map].
      apply Rdiv_lt_0_compat; [simpl; lra|].
      apply lt_0_INR. lia.
  - assert (Hsplit : linspace01 (S (S m))
                     = removelast (linspace01 (S (S m))) ++ [1]).
    { assert (Hm : linspace01 (S (S m)) <> []).
      { intros E. apply (f_equal (@List.length R)) in E.
        rewrite length_linspace01 in E. discriminate. }
      pose proof (app_removelast_last 0 Hm) as H.
      rewrite linspace01_last in H. exact H. }
    rewrite Hsplit, map_app. cbn [map]. rewrite last_last.
    apply interp_at_beyond; [exact Hxp| |exact Hlen].
    intros k Hk. apply (linspace01_le_1 _ _ Hk).
Qed.

(** The alignment when the lengths differ: the cycle's series goes
    through [_resample_series], the reference series stays. *)
Lemma aligned_values_resampled (sensor_data ref_data : list R) :
  List.length sensor_data <> List.length ref_data ->
  sensor_data <> [] ->
  aligned_values sensor_data ref_data
  = Ok (map (interp_at (linspace01 (List.length sensor_data)) sensor_data)
          (linspace01 (List.length ref_data)),
        ref_data).
Proof.
  intros Hlen Hne. unfold aligned_values.
  apply Nat.eqb_neq in Hlen. rewrite Hlen. simpl negb. cbv iota.
  rewrite (_resample_series_defined _ _ Hne). reflexivity.
Qed.

(** C5 (as amended). In the correlation-family comparison, for every pair
    of series of unequal length (the cycle's series not empty), it is the
    cycle's series, be it the shorter or the longer of the two, that is
    resampled, to the length of the reference series and by linear
    interpolation over a normalized [0,1] index; the reference series is
    passed on as it is, so the detectors receive two arrays of the
    reference's length. *)
Theorem aligned_values_have_reference_length (sensor_data ref_data : list R) :
  List.length sensor_data <> List.length ref_data ->
  sensor_data <> [] ->
  exists sensor_values : list R,
    aligned_values sensor_data ref_data = Ok (sensor_values, ref_data) /\
    sensor_values
    = map (interp_at (linspace01 (List.length sensor_data)) sensor_data)
        (linspace01 (List.length ref_data)) /\
    List.length sensor_values = List.length ref_data.
Proof.
  intros Hlen Hne.
  eexists. split; [apply aligned_values_resampled; assumption|].
  split; [reflexivity|].
  rewrite length_map, length_linspace01. reflexivity.
Qed.

Lemma aligned_values_have_reference_length_witness :
  exists sensor_values : list R,
    aligned_values [1; 2] [5; 6; 7] = Ok (sensor_values, [5; 6; 7]) /\
    List.length sensor_values = 3%nat.
Proof.
  destruct (aligned_values_have_reference_length [1; 2] [5; 6; 7])
    as (sv & Ha & _ & Hl).
  - simpl. discriminate.
  - discriminate.
  - exists sv. split; [exact Ha|exact Hl].
Defined.

(** The claim as first stated fails: a cycle series of three samples set
    against a reference of two is cut down to two samples; the detectors
    do not receive arrays of the longer length, three. *)
Lemma aligned_values_shrink_longer_series :
  exists sensor_values ref_values : list R,
    aligned_values [1; 2; 3] [5; 6] = Ok (sensor_values, ref_values) /\
    List.length sensor_values = 2%nat /\
    List.length ref_values = 2%nat /\
    Nat.max (List.length [1; 2; 3]) (List.length [5; 6]) = 3%nat.
Proof.
  eexists. exists [5; 6].
  split; [apply aligned_values_resampled; simpl; discriminate|].
  repeat split.
Qed.

(** C9. For every cycle that ended abnormally, with [end_time] not before
    [start_time] and [duration] their difference, [analyze_root_cause]
    (given a reference cycle) answers with a window that ends at the stop
    time and does not start before the cycle does, whether the caller
    gives [time_window_seconds] or leaves the default of a tenth of the
    duration. *)
Theorem root_cause_window_within_cycle
    (cycle ref_cycle : Cycle) (time_window_seconds : option R) :
  is_complete cycle = false ->
  start_time cycle <= end_time cycle ->
  duration cycle = end_time cycle - start_time cycle ->
  exists window_start : R,
    analyze_root_cause (Some cycle) time_window_seconds (Some ref_cycle)
    = Some (window_start, end_time cycle) /\
    start_time cycle <= window_start.
Proof.
  intros Hc Hle Hd. unfold analyze_root_cause. rewrite Hc.
  eexists. split; [reflexivity|].
  unfold window_start. rewrite Hd.
  destruct time_window_seconds as [w|];
    [destruct (Req_dec_T w 0)|]; try apply Rmax_l; lra.
Qed.

Lemma root_cause_window_within_cycle_witness :
  exists window_start : R,
    analyze_root_cause (Some (mkCycle 10 30 20 false)) None
      (Some (mkCycle 0 5 5 true))
    = Some (window_start, 30) /\
    10 <= window_start.
Proof.
  apply (root_cause_window_within_cycle (mkCycle 10 30 20 false)
           (mkCycle 0 5 5 true) None); simpl; [reflexivity|lra|lra].
Defined.

(** **** Similarity of a constant series *)

Lemma np_sum_repeat (c : R) (n : nat) : np_sum (repeat c n) = INR n * c.
Proof.
  induction n as [|n IH]; [simpl; ring|].
  rewrite S_INR. simpl repeat. simpl np_sum. rewrite IH. ring.
Qed.

Lemma np_mean_cons (x : R) (l : list R) :
  np_mean (x :: l) = Num (np_sum (x :: l) / INR (List.length (x :: l))).
Proof. reflexivity. Qed.

Lemma np_mean_repeat (c : R) (n : nat) : np_mean (repeat c (S n)) = Num c.
Proof.
  change (repeat c (S n)) with (c :: repeat c n). rewrite np_mean_cons.
  change (c :: repeat c n) with (repeat c (S n)).
  rewrite np_sum_repeat, repeat_length. f_equal.
  field. apply not_0_INR. discriminate.
Qed.

Lemma np_std_repeat (c : R) (n : nat) : np_std (repeat c (S n)) = Num 0.
Proof.
  unfold np_std. rewrite np_mean_repeat, map_repeat.
  replace ((c - c) * (c - c)) with 0 by ring.
  rewrite np_mean_repeat. simpl. rewrite sqrt_0. reflexivity.
Qed.

(** A constant series is z-normalized to zeros: its deviations from the
    mean vanish, and it is the guard [1e-10] that they are divided by. *)
Lemma z_normalize_repeat (c : R) (n : nat) :
  z_normalize (repeat c (S n)) = repeat 0 (S n).
Proof.
  unfold z_normalize. rewrite np_mean_repeat, np_std_repeat, map_repeat.
  f_equal. unfold Rdiv. ring.
Qed.

Lemma length_z_normalize (series : list R) :
  List.length (z_normalize series) = List.length series.
Proof.
  destruct series as [|x l]; [reflexivity|].
  unfold z_normalize, np_std. simpl. rewrite length_map. reflexivity.
Qed.

Lemma combine_repeat (c d : R) (n : nat) :
  combine (repeat c n) (repeat d n) = repeat (c, d) n.
Proof. induction n as [|n IH]; simpl; [|rewrite IH]; reflexivity. Qed.

Lemma cross_deviation_zeros (n : nat) (m : R) :
  m = 0 -> cross_deviation (repeat 0 n) (repeat 0 n) m m = 0.
Proof.
  intros ->. unfold cross_deviation.
  rewrite combine_repeat, map_repeat. simpl fst. simpl snd.
  rewrite np_sum_repeat. ring.
Qed.

(** The correlation coefficient of a series of zeros with any series of
    its length is not a number. *)
Lemma np_corrcoef_zeros (n : nat) (y : list R) :
  List.length y = S n -> np_corrcoef (repeat 0 (S n)) y = Ok NaN.
Proof.
  intros Hlen. unfold np_corrcoef.
  rewrite repeat_length, Hlen, Nat.eqb_refl. simpl negb. cbv iota.
  destruct n as [|n]; [reflexivity|].
  change (repeat 0 (S (S n))) with (0 :: 0 :: repeat 0 n) at 1.
  cbv iota. cbv zeta.
  assert (Hm : np_sum (repeat 0 (S (S n))) / INR (S (S n)) = 0)
    by (rewrite np_sum_repeat; unfold Rdiv; ring).
  rewrite (cross_deviation_zeros _ _ Hm).
  replace (0 / (INR (S (S n)) - 1)) with 0 by (unfold Rdiv; ring).
  rewrite sqrt_0.
  destruct (Req_dec_T 0 0) as [_|Hne]; [reflexivity|].
  contradiction Hne. reflexivity.
Qed.

(** Whenever the first series is constant, [_calculate_similarity]
    returns a value that is not a number. *)
Lemma _calculate_similarity_constant (c : R) (n : nat) (series2 : list R) :
  List.length series2 = S n ->
  _calculate_similarity (repeat c (S n)) series2 = Ok NaN.
Proof.
  intros Hlen. unfold _calculate_similarity.
  rewrite z_normalize_repeat.
  rewrite np_corrcoef_zeros by (rewrite length_z_normalize; exact Hlen).
  reflexivity.
Qed.

(** C6, where the code departs from it. For the two equal-length series
    [1, 1] and [1, 1], [_calculate_similarity] returns a value that is
    not a number, hence not a value of the interval [0,1]: the guard
    [1e-10] keeps the z-normalization from dividing by the zero standard
    deviation, but the correlation coefficient of the two resulting zero
    series divides zero by zero, and clipping leaves the result as it
    is. *)
Theorem similarity_of_flat_series_is_nan :
  _calculate_similarity [1; 1] [1; 1] = Ok NaN /\
  ~ (exists v : R, _calculate_similarity [1; 1] [1; 1] = Ok (Num v) /\
                   0 <= v <= 1).
Proof.
  assert (H : _calculate_similarity [1; 1] [1; 1] = Ok NaN)
    by (apply (_calculate_similarity_constant 1 1 [1; 1]); reflexivity).
  split; [exact H|].
  intros (v & Hv & _). rewrite H in Hv. discriminate Hv.
Qed.

(** **** The other detectors, and what the correlation coefficient
    leaves out *)

Lemma eps_pos : 0 < eps.
Proof. unfold eps. apply Rinv_0_lt_compat. lra. Qed.

Lemma guarded_ratio_nonneg (u v : R) : 0 <= Rabs u / (Rabs v + eps).
Proof.
  unfold Rdiv. apply Rmult_le_pos; [apply Rabs_pos|].
  left. apply Rinv_0_lt_compat.
  pose proof (Rabs_pos v). pose proof eps_pos. lra.
Qed.

Lemma py_min_one_range (q : R) :
  0 <= q -> exists v : R, py_min (Num q) (Num 1) = Num v /\ 0 <= v <= 1.
Proof.
  intros Hq. unfold py_min, py_lt.
  destruct (Rlt_dec 1 q); eexists; (split; [reflexivity|lra]).
Qed.

Lemma np_std_cons (x : R) (l : list R) :
  exists sd : R, np_std (x :: l) = Num sd.
Proof. unfold np_std. rewrite np_mean_cons. simpl. eexists. reflexivity. Qed.

(** Whenever the similarity is a number, it is one of [0,1]. *)
Lemma _calculate_similarity_range (series1 series2 : list R) (v : R) :
  _calculate_similarity series1 series2 = Ok (Num v) -> 0 <= v <= 1.
Proof.
  unfold _calculate_similarity.
  destruct (np_corrcoef _ _) as [[c|]|]; simpl; intros H; inversion H.
  unfold Rmin, Rmax.
  destruct (Rle_dec ((c + 1) / 2) 0); destruct (Rle_dec _ 1); lra.
Qed.

(** The amplitude deviation of two series that are not empty lies in
    [0,1]. *)
Lemma _detect_amplitude_deviation_range (series1 series2 : list R) :
  series1 <> [] -> series2 <> [] ->
  exists v : R,
    _detect_amplitude_deviation series1 series2 = Num v /\ 0 <= v <= 1.
Proof.
  intros H1 H2.
  destruct series1 as [|a l1]; [contradiction|].
  destruct series2 as [|b l2]; [contradiction|].
  unfold _detect_amplitude_deviation.
  destruct (np_std_cons a l1) as (sd1 & ->).
  destruct (np_std_cons b l2) as (sd2 & ->).
  rewrite !np_mean_cons. cbn [lift2].
  apply py_min_one_range.
  pose proof (guarded_ratio_nonneg
                (np_sum (a :: l1) / INR (List.length (a :: l1))
                 - np_sum (b :: l2) / INR (List.length (b :: l2)))
                (np_sum (b :: l2) / INR (List.length (b :: l2)))).
  pose proof (guarded_ratio_nonneg (sd1 - sd2) sd2).
  lra.
Qed.

Lemma np_corrcoef_range (x y : list R) :
  List.length x = List.length y ->
  np_corrcoef x y = Ok NaN \/
  exists c : R, np_corrcoef x y = Ok (Num c) /\ -1 <= c <= 1.
Proof.
  intros Hlen. unfold np_corrcoef. rewrite Hlen, Nat.eqb_refl. simpl negb.
  cbv iota.
  destruct x as [|x0 [|x1 l]]; auto.
  cbv zeta.
  destruct (Req_dec_T _ 0); auto.
  destruct (Req_dec_T _ 0); auto.
  right. eexists. split; [reflexivity|].
  unfold Rmin, Rmax.
  destruct (Rle_dec _ (-1)); destruct (Rle_dec _ 1); lra.
Qed.

(** The shape deviation of two series of one length lies in [0,1]: where
    the correlation is not a number, [max(0, nan)] is zero. *)
Lemma _detect_shape_deviation_range (series1 series2 : list R) :
  List.length series1 = List.length series2 ->
  exists v : R,
    _detect_shape_deviation series1 series2 = Ok (Num v) /\ 0 <= v <= 1.
Proof.
  intros Hlen. unfold _detect_shape_deviation.
  destruct (np_corrcoef_range series1 series2 Hlen) as [->|(c & -> & Hc)];
    simpl.
  - exists 0. split; [reflexivity|lra].
  - unfold py_max, py_lt.
    assert (Rabs c <= 1) by (apply Rabs_le; lra).
    pose proof (Rabs_pos c).
    destruct (Rlt_dec 0 (1 - Rabs c)); eexists; (split; [reflexivity|lra]).
Qed.

Lemma length_correlate_same (x y : list R) :
  List.length x = List.length y ->
  List.length (correlate_same x y) = List.length x.
Proof.
  intros Hlen. unfold correlate_same, correlate_full.
  rewrite length_firstn, length_skipn, length_map, length_seq, <- Hlen.
  assert (((List.length x - 1) / 2 <= List.length x - 1)%nat)
    by (apply Nat.Div0.div_le_upper_bound; lia).
  lia.
Qed.

(** The timing deviation of two series of one length, not empty, lies
    in [0,1]. *)
Lemma _detect_timing_deviation_range (series1 series2 : list R) :
  series1 <> [] -> List.length series1 = List.length series2 ->
  exists v : R,
    _detect_timing_deviation series1 series2 = Ok (Num v) /\ 0 <= v <= 1.
Proof.
  intros Hne Hlen. unfold _detect_timing_deviation.
  pose proof (length_correlate_same series1 series2 Hlen) as Hc.
  destruct (correlate_same series1 series2) as [|c0 cs].
  - destruct series1; [contradiction|discriminate].
  - simpl bind.
    match goal with
    | |- exists v, Ok (py_min (Num ?q) _) = _ /\ _ =>
        destruct (py_min_one_range q) as (v & Hv & Hr)
    end.
    + unfold Rdiv. apply Rmult_le_pos.
      * apply IZR_le. apply Z.abs_nonneg.
      * left. apply Rinv_0_lt_compat.
        assert (0 < INR (List.length series1))
          by (apply lt_0_INR; destruct series1; [contradiction|simpl; lia]).
        lra.
    + exists v. rewrite Hv. auto.
Qed.

Lemma cross_deviation_self_nonneg (x : list R) (m : R) :
  0 <= cross_deviation x x m m.
Proof.
  unfold cross_deviation. induction x as [|a x IH]; simpl; [lra|].
  pose proof (Rle_0_sqr (a - m)) as Hs. unfold Rsqr in Hs. lra.
Qed.

(** A series with no variance has no covariance with any series: the
    quotient that [np.corrcoef] forms is then zero by zero, never a
    non-zero number by zero. *)
Lemma cross_deviation_vanishes (x : list R) (mx : R) :
  cross_deviation x x mx mx = 0 ->
  forall (y : list R) (my : R), cross_deviation x y mx my = 0.
Proof.
  unfold cross_deviation. induction x as [|a x IH]; intros H y my.
  - reflexivity.
  - destruct y as [|b y]; [reflexivity|]. simpl in *.
    pose proof (Rle_0_sqr (a - mx)) as Hs. unfold Rsqr in Hs.
    pose proof (cross_deviation_self_nonneg x mx) as Hr.
    unfold cross_deviation in Hr.
    assert (Ha : a - mx = 0) by nra.
    rewrite Ha, (IH ltac:(nra)). ring.
Qed.

(** **** A series that varies, set against itself *)

(** The correlation coefficient of a series with itself is one, as soon
    as the series has a standard deviation. *)
Lemma np_corrcoef_self (x0 x1 : R) (l : list R) :
  let x := x0 :: x1 :: l in
  let n := INR (List.length x) in
  sqrt (cross_deviation x x (np_sum x / n) (np_sum x / n) / (n - 1)) <> 0 ->
  np_corrcoef x x = Ok (Num 1).
Proof.
  intros x n Hsd. unfold np_corrcoef. rewrite Nat.eqb_refl. simpl negb.
  cbv iota. unfold x at 1. cbv iota. cbv zeta. fold x. fold n.
  set (c := cross_deviation x x (np_sum x / n) (np_sum x / n) / (n - 1)) in *.
  destruct (Req_dec_T (sqrt c) 0) as [E|_]; [contradiction|].
  destruct (Req_dec_T (sqrt c) 0) as [E|_]; [contradiction|].
  assert (Hn : 1 < n).
  { unfold n, x. cbn [List.length]. rewrite !S_INR.
    pose proof (pos_INR (List.length l)). lra. }
  assert (Hc : 0 <= c).
  { unfold c, Rdiv. apply Rmult_le_pos; [apply cross_deviation_self_nonneg|].
    left. apply Rinv_0_lt_compat. lra. }
  assert (Hone : c / sqrt c / sqrt c = 1).
  { rewrite <- (sqrt_sqrt c Hc) at 1. field. exact Hsd. }
  rewrite Hone. do 2 f_equal.
  unfold Rmin, Rmax.
  destruct (Rle_dec 1 (-1)); [lra|]. destruct (Rle_dec 1 1); lra.
Qed.

(** The series [0, 1] is as similar to itself as can be. *)
Example similarity_of_a_ramp_with_itself :
  _calculate_similarity [0; 1] [0; 1] = Ok (Num 1).
Proof.
  unfold _calculate_similarity.
  destruct (np_std_cons 0 [1]) as (sd & Hsd).
  assert (Hsd0 : 0 <= sd).
  { unfold np_std in Hsd. rewrite np_mean_cons in Hsd. cbn [map] in Hsd.
    rewrite np_mean_cons in Hsd. cbn [lift1] in Hsd.
    inversion Hsd. apply sqrt_pos. }
  unfold z_normalize. rewrite Hsd, np_mean_cons. cbn [map].
  set (t := / (sd + eps)).
  assert (Ht : 0 < t)
    by (apply Rinv_0_lt_compat; pose proof eps_pos; lra).
  assert (Hm : np_sum [0; 1] / INR (List.length [0; 1]) = 1 / 2)
    by (simpl; field).
  rewrite Hm.
  assert (Hden : sd + eps <> 0) by (pose proof eps_pos; lra).
  replace ((0 - 1 / 2) / (sd + eps)) with (- t / 2)
    by (unfold t; field; exact Hden).
  replace ((1 - 1 / 2) / (sd + eps)) with (t / 2)
    by (unfold t; field; exact Hden).
  rewrite np_corrcoef_self.
  - cbn [bind lift1 np_clip]. do 2 f_equal.
    replace ((1 + 1) / 2) with 1 by field.
    unfold Rmin, Rmax.
    destruct (Rle_dec 1 0); [lra|]. destruct (Rle_dec 1 1); lra.
  - cbv zeta. unfold cross_deviation. simpl.
    intros E. apply sqrt_eq_0 in E.
    + assert (Hpos : 0 < t * t) by nra.
      field_simplify in E. nra.
    + field_simplify. nra.
Qed.

End AnalysisFacts.

(** *** The distance-family comparison *)

Section DeviationFacts.

Import NumPy Deviation.
Local Open Scope R_scope.

Lemma xfin_xnonneg (x : xreal) : xfin x -> xnonneg x.
Proof. destruct x; simpl; tauto. Qed.

Lemma x_min_nonneg (a b : xreal) : xnonneg a -> xnonneg b -> xnonneg (x_min a b).
Proof. unfold x_min. destruct (x_lt b a); auto. Qed.

Lemma x_min_fin (a b : xreal) :
  xnonneg a -> xnonneg b -> xfin a \/ xfin b -> xfin (x_min a b).
Proof.
  unfold x_min, x_lt. intros Ha Hb [H|H];
    destruct a as [x| |], b as [y| |];
    simpl in *; try destruct (Rlt_dec y x); simpl; auto; tauto.
Qed.

Lemma x_min_zero_r (a : xreal) : xnonneg a -> x_min a (Fin 0) = Fin 0.
Proof.
  unfold x_min, x_lt. destruct a as [x| |]; simpl;
    [|reflexivity|intros []].
  intros Hx. destruct (Rlt_dec 0 x); [reflexivity|].
  f_equal. lra.
Qed.

Lemma x_min3_nonneg (a b c : xreal) :
  xnonneg a -> xnonneg b -> xnonneg c -> xnonneg (x_min3 a b c).
Proof. intros. unfold x_min3. auto using x_min_nonneg. Qed.

Lemma x_min3_fin (a b c : xreal) :
  xnonneg a -> xnonneg b -> xnonneg c ->
  xfin a \/ xfin b \/ xfin c -> xfin (x_min3 a b c).
Proof.
  intros Ha Hb Hc H. unfold x_min3.
  apply x_min_fin; auto using x_min_nonneg.
  destruct H as [H|[H|H]]; auto using x_min_fin.
Qed.

Lemma x_min3_zero (a b : xreal) :
  xnonneg a -> xnonneg b -> x_min3 a b (Fin 0) = Fin 0.
Proof. intros. unfold x_min3. auto using x_min_zero_r, x_min_nonneg. Qed.

Lemma xadd_nonneg (c : R) (x : xreal) : 0 <= c -> xnonneg x -> xnonneg (xadd c x).
Proof. destruct x; simpl; intros; [lra|trivial|tauto]. Qed.

Lemma xadd_fin (c : R) (x : xreal) : 0 <= c -> xfin x -> xfin (xadd c x).
Proof. destruct x; simpl; intros; [lra|trivial|tauto]. Qed.

(** The cell that the inner loop computes from two numbers. *)
Lemma fill_row_cons (a b : R) (bs : list pyfloat) (u : xreal)
    (up : list xreal) (diag left : xreal) :
  fill_row (Num a) (Num b :: bs) (u :: up) diag left
  = xadd (Rabs (a - b)) (x_min3 u left diag)
      :: fill_row (Num a) bs up u
           (xadd (Rabs (a - b)) (x_min3 u left diag)).
Proof. reflexivity. Qed.

Lemma fill_row_nonneg (a : R) (bs : list R) :
  forall (up : list xreal) (diag left : xreal),
    Forall xnonneg up -> xnonneg diag -> xnonneg left ->
    Forall xnonneg (fill_row (Num a) (map Num bs) up diag left).
Proof.
  induction bs as [|b bs IH]; intros up diag left Hup Hd Hl; cbn [map].
  - constructor.
  - destruct up as [|u up']; [constructor|].
    rewrite fill_row_cons.
    inversion Hup; subst.
    assert (Hc : xnonneg (xadd (Rabs (a - b)) (x_min3 u left diag)))
      by (apply xadd_nonneg; [apply Rabs_pos|apply x_min3_nonneg; auto]).
    constructor; [exact Hc|]. apply IH; auto.
Qed.

Lemma fill_row_fin (a : R) (bs : list R) :
  forall (up : list xreal) (diag left : xreal),
    Forall xnonneg up -> xnonneg diag -> xfin left ->
    Forall xfin (fill_row (Num a) (map Num bs) up diag left).
Proof.
  induction bs as [|b bs IH]; intros up diag left Hup Hd Hl; cbn [map].
  - constructor.
  - destruct up as [|u up']; [constructor|].
    rewrite fill_row_cons.
    inversion Hup; subst.
    assert (Hc : xfin (xadd (Rabs (a - b)) (x_min3 u left diag))).
    { apply xadd_fin; [apply Rabs_pos|].
      apply x_min3_fin; auto using xfin_xnonneg. }
    constructor; [exact Hc|]. apply IH; auto.
Qed.

Lemma length_fill_row (a : pyfloat) (bs : list pyfloat) :
  forall (up : list xreal) (diag left : xreal),
    List.length up = List.length bs ->
    List.length (fill_row a bs up diag left) = List.length bs.
Proof.
  induction bs as [|b bs IH]; intros up diag left Hlen; simpl; [reflexivity|].
  destruct up as [|u up']; [discriminate|].
  simpl. f_equal. apply IH. simpl in Hlen. congruence.
Qed.

(** The cell on the diagonal: where the two samples agree and the cell
    up and to the left holds zero, the new cell holds zero. *)
Lemma fill_row_zero (a : R) (k : nat) :
  forall (bs : list R) (up : list xreal) (diag left : xreal),
    Forall xnonneg up -> xnonneg diag -> xnonneg left ->
    List.length up = List.length bs ->
    nth_error bs k = Some a ->
    nth_error (diag :: up) k = Some (Fin 0) ->
    nth_error (fill_row (Num a) (map Num bs) up diag left) k = Some (Fin 0).
Proof.
  induction k as [|k IH]; intros bs up diag left Hup Hd Hl Hlen Hb Hz;
    destruct bs as [|b bs]; try discriminate;
    destruct up as [|u up']; try discriminate;
    inversion Hup; subst; cbn [map]; rewrite fill_row_cons;
    cbn [nth_error] in *.
  - inversion Hb; subst. inversion Hz; subst.
    rewrite x_min3_zero by auto. simpl.
    replace (a - a) with 0 by ring. rewrite Rabs_R0.
    do 2 f_equal. ring.
  - apply IH; auto; try (simpl in Hlen; congruence).
    apply xadd_nonneg; [apply Rabs_pos|apply x_min3_nonneg; auto].
Qed.

Lemma length_next_row (bs : list pyfloat) (prev : list xreal) (a : pyfloat) :
  List.length prev = S (List.length bs) ->
  List.length (next_row bs prev a) = S (List.length bs).
Proof.
  destruct prev as [|d0 up]; [discriminate|]. simpl. intros H.
  rewrite length_fill_row; congruence.
Qed.

Lemma next_row_nonneg (bs : list R) (prev : list xreal) (a : R) :
  Forall xnonneg prev -> Forall xnonneg (next_row (map Num bs) prev (Num a)).
Proof.
  destruct prev as [|d0 up]; [constructor|]. cbn [next_row]. intros H.
  inversion H; subst. constructor; [exact I|].
  apply fill_row_nonneg; simpl; auto.
Qed.

(** From a row with a finite cell at its head, or finite cells after
    it, the next row has finite cells after its head. *)
Lemma next_row_fin (bs : list R) (prev : list xreal) (a : R) :
  Forall xnonneg prev ->
  xfin (hd Inf prev) \/ Forall xfin (tl prev) ->
  Forall xfin (tl (next_row (map Num bs) prev (Num a))).
Proof.
  destruct prev as [|d0 up]; [constructor|]. cbn [next_row tl hd].
  intros Hn Hf.
  inversion Hn; subst.
  destruct bs as [|b bs]; [constructor|].
  destruct up as [|u up']; [constructor|]. cbn [map].
  rewrite fill_row_cons.
  match goal with H : Forall xnonneg (u :: up') |- _ => inversion H; subst end.
  assert (Hc : xfin (xadd (Rabs (a - b)) (x_min3 u Inf d0))).
  { apply xadd_fin; [apply Rabs_pos|].
    apply x_min3_fin; simpl; auto.
    destruct Hf as [Hf|Hf]; [auto|].
    inversion Hf; subst. auto. }
  constructor; [exact Hc|]. apply fill_row_fin; auto.
Qed.

Lemma first_row_nonneg (m : nat) : Forall xnonneg (first_row m).
Proof.
  unfold first_row. constructor; [simpl; lra|].
  induction m; simpl; constructor; simpl; auto.
Qed.

Lemma length_first_row (m : nat) : List.length (first_row m) = S m.
Proof. unfold first_row. simpl. rewrite repeat_length. reflexivity. Qed.

(** The rows that the outer loop goes through, on arrays of numbers. *)
Lemma dtw_rows_invariant (bs : list R) (completed : list R) :
  forall row : list xreal,
    List.length row = S (List.length bs) -> Forall xnonneg row ->
    xfin (hd Inf row) \/ Forall xfin (tl row) ->
    let final :=
      fold_left (next_row (map Num bs)) (map Num completed) row in
    List.length final = S (List.length bs) /\ Forall xnonneg final /\
    (xfin (hd Inf final) \/ Forall xfin (tl final)) /\
    (completed <> [] -> Forall xfin (tl final)).
Proof.
  induction completed as [|a rest IH]; intros row Hlen Hn Hf;
    cbn [map fold_left].
  - repeat split; auto. intros H. contradiction.
  - assert (Hlen' : List.length (next_row (map Num bs) row (Num a))
                    = S (List.length bs)).
    { rewrite <- (length_map Num bs). apply length_next_row.
      rewrite length_map. exact Hlen. }
    pose proof (next_row_nonneg bs row a Hn) as Hn'.
    pose proof (next_row_fin bs row a Hn Hf) as Hf'.
    destruct (IH (next_row (map Num bs) row (Num a)) Hlen' Hn'
                (or_intror Hf'))
      as (H1 & H2 & H3 & H4).
    repeat split; auto. intros _.
    destruct rest as [|a' rest']; [exact Hf'|].
    apply H4. discriminate.
Qed.

Lemma last_of_finite_tail (row : list xreal) (n : nat) :
  List.length row = S (S n) -> Forall xfin (tl row) -> xfin (last row Inf).
Proof.
  intros Hlen Hf. destruct row as [|d0 cells]; [discriminate|].
  simpl in Hf. simpl in Hlen.
  assert (Hne : cells <> []) by (destruct cells; [discriminate|discriminate]).
  destruct (exists_last Hne) as (front & x & ->).
  rewrite app_comm_cons, last_last.
  apply Forall_app in Hf. destruct Hf as [_ Hx]. inversion Hx; auto.
Qed.

(** On two arrays of numbers of one length, the last cell of the matrix
    is a finite number, and not a negative one. *)
Lemma dtw_core_finite (completed_norm reference_norm : list R) :
  List.length completed_norm = List.length reference_norm ->
  xfin (last (dtw_last_row (map Num completed_norm)
                (map Num reference_norm)) Inf).
Proof.
  intros Hlen. unfold dtw_last_row. rewrite length_map.
  assert (H0 : xfin (hd Inf (first_row (List.length reference_norm))) \/
               Forall xfin (tl (first_row (List.length reference_norm))))
    by (left; simpl; lra).
  destruct (dtw_rows_invariant reference_norm completed_norm
              (first_row (List.length reference_norm))
              (length_first_row _) (first_row_nonneg _) H0)
    as (H1 & H2 & H3 & H4).
  destruct completed_norm as [|a rest].
  - destruct reference_norm; [|discriminate]. simpl. lra.
  - destruct reference_norm as [|b bs]; [discriminate|].
    apply (last_of_finite_tail _ (List.length bs)); [exact H1|].
    apply H4. discriminate.
Qed.

(** A series set against itself: after [i] rows, the cell in column [i]
    holds zero. *)
Lemma dtw_rows_diagonal (post : list R) :
  forall (pre : list R) (row : list xreal),
    List.length row = S (List.length (pre ++ post)) ->
    Forall xnonneg row ->
    nth_error row (List.length pre) = Some (Fin 0) ->
    let final :=
      fold_left (next_row (map Num (pre ++ post))) (map Num post) row in
    List.length final = S (List.length (pre ++ post)) /\
    nth_error final (List.length (pre ++ post)) = Some (Fin 0).
Proof.
  induction post as [|a post IH]; intros pre row Hlen Hn Hz;
    cbn [map fold_left].
  - rewrite app_nil_r in *. auto.
  - replace (pre ++ a :: post) with ((pre ++ [a]) ++ post) in *
      by (rewrite <- app_assoc; reflexivity).
    apply IH.
    + rewrite <- (length_map Num ((pre ++ [a]) ++ post)).
      apply length_next_row. rewrite length_map. exact Hlen.
    + apply next_row_nonneg. exact Hn.
    + rewrite length_app. simpl. rewrite Nat.add_1_r.
      destruct row as [|d0 up]; [discriminate|]. cbn [next_row nth_error].
      inversion Hn; subst.
      apply fill_row_zero; simpl; auto;
        try (simpl in Hlen; congruence).
      rewrite <- app_assoc. simpl.
      rewrite nth_error_app2 by apply Nat.le_refl.
      rewrite Nat.sub_diag. reflexivity.
Qed.

Lemma last_nth_error (row : list xreal) (n : nat) (x : xreal) :
  List.length row = S n -> nth_error row n = Some x -> last row Inf = x.
Proof.
  intros Hlen Hn.
  assert (Hne : row <> []) by (destruct row; discriminate).
  destruct (exists_last Hne) as (front & y & ->).
  rewrite last_last. rewrite length_app in Hlen. simpl in Hlen.
  rewrite nth_error_app2 in Hn by lia.
  replace (n - List.length front)%nat with 0%nat in Hn by lia.
  simpl in Hn. congruence.
Qed.

Lemma dtw_core_self (series : list R) :
  last (dtw_last_row (map Num series) (map Num series)) Inf = Fin 0.
Proof.
  unfold dtw_last_row. rewrite length_map.
  destruct (dtw_rows_diagonal series [] (first_row (List.length series)))
    as (Hlen & Hz).
  - apply length_first_row.
  - apply first_row_nonneg.
  - reflexivity.
  - simpl in *. apply (last_nth_error _ (List.length series)); assumption.
Qed.

(** **** Arrays with a value that is not a number *)

Lemma numbers_of_numbers (l : list R) : numbers_of (map Num l) = Some l.
Proof.
  induction l as [|x l IH]; cbn [map numbers_of]; [reflexivity|].
  rewrite IH. reflexivity.
Qed.

Lemma normalize_signal_of_numbers (l : list R) :
  normalize_signal_of (map Num l) = map Num (normalize_signal l).
Proof. unfold normalize_signal_of. rewrite numbers_of_numbers. reflexivity. Qed.

Lemma normalize_signal_of_nan (n : nat) :
  normalize_signal_of (repeat NaN (S n)) = repeat NaN (S n).
Proof.
  unfold normalize_signal_of. cbn [repeat numbers_of].
  change (NaN :: repeat NaN n) with (repeat NaN (S n)).
  apply map_repeat.
Qed.

Lemma length_normalize_signal_of (values : list pyfloat) :
  List.length (normalize_signal_of values) = List.length values.
Proof.
  unfold normalize_signal_of.
  destruct (numbers_of values) as [numbers|] eqn:E; [|apply length_map].
  rewrite length_map.
  assert (H : List.length numbers = List.length values).
  { revert numbers E.
    induction values as [|[x|] values IH]; intros numbers E;
      cbn [numbers_of] in E; [inversion E; reflexivity| |discriminate].
    destruct (numbers_of values) as [l|]; [|discriminate].
    inversion E; subst. cbn [List.length]. f_equal. apply IH. reflexivity. }
  rewrite <- H. unfold normalize_signal.
  destruct numbers as [|v rest]; [reflexivity|].
  destruct (Req_dec_T _ _); apply length_map.
Qed.

(** A sample that is not a number makes every cell of its row one. *)
Lemma fill_row_of_nan (bs : list pyfloat) :
  forall (up : list xreal) (diag left : xreal),
    List.length up = List.length bs ->
    fill_row NaN bs up diag left = repeat XNaN (List.length bs).
Proof.
  induction bs as [|b bs IH]; intros up diag left Hlen; [reflexivity|].
  destruct up as [|u up']; [discriminate|].
  cbn [fill_row lift2 xadd_cost List.length repeat].
  f_equal. apply IH. simpl in Hlen. congruence.
Qed.

(** So does a reference that has no number. *)
Lemma fill_row_against_nan (a : pyfloat) (m : nat) :
  forall (up : list xreal) (diag left : xreal),
    List.length up = m ->
    fill_row a (repeat NaN m) up diag left = repeat XNaN m.
Proof.
  induction m as [|m IH]; intros up diag left Hlen; [reflexivity|].
  destruct up as [|u up']; [discriminate|].
  cbn [repeat fill_row].
  replace (lift2 (fun a b => Rabs (a - b)) a NaN) with NaN
    by (destruct a; reflexivity).
  cbn [xadd_cost]. f_equal. apply IH. simpl in Hlen. congruence.
Qed.

Lemma last_of_nan_row (m : nat) : last (Inf :: repeat XNaN (S m)) Inf = XNaN.
Proof.
  induction m as [|m IH]; [reflexivity|].
  change (repeat XNaN (S (S m))) with (XNaN :: repeat XNaN (S m)).
  change (last (Inf :: XNaN :: repeat XNaN (S m)) Inf)
    with (last (XNaN :: repeat XNaN (S m)) Inf).
  destruct m; [reflexivity|]. exact IH.
Qed.

(** The last cell is not a number as soon as one of the two arrays,
    neither being empty, has no number in it. *)
Lemma dtw_core_nan_completed (n : nat) (reference_norm : list pyfloat) :
  reference_norm <> [] ->
  last (dtw_last_row (repeat NaN (S n)) reference_norm) Inf = XNaN.
Proof.
  intros Hne. unfold dtw_last_row.
  assert (H : forall k row,
             List.length row = S (List.length reference_norm) ->
             fold_left (next_row reference_norm) (repeat NaN (S k)) row
             = Inf :: repeat XNaN (List.length reference_norm)).
  { induction k as [|k IH]; intros row Hlen;
      (destruct row as [|d0 up]; [discriminate|]).
    - cbn [repeat fold_left next_row]. f_equal.
      apply fill_row_of_nan. simpl in Hlen. congruence.
    - change (repeat NaN (S (S k))) with (NaN :: repeat NaN (S k)).
      cbn [fold_left]. apply IH. apply length_next_row. exact Hlen. }
  rewrite H by apply length_first_row.
  destruct reference_norm as [|b bs]; [contradiction|].
  apply last_of_nan_row.
Qed.

Lemma dtw_core_nan_reference (completed_norm : list pyfloat) (m : nat) :
  completed_norm <> [] ->
  last (dtw_last_row completed_norm (repeat NaN (S m))) Inf = XNaN.
Proof.
  intros Hne. unfold dtw_last_row. rewrite repeat_length.
  assert (H : forall (l : list pyfloat) row,
             l <> [] -> List.length row = S (S m) ->
             fold_left (next_row (repeat NaN (S m))) l row
             = Inf :: repeat XNaN (S m)).
  { induction l as [|a l IH]; intros row Hl Hlen; [contradiction|].
    destruct row as [|d0 up]; [discriminate|].
    cbn [fold_left].
    assert (Hrow : next_row (repeat NaN (S m)) (d0 :: up) a
                   = Inf :: repeat XNaN (S m)).
    { cbn [next_row]. f_equal. apply fill_row_against_nan.
      simpl in Hlen. congruence. }
    rewrite Hrow.
    destruct l as [|a' l']; [reflexivity|].
    apply IH; [discriminate|].
    cbn [List.length]. rewrite repeat_length. reflexivity. }
  rewrite (H completed_norm _ Hne (length_first_row _)).
  apply last_of_nan_row.
Qed.

Lemma length_normalize_signal (values : list R) :
  List.length (normalize_signal values) = List.length values.
Proof.
  unfold normalize_signal. destruct values as [|v rest]; [reflexivity|].
  destruct (Req_dec_T _ _); apply length_map.
Qed.

Lemma euclidean_self (u : list R) : euclidean u u = 0.
Proof.
  unfold euclidean.
  replace (np_sum _) with 0; [apply sqrt_0|].
  induction u as [|x u IH]; simpl; [reflexivity|].
  rewrite <- IH. ring.
Qed.

Lemma euclidean_nonneg (u v : list R) : 0 <= euclidean u v.
Proof. apply sqrt_pos. Qed.

(** [interp1d] over the knots of a series: an error on an empty series,
    values that are not numbers on one sample, numbers from two on. *)
Lemma interp1d_linspace (values : list R) :
  match values with
  | [] => interp1d (linspace01 (List.length values)) values = Raises
  | [_] => interp1d (linspace01 (List.length values)) values
           = Ok (fun _ => NaN)
  | _ => exists g : R -> R,
           interp1d (linspace01 (List.length values)) values
           = Ok (fun t => Num (g t))
  end.
Proof.
  unfold interp1d. rewrite length_linspace01, Nat.eqb_refl. cbn [negb].
  destruct values as [|f0 [|f1 fs]]; [reflexivity|reflexivity|].
  cbn [List.length]. rewrite linspace01_SS. cbn [seq map].
  eexists. reflexivity.
Qed.

(** What the alignment of [dtw_distance] gives. Series of one length are
    left as they are. Series of different lengths, of two samples or
    more each, become two arrays of numbers of the longer length. A
    series of a single sample against a longer one becomes an array
    without a number in it; and an empty series against another is an
    error. *)
Lemma dtw_align_cases (completed_values reference_values : list R) :
  match dtw_align completed_values reference_values with
  | Ok (c, r) =>
      List.length c = List.length r /\
      ((exists cn rn : list R,
          c = map Num cn /\ r = map Num rn /\
          (List.length completed_values = List.length reference_values \/
           (2 <= List.length completed_values)%nat /\
           (2 <= List.length reference_values)%nat)) \/
       (exists m : nat,
          List.length completed_values = 1%nat /\
          List.length reference_values = S (S m) /\
          c = repeat NaN (S (S m))) \/
       (exists n : nat,
          List.length completed_values = S (S n) /\
          List.length reference_values = 1%nat /\
          r = repeat NaN (S (S n))))
  | Raises =>
      List.length completed_values <> List.length reference_values /\
      (completed_values = [] \/ reference_values = [])
  end.
Proof.
  unfold dtw_align.
  destruct (Nat.eqb (List.length completed_values)
              (List.length reference_values)) eqn:E; cbn [negb].
  - apply Nat.eqb_eq in E. rewrite !length_map. split; [exact E|].
    left. exists completed_values, reference_values. auto.
  - apply Nat.eqb_neq in E.
    pose proof (interp1d_linspace completed_values) as Hc.
    pose proof (interp1d_linspace reference_values) as Hr.
    destruct completed_values as [|c0 [|c1 cs]].
    + rewrite Hc. cbn [bind]. auto.
    + rewrite Hc. cbn [bind].
      destruct reference_values as [|r0 [|r1 rs]].
      * rewrite Hr. cbn [bind]. auto.
      * contradiction E. reflexivity.
      * destruct Hr as (g & ->). cbn [bind].
        rewrite !length_map. split; [reflexivity|].
        right. left. exists (List.length rs).
        split; [reflexivity|]. split; [reflexivity|].
        cbn [List.length Nat.max].
        rewrite <- (length_linspace01 (S (S (List.length rs)))) at 2.
        apply map_const.
    + destruct Hc as (g & ->). cbn [bind].
      destruct reference_values as [|r0 [|r1 rs]].
      * rewrite Hr. cbn [bind]. auto.
      * rewrite Hr. cbn [bind].
        rewrite !length_map. split; [reflexivity|].
        right. right. exists (List.length cs).
        split; [reflexivity|]. split; [reflexivity|].
        cbn [List.length Nat.max].
        rewrite <- (length_linspace01 (S (S (List.length cs)))) at 2.
        apply map_const.
      * destruct Hr as (h & ->). cbn [bind].
        rewrite !length_map. split; [reflexivity|].
        left. eexists. eexists.
        split; [symmetry; apply map_map|].
        split; [symmetry; apply map_map|].
        right. cbn [List.length]. split; lia.
Qed.

Lemma dtw_align_equal_lengths (completed_values reference_values : list R) :
  List.length completed_values = List.length reference_values ->
  dtw_align completed_values reference_values
  = Ok (map Num completed_values, map Num reference_values).
Proof.
  intros H. unfold dtw_align. rewrite H, Nat.eqb_refl. reflexivity.
Qed.

Lemma euclidean_distance_self (series : list R) :
  euclidean_distance series series = 0.
Proof. unfold euclidean_distance. apply euclidean_self. Qed.

Lemma dtw_distance_self (series : list R) :
  dtw_distance series series = Ok (Fin 0).
Proof.
  unfold dtw_distance. rewrite dtw_align_equal_lengths by reflexivity.
  cbn [bind]. rewrite normalize_signal_of_numbers, dtw_core_self.
  reflexivity.
Qed.

(** What [dtw_distance] returns, by the lengths of the two series: a
    finite number that is not negative when the lengths agree or both
    series have two samples or more; a value that is not a number when
    one series has a single sample and the other is longer; an error
    when one series is empty and the other is not. *)
Lemma dtw_distance_cases (completed_values reference_values : list R) :
  match dtw_distance completed_values reference_values with
  | Ok (Fin d) =>
      0 <= d /\
      (List.length completed_values = List.length reference_values \/
       (2 <= List.length completed_values)%nat /\
       (2 <= List.length reference_values)%nat)
  | Ok Inf => False
  | Ok XNaN =>
      (List.length completed_values = 1%nat /\
       (2 <= List.length reference_values)%nat) \/
      ((2 <= List.length completed_values)%nat /\
       List.length reference_values = 1%nat)
  | Raises =>
      List.length completed_values <> List.length reference_values /\
      (completed_values = [] \/ reference_values = [])
  end.
Proof.
  unfold dtw_distance.
  pose proof (dtw_align_cases completed_values reference_values) as Ha.
  destruct (dtw_align completed_values reference_values) as [[c r]|];
    cbn [bind]; [|exact Ha].
  destruct Ha as [Hlen [(cn & rn & -> & -> & Hcase)
                       |[(m & H1 & H2 & ->)|(n & H1 & H2 & ->)]]].
  - rewrite !normalize_signal_of_numbers.
    pose proof (dtw_core_finite (normalize_signal cn) (normalize_signal rn))
      as Hf.
    rewrite !length_normalize_signal in Hf.
    rewrite !length_map in Hlen. specialize (Hf Hlen).
    destruct (last _ Inf); cbn [xfin] in Hf; [split; assumption| |];
      contradiction.
  - rewrite normalize_signal_of_nan, dtw_core_nan_completed.
    + left. split; [exact H1|lia].
    + intros Hnil.
      pose proof (length_normalize_signal_of r) as Hr.
      rewrite Hnil, <- Hlen, repeat_length in Hr. discriminate Hr.
  - rewrite normalize_signal_of_nan, dtw_core_nan_reference.
    + right. split; [lia|exact H2].
    + intros Hnil.
      pose proof (length_normalize_signal_of c) as Hc.
      rewrite Hnil, Hlen, repeat_length in Hc. discriminate Hc.
Qed.

(** C8. The DTW distance of a series of one sample to a longer series
    is not a number, hence not a number that is zero or more: the
    interpolation that is to bring the single sample to the longer
    length divides zero by zero. So it is for [5] against [1, 2], and
    for every series of one sample against every series of two samples
    or more, whichever of the two is the completed one. *)
Theorem dtw_distance_of_one_sample_is_not_a_number :
  dtw_distance [5] [1; 2] = Ok XNaN /\
  ~ (exists d : R, dtw_distance [5] [1; 2] = Ok (Fin d) /\ 0 <= d) /\
  (forall (v : R) (series : list R),
      (2 <= List.length series)%nat ->
      dtw_distance [v] series = Ok XNaN /\
      dtw_distance series [v] = Ok XNaN).
Proof.
  assert (Hall : forall (v : R) (series : list R),
             (2 <= List.length series)%nat ->
             dtw_distance [v] series = Ok XNaN /\
             dtw_distance series [v] = Ok XNaN).
  { intros v series Hlen. split.
    - pose proof (dtw_distance_cases [v] series) as H.
      destruct (dtw_distance [v] series) as [[d| |]|]; cbn [List.length] in H.
      + destruct H as [_ [H|[H _]]]; lia.
      + contradiction.
      + reflexivity.
      + destruct H as [_ [H|H]]; [discriminate H|].
        subst. cbn in Hlen. lia.
    - pose proof (dtw_distance_cases series [v]) as H.
      destruct (dtw_distance series [v]) as [[d| |]|]; cbn [List.length] in H.
      + destruct H as [_ [H|[_ H]]]; lia.
      + contradiction.
      + reflexivity.
      + destruct H as [_ [H|H]]; [|discriminate H].
        subst. cbn in Hlen. lia. }
  assert (H5 : dtw_distance [5] [1; 2] = Ok XNaN)
    by (apply Hall; cbn; lia).
  split; [exact H5|]. split; [|exact Hall].
  intros (d & Hd & _). rewrite H5 in Hd. discriminate Hd.
Qed.

(** What the claim says does hold of the Euclidean distance, and of the
    DTW distance wherever it is a number: a series is at distance zero
    from itself, and no distance is negative. *)
Lemma distances_where_they_are_numbers :
  (forall series : list R,
      euclidean_distance series series = 0 /\
      dtw_distance series series = Ok (Fin 0)) /\
  (forall completed_values reference_values : list R,
      0 <= euclidean_distance completed_values reference_values /\
      forall d : xreal,
        dtw_distance completed_values reference_values = Ok d ->
        d <> XNaN -> exists v : R, d = Fin v /\ 0 <= v).
Proof.
  split.
  - intros series. split;
      [apply euclidean_distance_self|apply dtw_distance_self].
  - intros c r. split; [apply euclidean_nonneg|].
    intros d Hd Hnan.
    pose proof (dtw_distance_cases c r) as H. rewrite Hd in H.
    destruct d as [v| |]; [|contradiction|contradiction Hnan; reflexivity].
    exists v. split; [reflexivity|apply H].
Qed.

(** **** Constant series *)

Lemma np_min_constant (c : R) (n : nat) : np_min c (repeat c n) = c.
Proof.
  unfold np_min. induction n as [|n IH]; simpl; [reflexivity|].
  rewrite Rmin_left by apply Rle_refl. exact IH.
Qed.

Lemma np_max_constant (c : R) (n : nat) : np_max c (repeat c n) = c.
Proof.
  unfold np_max. induction n as [|n IH]; simpl; [reflexivity|].
  rewrite Rmax_left by apply Rle_refl. exact IH.
Qed.

Lemma normalize_signal_cons (v : R) (rest : list R) :
  normalize_signal (v :: rest)
  = if Req_dec_T (np_max v rest) (np_min v rest)
    then map (fun _ => 0) (v :: rest)
    else map (fun x => (x - np_min v rest) / (np_max v rest - np_min v rest))
           (v :: rest).
Proof. reflexivity. Qed.

Lemma normalize_signal_constant (c : R) (n : nat) :
  normalize_signal (constant_series c n) = constant_series 0 n.
Proof.
  unfold constant_series. destruct n as [|n]; [reflexivity|].
  change (repeat c (S n)) with (c :: repeat c n).
  rewrite normalize_signal_cons.
  rewrite np_min_constant, np_max_constant.
  destruct (Req_dec_T c c) as [_|Hne]; [|contradiction Hne; reflexivity].
  change (c :: repeat c n) with (repeat c (S n)).
  apply map_repeat.
Qed.

Lemma firstn_constant (c : R) (n : nat) :
  firstn n (constant_series c n) = constant_series c n.
Proof.
  unfold constant_series.
  rewrite <- (repeat_length c n) at 1. apply firstn_all.
Qed.

Lemma euclidean_distance_constant (c1 c2 : R) (n : nat) :
  euclidean_distance (constant_series c1 n) (constant_series c2 n) = 0.
Proof.
  unfold euclidean_distance.
  replace (List.length (constant_series c1 n)) with n
    by (symmetry; apply repeat_length).
  replace (List.length (constant_series c2 n)) with n
    by (symmetry; apply repeat_length).
  rewrite Nat.min_id, !firstn_constant, !normalize_signal_constant.
  apply euclidean_self.
Qed.

Lemma dtw_distance_constant (c1 c2 : R) (n : nat) :
  dtw_distance (constant_series c1 n) (constant_series c2 n) = Ok (Fin 0).
Proof.
  unfold dtw_distance.
  rewrite dtw_align_equal_lengths
    by (unfold constant_series; rewrite !repeat_length; reflexivity).
  cbn [bind].
  rewrite !normalize_signal_of_numbers, !normalize_signal_constant.
  rewrite dtw_core_self. reflexivity.
Qed.

Lemma compute_deviation_metrics_defined
    (completed_values reference_values : list R) :
  completed_values <> [] -> reference_values <> [] ->
  exists metrics : Metrics,
    compute_deviation_metrics completed_values reference_values = Ok metrics.
Proof.
  intros Hc Hr.
  destruct completed_values as [|a c]; [contradiction|].
  destruct reference_values as [|b r]; [contradiction|].
  unfold compute_deviation_metrics. simpl.
  eexists. reflexivity.
Qed.

Lemma combined_score_zero : combined_score 0 (Fin 0) = 0.
Proof.
  unfold combined_score.
  destruct (Rlt_dec _ 1) as [_|H]; [unfold Rdiv; ring|].
  exfalso. apply H. unfold Rdiv. lra.
Qed.

Lemma severity_of_zero : severity_of 0 = "normal"%string.
Proof.
  unfold severity_of, anomaly_threshold, warning_threshold.
  destruct (Rlt_dec (7 / 10) 0); [lra|].
  destruct (Rlt_dec (5 / 10) 0); [lra|reflexivity].
Qed.

(** Series of fewer than eleven samples are not smoothed: two constant
    series of one such length are at distance zero from each other, and
    [analyze_sensor] finds the sensor [normal], whatever the filter. *)
Lemma short_constant_series_are_normal
    (savgol_filter : list R -> nat -> nat -> outcome (list R))
    (c1 c2 : R) (n : nat) (sensor_id sensor_name : string) :
  (1 <= n <= 10)%nat ->
  exists d : SensorDeviation,
    analyze_sensor savgol_filter sensor_id sensor_name
      (constant_series c1 n) (constant_series c2 n) = Ok d /\
    d_euclidean_distance d = 0 /\ d_dtw_distance d = Fin 0 /\
    d_severity d = "normal"%string.
Proof.
  intros Hn.
  assert (Hsmooth : forall c,
             smooth_signal savgol_filter (constant_series c n)
             = constant_series c n).
  { intros c. unfold smooth_signal, constant_series.
    rewrite repeat_length.
    replace (Nat.ltb n 11) with true
      by (symmetry; apply Nat.ltb_lt; lia).
    reflexivity. }
  destruct (compute_deviation_metrics_defined
              (constant_series c1 n) (constant_series c2 n))
    as (metrics & Hm);
    try (unfold constant_series; destruct n; [lia|discriminate]).
  unfold analyze_sensor. rewrite !Hsmooth.
  rewrite dtw_distance_constant, euclidean_distance_constant, Hm.
  cbn [bind].
  eexists. split; [reflexivity|].
  cbn [d_euclidean_distance d_dtw_distance d_severity].
  rewrite combined_score_zero, severity_of_zero. auto.
Qed.

(** **** Health scores *)

Lemma np_sum_zeros {A : Type} (l : list A) : np_sum (map (fun _ => 0) l) = 0.
Proof. induction l as [|x l IH]; simpl; [reflexivity|rewrite IH; ring]. Qed.

Lemma health_of_nonempty (d : SensorDeviation) (l : list SensorDeviation) :
  health_of (d :: l)
  = Num (np_sum (map (fun d => severity_scores (d_severity d)) (d :: l))
         / INR (List.length (d :: l)) * 100).
Proof.
  unfold health_of, np_mean. simpl. rewrite length_map. reflexivity.
Qed.

Lemma health_of_all_critical (l : list SensorDeviation) :
  l <> [] ->
  (forall d, In d l -> d_severity d = "critical"%string) ->
  health_of l = Num 0.
Proof.
  intros Hne Hall. destruct l as [|d0 l]; [contradiction|].
  rewrite health_of_nonempty.
  rewrite (map_ext_in _ (fun _ => 0)).
  - rewrite np_sum_zeros. f_equal. unfold Rdiv. ring.
  - intros d Hd. rewrite (Hall d Hd). reflexivity.
Qed.

Lemma np_sum_ones {A : Type} (l : list A) :
  np_sum (map (fun _ => 1) l) = INR (List.length l).
Proof.
  induction l as [|x l IH]; [reflexivity|].
  change (List.length (x :: l)) with (S (List.length l)).
  rewrite S_INR. simpl. rewrite IH. ring.
Qed.

Lemma health_of_all_normal (l : list SensorDeviation) :
  l <> [] ->
  (forall d, In d l -> d_severity d = "normal"%string) ->
  health_of l = Num 100.
Proof.
  intros Hne Hall. destruct l as [|d0 l]; [contradiction|].
  rewrite health_of_nonempty.
  rewrite (map_ext_in _ (fun _ => 1)).
  - rewrite np_sum_ones. f_equal. field. apply not_0_INR. discriminate.
  - intros d Hd. rewrite (Hall d Hd). reflexivity.
Qed.

(** C7. Without deviations the batch health score is exactly one, and
    without analysed sensors the streaming health score is exactly one
    hundred; when every analysed sensor is [critical] the streaming
    health score is exactly zero. The streaming score of a non-empty
    analysis is one hundred times the mean, over its sensors, of zero for
    [critical], a half for [warning] and one for [normal]; it is the
    score that [analyze_cycle] reports. *)
Theorem health_scores_at_the_extremes :
  Analysis._calculate_health_score [] = 1 /\
  health_of [] = Num 100 /\
  (forall l : list SensorDeviation,
      l <> [] ->
      (forall d, In d l -> d_severity d = "critical"%string) ->
      health_of l = Num 0) /\
  (forall l : list SensorDeviation,
      l <> [] ->
      (forall d, In d l -> d_severity d = "normal"%string) ->
      health_of l = Num 100) /\
  (forall l : list SensorDeviation,
      l <> [] ->
      health_of l
      = Num (100 * (np_sum (map (fun d => severity_scores (d_severity d)) l)
                    / INR (List.length l)))) /\
  severity_scores "critical" = 0 /\
  severity_scores "warning" = 5 / 10 /\
  severity_scores "normal" = 1 /\
  (forall (savgol : list R -> nat -> nat -> outcome (list R))
          (cycle reference_cycle comparison : string)
          (completed_samples reference_samples : list (string * list R))
          (result : CycleAnalysisResult),
      analyze_cycle savgol cycle completed_samples reference_samples
        reference_cycle comparison = Ok result ->
      overall_health_score result = health_of (sensor_deviations result)) /\
  (forall (savgol : list R -> nat -> nat -> outcome (list R))
          (cycle reference_cycle comparison : string)
          (reference_samples : list (string * list R)),
      exists result : CycleAnalysisResult,
        analyze_cycle savgol cycle [] reference_samples
          reference_cycle comparison = Ok result /\
        sensor_deviations result = [] /\
        overall_health_score result = Num 100).
Proof.
  split; [reflexivity|]. split; [reflexivity|].
  split; [exact health_of_all_critical|].
  split; [exact health_of_all_normal|].
  split.
  { intros l Hne. destruct l as [|d l]; [contradiction|].
    rewrite health_of_nonempty. f_equal. ring. }
  split; [reflexivity|]. split; [reflexivity|]. split; [reflexivity|].
  split.
  - intros savgol cycle rc cmp completed reference result H.
    unfold analyze_cycle in H.
    destruct (analyze_each savgol completed reference) as [devs|];
      [|discriminate].
    simpl in H. inversion H; subst. reflexivity.
  - intros savgol cycle rc cmp reference.
    eexists. split; [reflexivity|]. split; reflexivity.
Qed.

Lemma health_scores_at_the_extremes_witness :
  let critical_sensor name :=
    mkSensorDeviation name name 12 (Fin 90) 3 1 0 "critical" in
  health_of [critical_sensor "motor_speed"%string;
             critical_sensor "vibration"%string] = Num 0.
Proof.
  intros critical_sensor.
  destruct health_scores_at_the_extremes as (_ & _ & Hcritical & _).
  apply Hcritical.
  - discriminate.
  - intros d [<-|[<-|[]]]; reflexivity.
Defined.

End DeviationFacts.

(** *** More on the cycle state machine *)

Section CycleFSMRunsFacts.

Import CycleFSM CycleFSMRuns.
Local Open Scope Z_scope.

Lemma completed_cycles_app (a b : list Call) :
  completed_cycles (a ++ b) = completed_cycles a ++ completed_cycles b.
Proof.
  induction a as [|[ | |] a IH]; simpl; try rewrite IH; reflexivity.
Qed.

Lemma state_changes_app (a b : list Call) :
  state_changes (a ++ b) = state_changes a ++ state_changes b.
Proof.
  induction a as [|[ | |] a IH]; simpl; try rewrite IH; reflexivity.
Qed.

(** [transition] is its chain of branches, followed by calls that hand
    no cycle to the completion hook. *)
Lemma transition_dispatch (m m' : CycleStateMachine) (event : CycleEvent)
    (metadata : option Dict) (env : Env) (r : Result) (calls : list Call) :
  transition m event metadata env = (r, m', calls) ->
  exists (ok : bool) (calls1 rest : list Call),
    dispatch m event metadata env = (ok, m', calls1) /\
    calls = calls1 ++ rest /\ completed_cycles rest = [].
Proof.
  unfold transition. intros H.
  destruct (dispatch m event metadata env) as [[ok m1] calls1] eqn:Hd.
  destruct ok.
  - destruct (notify (state m) m1) as [[ok2 m2] calls2] eqn:Hn.
    assert (Hm : m2 = m1 /\ completed_cycles calls2 = []).
    { unfold notify in Hn.
      destruct (on_state_change m1);
        [destruct (negb (CycleState_eqb (state m) (state m1)))|];
        inversion Hn; subst; auto. }
    destruct Hm as [-> Hc2].
    destruct ok2; [|destruct (on_error m1) as [cb|]; [destruct (cb ErrorCall)|]];
      inversion H; subst; exists true; do 2 eexists;
      (split; [reflexivity|]);
      rewrite <- ?app_assoc; (split; [reflexivity|]);
      rewrite ?completed_cycles_app, Hc2; reflexivity.
  - destruct (on_error m1) as [cb|]; [destruct (cb ErrorCall)|];
      inversion H; subst; exists false; do 2 eexists;
      (split; [reflexivity|]).
    + split; [reflexivity|reflexivity].
    + split; [reflexivity|reflexivity].
    + split; [symmetry; apply app_nil_r|reflexivity].
Qed.

(** An input either leaves the machine alone or goes through the
    branches of [transition] with the input's clock reading. *)
Lemma feed_dispatch (m m' : CycleStateMachine) (i : Input) (r : Result)
    (calls : list Call) :
  feed m i = (r, m', calls) ->
  (m' = m /\ calls = []) \/
  exists (event : CycleEvent) (metadata : option Dict) (env : Env)
         (ok : bool) (calls1 rest : list Call),
    now env = input_time i /\
    dispatch m event metadata env = (ok, m', calls1) /\
    calls = calls1 ++ rest /\ completed_cycles rest = [].
Proof.
  destruct i as [event metadata env|env]; simpl; intros H.
  - right. destruct (transition_dispatch _ _ _ _ _ _ _ H)
      as (ok & calls1 & rest & Hd & Hc & Hr).
    exists event, metadata, env, ok, calls1, rest. auto.
  - unfold check_sample_timeout in H.
    destruct (state m); try destruct (last_sample_time m);
      repeat match type of H with
        | context [if ?b then _ else _] => destruct b
        end;
      try (left; inversion H; subst; split; reflexivity);
      right; destruct (transition_dispatch _ _ _ _ _ _ _ H)
        as (ok & calls1 & rest & Hd & Hc & Hr);
      exists TIMEOUT, None, env, ok, calls1, rest; auto.
Qed.

Ltac fsm_cases H :=
  repeat match type of H with
    | context [if ?b then _ else _] => destruct b eqn:?
    | context [match ?o with Some _ => _ | None => _ end] => destruct o eqn:?
    end.

Lemma dispatch_settled (m m' : CycleStateMachine) (event : CycleEvent)
    (metadata : option Dict) (env : Env) (ok : bool) (calls : list Call) :
  settled m -> dispatch m event metadata env = (ok, m', calls) -> settled m'.
Proof.
  destruct m as [sid did st cur k lst stp sc cc er].
  unfold settled, dispatch, state_in, _complete_cycle, _grace_period_elapsed,
    on_cycle, _start_new_cycle.
  cbn [state current_cycle cycle_counter last_sample_time stop_time
       self_stream_id self_dataset_id on_cycle_complete].
  intros (Hk & Hcur & Hst) H.
  destruct event; destruct st; simpl in H;
    repeat match goal with
      | E : exists _, _ |- _ => destruct E
      | E : _ /\ _ |- _ => destruct E
      end; subst; simpl in H;
    fsm_cases H; inversion H; subst; clear H; simpl;
    try (specialize (Hcur _ eq_refl); destruct Hcur as (? & ? & ? & ? & ?));
    (split; [lia|]);
    (split;
     [ intros c0 E0; inversion E0; subst; simpl; repeat split; auto; lia
     | try (split; [reflexivity|lia]);
       try discriminate;
       repeat eexists; simpl; eauto ]).
Qed.

Lemma feed_settled (m m' : CycleStateMachine) (i : Input) (r : Result)
    (calls : list Call) :
  settled m -> feed m i = (r, m', calls) -> settled m'.
Proof.
  intros Hs H.
  destruct (feed_dispatch _ _ _ _ _ H)
    as [[-> _]|(e & md & env & ok & c1 & rest & _ & Hd & _)];
    [exact Hs|exact (dispatch_settled _ _ _ _ _ _ _ Hs Hd)].
Qed.

Lemma run_settled (inputs : list Input) :
  forall m : CycleStateMachine, settled m -> settled (fst (run m inputs)).
Proof.
  induction inputs as [|i rest IH]; intros m Hs; simpl; [exact Hs|].
  destruct (feed m i) as [[r m1] calls] eqn:Hf.
  specialize (IH m1 (feed_settled _ _ _ _ _ Hs Hf)).
  destruct (run m1 rest) as [m2 calls2]. exact IH.
Qed.

(** X1. Whatever events and ticks a machine has been through since
    [__init__], and whatever its hooks did: in [ACTIVE] and [STOPPING] it
    has a current cycle, open (no end time, no abort reason), with the
    time of the last sample, respectively of the stop, on record; in
    [STOPPED] its cycle has an end time and no abort reason; in [ABORTED]
    an end time and an abort reason; before the first start it has no
    cycle. The current cycle always bears the counter's value (at least
    one), a sample count that is not negative, and the identifiers of
    the machine. *)
Theorem reachable_machines_are_settled
    (stream dataset : string) (sc cc er : option Callable)
    (inputs : list Input) :
  settled (fst (run (with_callbacks (init stream dataset) sc cc er) inputs)).
Proof.
  apply run_settled. unfold settled. simpl.
  split; [lia|]. split; [intros c E; discriminate E|]. split; reflexivity.
Qed.

(** X2. The state in which [transition] leaves the machine depends on
    the event, the state before and the grace period only, as the table
    [next_state] gives it, whether the hooks return or raise; the cycle
    counter moves, by one, exactly when a [CYCLE_START] is taken. *)
Theorem transition_follows_table
    (m : CycleStateMachine) (event : CycleEvent) (metadata : option Dict)
    (env : Env) :
  let m' := snd (fst (transition m event metadata env)) in
  state m' = next_state event (state m) (_grace_period_elapsed m env) /\
  cycle_counter m'
  = cycle_counter m
    + (if CycleEvent_taken event (state m) then 1 else 0).
Proof.
  destruct (transition m event metadata env) as [[r m'] calls] eqn:H.
  destruct (transition_dispatch _ _ _ _ _ _ _ H)
    as (ok & calls1 & rest & Hd & _ & _).
  simpl. clear H.
  destruct m as [sid did st cur k lst stp sc cc er].
  unfold dispatch, state_in, _complete_cycle, _grace_period_elapsed,
    on_cycle, _start_new_cycle, CycleEvent_taken in *.
  cbn [state current_cycle cycle_counter last_sample_time stop_time
       self_stream_id self_dataset_id on_cycle_complete] in *.
  destruct event; destruct st; destruct cur as [c|]; destruct stp as [t|];
    simpl in Hd |- *; fsm_cases Hd; inversion Hd; subst; simpl;
    split; auto; lia.
Qed.

Lemma sample_in_active (m : CycleStateMachine) (c : CycleMetadata) (env : Env) :
  state m = ACTIVE -> current_cycle m = Some c ->
  transition m SAMPLE_RECEIVED None env
  = (Returned true,
     set_current_cycle (set_last_sample_time m (now env))
       (set_sample_count c (sample_count c + 1)),
     []).
Proof.
  destruct m as [sid did st cur k lst stp sc cc er]. simpl.
  intros -> ->. unfold transition, dispatch, on_cycle, notify. simpl.
  destruct sc; reflexivity.
Qed.

(** X3. A batch of samples that reaches an [ACTIVE] machine is counted
    sample by sample: the sample count of the current cycle grows by the
    size of the batch, the machine stays [ACTIVE] with the same cycle, and
    no hook is called. *)
Theorem samples_are_counted (clock : list datetime) :
  forall (m : CycleStateMachine) (c : CycleMetadata),
    state m = ACTIVE -> current_cycle m = Some c ->
    let m' := fst (run m (samples_received clock)) in
    state m' = ACTIVE /\
    snd (run m (samples_received clock)) = [] /\
    current_cycle m'
    = Some (set_sample_count c
              (sample_count c + Z.of_nat (List.length clock))) /\
    cycle_counter m' = cycle_counter m.
Proof.
  induction clock as [|t clock IH]; intros m c Hs Hc; simpl.
  - rewrite Hs, Hc. repeat split. f_equal. destruct c. simpl.
    rewrite Z.add_0_r. reflexivity.
  - rewrite (sample_in_active m c _ Hs Hc).
    set (m1 := set_current_cycle _ _).
    specialize (IH m1 (set_sample_count c (sample_count c + 1))).
    destruct (run m1 (samples_received clock)) as [m2 calls2].
    simpl in IH |- *.
    destruct IH as (H1 & H2 & H3 & H4);
      [unfold m1; simpl; exact Hs|reflexivity|].
    rewrite H1, H2, H3, H4. repeat split.
    f_equal. destruct c. unfold set_sample_count. simpl. f_equal. lia.
Qed.

Lemma samples_are_counted_witness :
  let m := fst (run (init "stream-1" "dataset-1")
                  [Event REGISTER_STREAM None (mkEnv 0 EmptyString);
                   Event CYCLE_START None (mkEnv 1 "c-1")]) in
  option_map sample_count
    (current_cycle (fst (run m (samples_received [2; 3; 4]))))
  = Some 3.
Proof.
  intros m.
  destruct (samples_are_counted [2; 3; 4] m
              (mkCycleMetadata "c-1" "stream-1" "dataset-1" 1 1 None 0 false
                 None false None []))
    as (_ & _ & H & _); [reflexivity|reflexivity|].
  rewrite H. reflexivity.
Defined.

Lemma dispatch_quiet (m m' : CycleStateMachine) (event : CycleEvent)
    (metadata : option Dict) (env : Env) (ok : bool) (calls : list Call) :
  quiet_hook (on_cycle_complete m) ->
  dispatch m event metadata env = (ok, m', calls) ->
  ok = true /\ state_changes calls = [] /\
  on_state_change m' = on_state_change m /\
  on_error m' = on_error m /\
  self_stream_id m' = self_stream_id m.
Proof.
  destruct m as [sid did st cur k lst stp sc cc er].
  unfold dispatch, state_in, _complete_cycle, _grace_period_elapsed,
    on_cycle, _start_new_cycle, quiet_hook.
  cbn [on_cycle_complete]. intros Hq H.
  destruct event; destruct st; destruct cur as [c|]; destruct stp as [t|];
    destruct cc as [f|];
    simpl in H; fsm_cases H; inversion H; subst; simpl;
    rewrite ?Hq; auto.
Qed.

(** X4. With hooks for state changes and completion that do not raise,
    [transition] returns [True], and calls the state-change hook once if
    the state has changed, with the machine's stream, the old and the new
    state and the identifier of the current cycle, and not at all if the
    state is the same. *)
Theorem state_change_is_notified_iff_changed
    (m : CycleStateMachine) (event : CycleEvent) (metadata : option Dict)
    (env : Env) (cb : Callable) :
  on_state_change m = Some cb -> (forall call, cb call = true) ->
  quiet_hook (on_cycle_complete m) ->
  let r := fst (fst (transition m event metadata env)) in
  let m' := snd (fst (transition m event metadata env)) in
  let calls := snd (transition m event metadata env) in
  r = Returned true /\
  state_changes calls
  = if CycleState_eqb (state m) (state m') then []
    else [StateChangeCall (self_stream_id m) (state m) (state m')
            (option_map cycle_id (current_cycle m'))].
Proof.
  intros Hcb Hret Hq. unfold transition.
  destruct (dispatch m event metadata env) as [[ok m1] calls1] eqn:Hd.
  destruct (dispatch_quiet _ _ _ _ _ _ _ Hq Hd)
    as (-> & Hsc & Hcb1 & _ & Hsid).
  unfold notify. rewrite Hcb1, Hcb, Hsid.
  destruct (CycleState_eqb (state m) (state m1)) eqn:Hsame; simpl.
  - rewrite app_nil_r, Hsame. split; [reflexivity|exact Hsc].
  - rewrite Hret. simpl. rewrite state_changes_app, Hsc, Hsame.
    split; reflexivity.
Qed.

Lemma state_change_is_notified_iff_changed_witness :
  let m := with_callbacks (init "stream-1" "dataset-1")
             (Some (fun _ => true)) None None in
  state_changes
    (snd (transition m REGISTER_STREAM None (mkEnv 0 EmptyString)))
  = [StateChangeCall "stream-1" IDLE WAITING_START None].
Proof.
  intros m.
  destruct (state_change_is_notified_iff_changed m REGISTER_STREAM None
              (mkEnv 0 EmptyString) (fun _ => true))
    as [_ H]; [reflexivity|reflexivity|exact I|exact H].
Defined.

(** X5. If the completion hook raises while a connection loss or a manual
    abort closes an open cycle, the machine is left [ABORTED] with the
    cycle's end time set, all the same; but [transition] does not return
    [True], and the state-change hook is not called for this change of
    state. *)
Theorem raising_completion_hook_hides_the_state_change
    (m : CycleStateMachine) (event : CycleEvent) (metadata : option Dict)
    (env : Env) (c : CycleMetadata) (cc : Callable) :
  event = CONNECTION_LOST \/ event = MANUAL_ABORT ->
  state m = ACTIVE \/ state m = STOPPING ->
  current_cycle m = Some c ->
  on_cycle_complete m = Some cc -> (forall call, cc call = false) ->
  let r := fst (fst (transition m event metadata env)) in
  let m' := snd (fst (transition m event metadata env)) in
  let calls := snd (transition m event metadata env) in
  state m' = ABORTED /\
  option_map end_time (current_cycle m') = Some (Some (now env)) /\
  r <> Returned true /\
  state_changes calls = [] /\
  completions calls = [cycle_number c].
Proof.
  destruct m as [sid did st cur k lst stp sc cm er]. simpl.
  intros He Hs -> -> Hraise.
  unfold transition, dispatch, state_in, _complete_cycle, on_cycle.
  destruct He as [-> | ->]; destruct Hs as [-> | ->]; simpl;
    rewrite Hraise; simpl;
    (destruct er as [e|]; [destruct (e ErrorCall)|]); simpl;
    repeat split; discriminate.
Qed.

Lemma raising_completion_hook_hides_the_state_change_witness :
  let m := fst (run (with_callbacks (init "stream-1" "dataset-1")
                       (Some (fun _ => true)) (Some (fun _ => false)) None)
                  [Event REGISTER_STREAM None (mkEnv 0 EmptyString);
                   Event CYCLE_START None (mkEnv 1 "c-1")]) in
  state_changes (snd (transition m MANUAL_ABORT None (mkEnv 2 EmptyString)))
  = [] /\
  state (snd (fst (transition m MANUAL_ABORT None (mkEnv 2 EmptyString))))
  = ABORTED.
Proof.
  intros m.
  destruct (raising_completion_hook_hides_the_state_change m MANUAL_ABORT
              None (mkEnv 2 EmptyString)
              (mkCycleMetadata "c-1" "stream-1" "dataset-1" 1 1 None 0 false
                 None false None [])
              (fun _ => false))
    as (Hs & _ & _ & Hc & _); auto.
Defined.

Import CycleFSMTimes.

Lemma dispatch_times (m m' : CycleStateMachine) (event : CycleEvent)
    (metadata : option Dict) (env : Env) (ok : bool) (calls : list Call)
    (lo : datetime) :
  started_by lo m -> lo <= now env ->
  dispatch m event metadata env = (ok, m', calls) ->
  started_by (now env) m' /\ Forall well_timed (completed_cycles calls).
Proof.
  destruct m as [sid did st cur k lst stp sc cc er].
  unfold started_by, well_timed, dispatch, state_in, _complete_cycle,
    _grace_period_elapsed, on_cycle, _start_new_cycle.
  cbn [current_cycle]. intros Hlo Hnow H.
  assert (Hcur : forall c, cur = Some c -> start_time c <= now env)
    by (intros c Hc; specialize (Hlo c Hc); lia).
  clear Hlo.
  destruct event; destruct st; destruct cur as [c|]; destruct stp as [t|];
    simpl in H; fsm_cases H; inversion H; subst; simpl;
    (split;
     [ intros c' Hc'; inversion Hc'; subst; simpl;
       try (apply Hcur; reflexivity); try lia
     | repeat constructor; simpl;
       try (eexists; split; [reflexivity|]; simpl;
            apply Hcur; reflexivity) ]).
Qed.

Lemma feed_times (m m' : CycleStateMachine) (i : Input) (r : Result)
    (calls : list Call) (lo : datetime) :
  started_by lo m -> lo <= input_time i ->
  feed m i = (r, m', calls) ->
  started_by (input_time i) m' /\ Forall well_timed (completed_cycles calls).
Proof.
  intros Hlo Hnow H.
  destruct (feed_dispatch _ _ _ _ _ H)
    as [[-> ->] | (event & metadata & env & ok & calls1 & rest &
                   Hn & Hd & -> & Hrest)].
  - split; [|constructor].
    intros c Hc. specialize (Hlo c Hc). lia.
  - rewrite <- Hn in *.
    destruct (dispatch_times _ _ _ _ _ _ _ _ Hlo Hnow Hd) as [H1 H2].
    split; [exact H1|].
    rewrite completed_cycles_app, Hrest, app_nil_r. exact H2.
Qed.

Lemma run_times (inputs : list Input) :
  forall (m : CycleStateMachine) (lo : datetime),
    started_by lo m -> clock_runs_on lo inputs ->
    Forall well_timed (completed_cycles (snd (run m inputs))).
Proof.
  induction inputs as [|i rest IH]; intros m lo Hlo Hclock; simpl.
  - constructor.
  - destruct Hclock as [Hi Hrest].
    destruct (feed m i) as [[r m1] calls] eqn:Hf.
    destruct (feed_times _ _ _ _ _ _ Hlo Hi Hf) as [H1 H2].
    specialize (IH m1 (input_time i) H1 Hrest).
    destruct (run m1 rest) as [m2 calls']. simpl in IH |- *.
    rewrite completed_cycles_app. apply Forall_app. split; assumption.
Qed.

(** X6. When the clock does not run backwards, every cycle that a machine
    hands to the completion hook has an end time, and it is not earlier
    than the cycle's start time. *)
Theorem completed_cycles_end_after_they_start
    (stream dataset : string) (sc cc er : option Callable)
    (inputs : list Input) (lo : datetime) :
  clock_runs_on lo inputs ->
  Forall well_timed
    (completed_cycles
       (snd (run (with_callbacks (init stream dataset) sc cc er) inputs))).
Proof.
  intros Hclock. apply (run_times inputs _ lo); [|exact Hclock].
  intros c Hc. discriminate Hc.
Qed.

Lemma completed_cycles_end_after_they_start_witness :
  Forall well_timed
    (completed_cycles
       (snd (run (with_callbacks (init "stream-1" "dataset-1")
                    None (Some (fun _ => true)) None)
               [Event REGISTER_STREAM None (mkEnv 0 EmptyString);
                Event CYCLE_START None (mkEnv 5 "c-1");
                Event MANUAL_ABORT None (mkEnv 9 EmptyString)]))) /\
  List.length
    (completed_cycles
       (snd (run (with_callbacks (init "stream-1" "dataset-1")
                    None (Some (fun _ => true)) None)
               [Event REGISTER_STREAM None (mkEnv 0 EmptyString);
                Event CYCLE_START None (mkEnv 5 "c-1");
                Event MANUAL_ABORT None (mkEnv 9 EmptyString)]))) = 1%nat.
Proof.
  split; [|reflexivity].
  apply (completed_cycles_end_after_they_start _ _ _ _ _ _ 0).
  simpl. lia.
Defined.

Lemma dict_get_set (d : Dict) (k : string) (v : meta_value) :
  dict_get (dict_set d k v) k = Some v.
Proof.
  induction d as [|[k' v'] d IH]; simpl.
  - rewrite String.eqb_refl. reflexivity.
  - destruct (String.eqb k' k) eqn:E; simpl.
    + rewrite String.eqb_refl. reflexivity.
    + rewrite E. exact IH.
Qed.

Lemma dict_pop_set (d : Dict) (k : string) (v : meta_value) :
  dict_get d k = None -> dict_pop (dict_set d k v) k = d.
Proof.
  induction d as [|[k' v'] d IH]; simpl.
  - rewrite String.eqb_refl. reflexivity.
  - destruct (String.eqb k' k) eqn:E; simpl; [discriminate|].
    intros H. rewrite E, (IH H). reflexivity.
Qed.

(** X7. Pausing an [ACTIVE] cycle and resuming it is a round trip: the
    pause records the time under [paused_at] in the cycle's custom
    metadata, the resume takes it out again, and, if the metadata had no
    such key before, the machine is then exactly as it was; neither event
    calls a hook. *)
Theorem pause_then_resume_restores_the_machine
    (m : CycleStateMachine) (c : CycleMetadata) (env1 env2 : Env) :
  state m = ACTIVE -> current_cycle m = Some c ->
  dict_get (custom_metadata c) "paused_at" = None ->
  let paused := fst (run m [Event CYCLE_PAUSE None env1]) in
  option_map (fun c' => dict_get (custom_metadata c') "paused_at")
    (current_cycle paused) = Some (Some (MTime (now env1))) /\
  run m [Event CYCLE_PAUSE None env1; Event CYCLE_RESUME None env2]
  = (m, []).
Proof.
  destruct m as [sid did st cur k lst stp sc cc er]. simpl.
  intros -> -> Hget.
  unfold transition, dispatch, on_cycle, notify. simpl.
  destruct sc; simpl; rewrite dict_get_set, (dict_pop_set _ _ _ Hget);
    destruct c; simpl; split; reflexivity.
Qed.

Lemma pause_then_resume_restores_the_machine_witness :
  let m := fst (run (init "stream-1" "dataset-1")
                  [Event REGISTER_STREAM None (mkEnv 0 EmptyString);
                   Event CYCLE_START None (mkEnv 1 "c-1")]) in
  run m [Event CYCLE_PAUSE None (mkEnv 2 EmptyString);
         Event CYCLE_RESUME None (mkEnv 3 EmptyString)] = (m, []).
Proof.
  intros m.
  apply (pause_then_resume_restores_the_machine m
           (mkCycleMetadata "c-1" "stream-1" "dataset-1" 1 1 None 0 false
              None false None [])); reflexivity.
Defined.

(** X8. The tick has two thresholds, one strict and one not.  An
    [ACTIVE] machine is left alone until more than thirty seconds have
    passed since the last sample, and is then aborted with the reason
    [sample_timeout]; a [STOPPING] machine is left alone until at least
    ten seconds have passed since the stop, and is then [STOPPED], its
    cycle ended at the time of the tick with no abort reason added. *)
Theorem tick_thresholds
    (m : CycleStateMachine) (c : CycleMetadata) (t : datetime) (env : Env) :
  current_cycle m = Some c ->
  let m' := snd (fst (check_sample_timeout m env)) in
  (state m = ACTIVE -> last_sample_time m = Some t ->
   if microseconds SAMPLE_TIMEOUT_SEC <? now env - t
   then state m' = ABORTED /\
        current_cycle m'
        = Some (set_end_time (set_abort_reason c "sample_timeout")
                  (now env))
   else check_sample_timeout m env = (Returned true, m, [])) /\
  (state m = STOPPING -> stop_time m = Some t ->
   if microseconds GRACE_PERIOD_SEC <=? now env - t
   then state m' = STOPPED /\
        current_cycle m' = Some (set_end_time c (now env))
   else check_sample_timeout m env = (Returned true, m, [])).
Proof.
  destruct m as [sid did st cur k lst stp sc cc er].
  cbn [current_cycle state last_sample_time stop_time].
  intros ->. split; intros -> ->.
  - unfold check_sample_timeout. cbn [state last_sample_time].
    destruct (microseconds SAMPLE_TIMEOUT_SEC <? now env - t) eqn:E;
      [|reflexivity].
    unfold transition, dispatch, on_cycle, _complete_cycle, notify. simpl.
    destruct cc as [f|]; simpl;
      [destruct (f _); simpl|];
      (destruct sc as [g|]; simpl; [try destruct (g _); simpl|]);
      (try (destruct er as [e|]; simpl; [destruct (e _); simpl|]));
      split; reflexivity.
  - unfold check_sample_timeout, _grace_period_elapsed.
    cbn [state last_sample_time stop_time].
    destruct (microseconds GRACE_PERIOD_SEC <=? now env - t) eqn:E;
      [|destruct lst; reflexivity].
    assert (Hm : snd (fst (transition
                   (mkFSM sid did STOPPING (Some c) k lst (Some t) sc cc er)
                   TIMEOUT None env))
                 = mkFSM sid did STOPPED (Some (set_end_time c (now env)))
                     k lst (Some t) sc cc er).
    { unfold transition, dispatch, on_cycle, _complete_cycle, notify,
        _grace_period_elapsed.
      cbn [state stop_time CycleState_eqb]. rewrite E. simpl.
      destruct cc as [f|]; simpl;
        [destruct (f _); simpl|];
        (destruct sc as [g|]; simpl; [try destruct (g _); simpl|]);
        (try (destruct er as [e|]; simpl; [destruct (e _); simpl|]));
        reflexivity. }
    destruct lst; rewrite Hm; split; reflexivity.
Qed.

Lemma tick_thresholds_witness :
  let m := fst (run (init "stream-1" "dataset-1")
                  [Event REGISTER_STREAM None (mkEnv 0 EmptyString);
                   Event CYCLE_START None (mkEnv 0 "c-1")]) in
  check_sample_timeout m (mkEnv 30000000 EmptyString)
  = (Returned true, m, []) /\
  state (snd (fst (check_sample_timeout m (mkEnv 30000001 EmptyString))))
  = ABORTED.
Proof.
  intros m.
  pose (c := mkCycleMetadata "c-1" "stream-1" "dataset-1" 1 0 None 0 false
               None false None []).
  split.
  - destruct (tick_thresholds m c 0 (mkEnv 30000000 EmptyString))
      as [H _]; [reflexivity|].
    exact (H eq_refl eq_refl).
  - destruct (tick_thresholds m c 0 (mkEnv 30000001 EmptyString))
      as [H _]; [reflexivity|].
    exact (proj1 (H eq_refl eq_refl)).
Defined.

End CycleFSMRunsFacts.

(** *** The local buffer and the connector over time *)

Section EdgeRunsFacts.

Import Edge EdgeRuns.
Local Open Scope Z_scope.

Lemma ids_of_kept_rows (keep : Row -> bool) (table : list Row) :
  NoDup (map id table) -> NoDup (map id (filter keep table)).
Proof.
  induction table as [|row table IH]; cbn [filter map]; intros Hkey;
    [constructor|].
  apply NoDup_cons_iff in Hkey. destruct Hkey as [Hrow Hrest].
  destruct (keep row); cbn [map]; [|exact (IH Hrest)].
  apply NoDup_cons; [|exact (IH Hrest)].
  rewrite in_map_iff. intros (other & Hid & Hin).
  apply filter_In in Hin. apply Hrow.
  rewrite in_map_iff. exists other. tauto.
Qed.

Lemma keyed_apply_op (b : LocalBuffer) (op : BufferOp) :
  keyed b -> keyed (apply_op b op).
Proof.
  destruct b as [rs n]. unfold keyed. simpl.
  intros (Hnd & Hall & Hn).
  destruct op as [r clock|ids|clock]; simpl.
  - repeat split; [| |lia].
    + rewrite map_app. simpl.
      apply NoDup_app; [exact Hnd|repeat constructor; intros []|].
      intros x Hx [<-|[]].
      apply in_map_iff in Hx. destruct Hx as (row & Hrow & Hin).
      rewrite Forall_forall in Hall. specialize (Hall row Hin). lia.
    + apply Forall_app. split.
      * eapply Forall_impl; [|exact Hall]. simpl. intros; lia.
      * repeat constructor; simpl; lia.
  - repeat split; [| |exact Hn].
    + rewrite map_map.
      erewrite map_ext; [exact Hnd|].
      intros row. destruct (existsb _ ids); reflexivity.
    + rewrite Forall_map. eapply Forall_impl; [|exact Hall].
      intros row. destruct (existsb _ ids); simpl; auto.
  - repeat split; [| |exact Hn].
    + apply ids_of_kept_rows. exact Hnd.
    + rewrite Forall_forall in *. intros row Hin.
      apply filter_In in Hin. apply Hall. tauto.
Qed.

(** X9. Whatever sequence of [add_sample], [mark_acked] and
    [clear_old_acked] a buffer has gone through since its creation, no
    two of its rows share an [id], and every [id] in use is at least 1
    and below the next one to be given out. *)
Theorem buffer_ids_are_a_key (ops : list BufferOp) :
  keyed (apply_ops empty_buffer ops).
Proof.
  unfold apply_ops.
  assert (H : keyed empty_buffer).
  { unfold keyed. simpl. repeat split; try constructor. lia. }
  revert H. generalize empty_buffer.
  induction ops as [|op ops IH]; intros b Hb; simpl; [exact Hb|].
  apply IH. apply keyed_apply_op. exact Hb.
Qed.

Lemma In_firstn {A : Type} (x : A) (n : nat) :
  forall l : list A, In x (firstn n l) -> In x l.
Proof.
  induction n as [|n IH]; intros [|y l]; simpl; try tauto.
  intros [->|H]; auto.
Qed.

Lemma ascending_insert (x : Row) (l : list Row) :
  ascending (map created_at l) ->
  ascending (map created_at (insert_by_created_at x l)).
Proof.
  induction l as [|y l IH]; simpl.
  - intros _. split; [constructor|exact I].
  - intros [Hy Hl].
    destruct (created_at x <? created_at y) eqn:E; simpl.
    + apply Z.ltb_lt in E. repeat split; auto.
      constructor; [lia|].
      eapply Forall_impl; [|exact Hy]. simpl. intros; lia.
    + apply Z.ltb_ge in E. split; [|auto].
      rewrite Forall_forall in *. intros t Ht.
      apply in_map_iff in Ht. destruct Ht as (row & <- & Hin).
      apply In_insert_by_created_at in Hin. destruct Hin as [->|Hin];
        [exact E|].
      apply Hy. apply in_map. exact Hin.
Qed.

Lemma ascending_order_by (l : list Row) :
  ascending (map created_at (order_by_created_at l)).
Proof.
  unfold order_by_created_at.
  induction (rev l) as [|y l' IH]; simpl; [exact I|].
  apply ascending_insert. exact IH.
Qed.

Lemma ascending_firstn (n : nat) :
  forall l : list Z, ascending l -> ascending (firstn n l).
Proof.
  induction n as [|n IH]; intros [|x l]; simpl; auto.
  intros [Hx Hl]. split; [|auto].
  rewrite Forall_forall in *. intros y Hy. apply Hx.
  eapply In_firstn. exact Hy.
Qed.

(** X10. [get_unacked_samples] returns at most [limit] pairs; they are
    the [id] and reading of rows of the table that are not acknowledged,
    oldest first by [created_at]. *)
Theorem unacked_samples_are_oldest_first (b : LocalBuffer) (limit : nat) :
  exists fetched : list Row,
    get_unacked_samples b limit
    = map (fun row => (id row, reading row)) fetched /\
    (List.length fetched <= limit)%nat /\
    (List.length fetched <= List.length (backlog b))%nat /\
    Forall (fun row => In row (rows b) /\ acked row = false) fetched /\
    ascending (map created_at fetched).
Proof.
  unfold get_unacked_samples, backlog, unacked.
  set (l := filter (fun row => negb (acked row)) (rows b)).
  exists (firstn limit (order_by_created_at l)).
  split; [reflexivity|]. split; [apply firstn_le_length|].
  split.
  { rewrite length_firstn, length_order_by_created_at. lia. }
  split.
  - rewrite Forall_forall. intros row Hin.
    apply In_firstn in Hin.
    apply (proj1 (In_order_by_created_at _ _)) in Hin.
    apply filter_In in Hin. destruct Hin as [Hin Hack].
    split; [exact Hin|]. destruct (acked row); [discriminate|reflexivity].
  - rewrite <- firstn_map. apply ascending_firstn. apply ascending_order_by.
Qed.

Lemma backlog_clear_old_acked (b : LocalBuffer) (clock : Z) :
  backlog (clear_old_acked b clock) = backlog b.
Proof.
  unfold backlog, clear_old_acked, unacked. cbn [rows].
  induction (rows b) as [|row l IH]; [reflexivity|].
  cbn [filter].
  destruct (acked row) eqn:Hack; cbn [andb negb].
  - destruct (created_at row <? clock - 7 * 86400); cbn [negb];
      [|cbn [filter]; rewrite Hack; cbn [negb]]; exact IH.
  - cbn [filter]. rewrite Hack. cbn [negb]. f_equal. exact IH.
Qed.

(** X11. [clear_old_acked] deletes acknowledged rows only: the rows that
    await acknowledgement are the same after it as before, so the next
    sweep fetches the same samples; and nothing is deleted at all unless
    it is older than seven days. *)
Theorem clear_old_acked_keeps_the_backlog
    (b : LocalBuffer) (clock : Z) (limit : nat) :
  get_unacked_samples (clear_old_acked b clock) limit
  = get_unacked_samples b limit /\
  (forall row, In row (rows b) ->
     acked row = false \/ clock - 7 * 86400 <= created_at row ->
     In row (rows (clear_old_acked b clock))) /\
  next_id (clear_old_acked b clock) = next_id b.
Proof.
  split; [|split; [|reflexivity]].
  - pose proof (backlog_clear_old_acked b clock) as H.
    unfold backlog, unacked in H. unfold get_unacked_samples.
    rewrite H. reflexivity.
  - intros row Hin Hkeep. unfold clear_old_acked. cbn [rows].
    apply filter_In. split; [exact Hin|].
    destruct Hkeep as [-> | Hnew]; [reflexivity|].
    apply Z.ltb_ge in Hnew. rewrite Hnew, andb_false_r. reflexivity.
Qed.

Lemma send_loop_answered (net : Network) (stream : string)
    (readings : list SensorReading) (max k code : Z) (fuel : nat) :
  net k = Status code -> k < max ->
  forall (retry_count : Z) (backoff : Q),
    retry_count <= k ->
    (forall j, retry_count <= j < k -> raises (net j) = true) ->
    (Z.to_nat (max - retry_count) <= fuel)%nat ->
    send_loop fuel net stream readings max retry_count backoff
    = (Return (code =? 200),
       failed_attempts (S (Z.to_nat (k - retry_count))) stream readings
         backoff).
Proof.
  intros Hk Hmax.
  induction fuel as [|fuel IH]; intros rc backoff Hrc Hnet Hfuel; [lia|].
  cbn [send_loop].
  replace (rc <? max) with true by (symmetry; apply Z.ltb_lt; lia).
  destruct (Z.eq_dec rc k) as [->|Hne].
  - rewrite Hk, Z.sub_diag. reflexivity.
  - assert (Hr : raises (net rc) = true) by (apply Hnet; lia).
    replace (rc + 1 <? max) with true by (symmetry; apply Z.ltb_lt; lia).
    rewrite (IH (rc + 1) (backoff * 2)%Q)
      by (try (intros j Hj; apply Hnet); lia).
    replace (Z.to_nat (k - rc)) with (S (Z.to_nat (k - (rc + 1)))) by lia.
    rewrite failed_attempts_SS.
    destruct (net rc); try discriminate Hr; reflexivity.
Qed.

Lemma send_batch_answered (c : EdgeConnector) (readings : list SensorReading)
    (net : Network) (clock : Z) (stream : string) (k code : Z) :
  registered c = Some stream -> 0 <= k < retry_max_attempts c ->
  answers_at net k code ->
  send_batch c readings net clock
  = (code =? 200, c,
     failed_attempts (S (Z.to_nat k)) stream readings (retry_backoff c)).
Proof.
  intros Hreg Hk [Hraise Hcode]. unfold send_batch. rewrite Hreg.
  rewrite (send_loop_answered net stream readings (retry_max_attempts c)
             k code _ Hcode) by (try exact Hraise; lia).
  rewrite Z.sub_0_r. reflexivity.
Qed.

Lemma send_batch_all_raise (c : EdgeConnector) (readings : list SensorReading)
    (net : Network) (clock : Z) (stream : string) :
  registered c = Some stream ->
  (forall k, 0 <= k < retry_max_attempts c -> raises (net k) = true) ->
  send_batch c readings net clock
  = (false, set_buffer c (store_all (buffer c) readings clock),
     failed_attempts (Z.to_nat (retry_max_attempts c)) stream readings
       (retry_backoff c) ++ map Insert readings).
Proof.
  intros Hreg Hraise. unfold send_batch. rewrite Hreg.
  rewrite send_loop_all_raise
    by (try exact Hraise; rewrite Z.sub_0_r; apply Nat.le_refl).
  rewrite Z.sub_0_r. reflexivity.
Qed.

(** X12. The first attempt that gets a response ends [send_batch],
    whatever the status: after [k] attempts that raised, the call has
    posted the batch [k + 1] times, has slept in between for the backoff
    doubled each time, returns [True] exactly if the status is 200, and
    stores nothing in the buffer. *)
Theorem send_batch_stops_at_the_first_response
    (c : EdgeConnector) (readings : list SensorReading) (net : Network)
    (clock : Z) (stream : string) (k code : Z) :
  registered c = Some stream -> 0 <= k < retry_max_attempts c ->
  answers_at net k code ->
  let ok := fst (fst (send_batch c readings net clock)) in
  let c' := snd (fst (send_batch c readings net clock)) in
  let effects := snd (send_batch c readings net clock) in
  ok = (code =? 200) /\ c' = c /\
  filter is_post effects = repeat (Post stream readings) (Z.to_nat k + 1) /\
  delays effects
  = map (fun i => doubled i (retry_backoff c)) (seq 0 (Z.to_nat k)) /\
  filter is_insert effects = [].
Proof.
  intros Hreg Hk Hnet.
  rewrite (send_batch_answered c readings net clock stream k code Hreg Hk Hnet).
  cbn [fst snd]. split; [reflexivity|]. split; [reflexivity|].
  rewrite failed_attempts_delays. cbn [pred].
  split; [|split; [reflexivity|]].
  - replace (Z.to_nat k + 1)%nat with (S (Z.to_nat k)) by lia.
    generalize (retry_backoff c).
    induction (Z.to_nat k) as [|n IH]; intros backoff; [reflexivity|].
    rewrite failed_attempts_SS. cbn [filter is_post].
    rewrite IH. reflexivity.
  - generalize (retry_backoff c).
    induction (Z.to_nat k) as [|n IH]; intros backoff; [reflexivity|].
    rewrite failed_attempts_SS. cbn [filter is_insert]. apply IH.
Qed.

Lemma send_batch_stops_at_the_first_response_witness :
  let c := demo_connector (Some "stream-1"%string) in
  let net := fun k => if k <? 2 then TimeoutError else Status 503 in
  fst (fst (send_batch c [demo_reading 50] net 0)) = false /\
  delays (snd (send_batch c [demo_reading 50] net 0)) = [2; 4]%Q /\
  snd (fst (send_batch c [demo_reading 50] net 0)) = c.
Proof.
  intros c net.
  destruct (send_batch_stops_at_the_first_response c [demo_reading 50] net 0
              "stream-1" 2 503) as (H1 & H2 & _ & H3 & _).
  - reflexivity.
  - simpl. lia.
  - split; [|reflexivity].
    intros j Hj. unfold net.
    replace (j <? 2) with true by (symmetry; apply Z.ltb_lt; lia).
    reflexivity.
  - split; [exact H1|]. split; [exact H3|exact H2].
Defined.

(** X13. A batch that the backend answers with a status other than 200
    is lost: [flush_batch] has emptied the connector's batch, and the
    readings are not stored in the local buffer, so that no later sweep
    sends them again. *)
Theorem rejected_batch_is_dropped
    (c : EdgeConnector) (net : Network) (clock : Z) (stream : string)
    (k code : Z) :
  registered c = Some stream -> 0 <= k < retry_max_attempts c ->
  answers_at net k code -> code <> 200 ->
  let c' := fst (flush_batch c net clock) in
  let effects := snd (flush_batch c net clock) in
  batch c' = [] /\ buffer c' = buffer c /\ filter is_insert effects = [] /\
  get_unacked_samples (buffer c') 100 = get_unacked_samples (buffer c) 100.
Proof.
  intros Hreg Hk Hnet Hcode. unfold flush_batch.
  destruct (batch c) as [|r rest] eqn:Hb.
  - cbn [fst snd]. rewrite Hb. repeat split; reflexivity.
  - rewrite (send_batch_answered (set_batch c []) (r :: rest) net clock
               stream k code) by assumption.
    cbn [fst snd]. repeat split.
    generalize (retry_backoff (set_batch c [])).
    induction (Z.to_nat k) as [|n IH]; intros backoff; [reflexivity|].
    rewrite failed_attempts_SS. cbn [filter is_insert]. apply IH.
Qed.

Lemma rejected_batch_is_dropped_witness :
  let c := set_batch (demo_connector (Some "stream-1"%string))
             [demo_reading 50] in
  let c' := fst (flush_batch c (fun _ => Status 500) 0) in
  batch c' = [] /\ rows (buffer c') = [].
Proof.
  intros c c'.
  destruct (rejected_batch_is_dropped c (fun _ => Status 500) 0 "stream-1"
              0 500) as (H1 & H2 & _).
  - reflexivity.
  - simpl. lia.
  - split; [intros j Hj; lia|reflexivity].
  - discriminate.
  - split; [exact H1|]. unfold c'. rewrite H2. reflexivity.
Defined.

(** X14. A connector that is not registered, having no stream id or an
    empty one, sends nothing and stores nothing: a turn of the read loop
    that flushes throws the batch away, and the turn's only effect is
    its sleep. *)
Theorem unregistered_connector_drops_batches
    (c : EdgeConnector) (readings : list SensorReading) (now interval : Q)
    (net : Network) (clock : Z) :
  registered c = None ->
  let c' := fst (read_turn c readings now interval net clock) in
  snd (read_turn c readings now interval net clock) = [Sleep interval] /\
  buffer c' = buffer c /\
  (batch c' = batch c ++ readings \/ batch c' = []).
Proof.
  intros Hreg. unfold read_turn.
  destruct ((batch_size (set_batch c (batch c ++ readings))
               <=? Z.of_nat (List.length
                     (batch (set_batch c (batch c ++ readings)))))
            || Qle_bool (flush_interval (set_batch c (batch c ++ readings)))
                 (now - last_flush (set_batch c (batch c ++ readings))));
    [|cbn; auto].
  unfold flush_batch. cbn [batch set_batch].
  destruct (batch c ++ readings) as [|r rest] eqn:Hb.
  - cbn. auto.
  - unfold send_batch.
    replace (registered (set_batch _ [])) with (registered c)
      by reflexivity.
    rewrite Hreg. cbn. auto.
Qed.

Lemma unregistered_connector_drops_batches_witness :
  let c := demo_connector None in
  snd (read_turn c [demo_reading 50] 5%Q (1 # 10)%Q (fun _ => Status 200) 0)
  = [Sleep (1 # 10)%Q].
Proof.
  intros c.
  apply (unregistered_connector_drops_batches c [demo_reading 50] 5%Q
           (1 # 10)%Q (fun _ => Status 200) 0).
  reflexivity.
Defined.

Lemma backlog_mark_acked (b : LocalBuffer) (sample_ids : list Z) :
  backlog (mark_acked b sample_ids)
  = filter (fun row => negb (existsb (Z.eqb (id row)) sample_ids))
      (backlog b).
Proof.
  unfold backlog, mark_acked, unacked. cbn [rows].
  induction (rows b) as [|row l IH]; [reflexivity|].
  cbn [map filter].
  destruct (existsb (Z.eqb (id row)) sample_ids) eqn:Hin;
    cbn [acked negb]; rewrite IH.
  - destruct (acked row); cbn [negb filter]; rewrite ?Hin; reflexivity.
  - destruct (acked row); cbn [negb filter]; rewrite ?Hin; reflexivity.
Qed.

Lemma backlog_store_all (b : LocalBuffer) (readings : list SensorReading)
    (clock : Z) :
  backlog (store_all b readings clock)
  = backlog b ++ fresh_rows (next_id b) readings clock.
Proof.
  rewrite store_all_rows. unfold backlog. cbn [rows].
  rewrite filter_app. f_equal.
  generalize (next_id b).
  induction readings as [|r rest IH]; intros first; [reflexivity|].
  cbn [fresh_rows filter unacked acked negb]. rewrite IH. reflexivity.
Qed.

Lemma existsb_id_in (x : Z) (l : list Z) :
  existsb (Z.eqb x) l = true <-> In x l.
Proof.
  rewrite existsb_exists. split.
  - intros (y & Hy & E). apply Z.eqb_eq in E. subst. exact Hy.
  - intros H. exists x. split; [exact H|apply Z.eqb_refl].
Qed.

Lemma filter_none {A : Type} (p : A -> bool) (l : list A) :
  (forall x, In x l -> p x = false) -> filter p l = [].
Proof.
  induction l as [|x l IH]; intros H; [reflexivity|].
  cbn [filter]. rewrite (H x (or_introl eq_refl)).
  apply IH. intros y Hy. apply H. right. exact Hy.
Qed.

(** X15. A sweep whose batch the backend accepts acknowledges what it
    fetched: no row with a fetched [id] awaits acknowledgement any
    longer, every other row of the backlog still does, and a backlog of
    at most a hundred rows is cleared as a whole. *)
Theorem accepted_sweep_acknowledges_what_it_fetched
    (c : EdgeConnector) (net : Network) (clock : Z) (stream : string)
    (k : Z) :
  registered c = Some stream -> 0 <= k < retry_max_attempts c ->
  answers_at net k 200 ->
  let fetched := get_unacked_samples (buffer c) 100 in
  let c' := fst (retry_turn c net clock) in
  backlog (buffer c')
  = filter (fun row => negb (existsb (Z.eqb (id row)) (map fst fetched)))
      (backlog (buffer c)) /\
  ((List.length (backlog (buffer c)) <= 100)%nat ->
   get_unacked_samples (buffer c') 100 = []).
Proof.
  intros Hreg Hk Hnet fetched c'.
  assert (Hback : backlog (buffer c')
    = filter (fun row => negb (existsb (Z.eqb (id row)) (map fst fetched)))
        (backlog (buffer c))).
  { unfold c', retry_turn. fold fetched.
    destruct fetched as [|p l] eqn:Hf.
    - cbn [fst buffer set_buffer]. rewrite backlog_clear_old_acked.
      cbn [map existsb negb]. clear.
      induction (backlog (buffer c)) as [|row rows IH]; [reflexivity|].
      cbn [filter]. rewrite <- IH. reflexivity.
    - rewrite (send_batch_answered c _ net clock stream k 200 Hreg Hk Hnet).
      cbn [Z.eqb Pos.eqb fst buffer set_buffer].
      rewrite backlog_clear_old_acked, backlog_mark_acked. reflexivity. }
  split; [exact Hback|].
  intros Hlen.
  assert (Hnone : backlog (buffer c') = []).
  { rewrite Hback.
    assert (Hall : forall row, In row (backlog (buffer c)) ->
                     In (id row) (map fst fetched)).
    { intros row Hin. unfold backlog in Hin. apply filter_In in Hin.
      destruct Hin as [Hin Hun].
      apply (in_map fst) with (x := (id row, reading row)).
      apply unacked_row_is_swept; [exact Hin| |exact Hlen].
      unfold unacked in Hun. destruct (acked row); [discriminate|reflexivity]. }
    apply filter_none. intros row Hin.
    replace (existsb (Z.eqb (id row)) (map fst fetched)) with true
      by (symmetry; apply existsb_id_in; apply Hall; exact Hin).
    reflexivity. }
  unfold backlog, unacked in Hnone. unfold get_unacked_samples.
  rewrite Hnone. reflexivity.
Qed.

Lemma accepted_sweep_acknowledges_what_it_fetched_witness :
  let b := store_all empty_buffer [demo_reading 50; demo_reading 51] 3 in
  let c := set_buffer (demo_connector (Some "stream-1"%string)) b in
  let c' := fst (retry_turn c (fun _ => Status 200) 40) in
  List.length (get_unacked_samples (buffer c) 100) = 2%nat /\
  get_unacked_samples (buffer c') 100 = [] /\
  map acked (rows (buffer c')) = [true; true].
Proof.
  intros b c c'.
  destruct (accepted_sweep_acknowledges_what_it_fetched c
              (fun _ => Status 200) 40 "stream-1" 0) as [_ H].
  - reflexivity.
  - simpl. lia.
  - split; [intros j Hj; lia|reflexivity].
  - split; [reflexivity|]. split; [|reflexivity].
    apply H. simpl. lia.
Defined.

(** X16. A sweep whose every attempt raises stores its batch in the
    buffer again: [send_batch] inserts the readings it was given, and
    these were fetched from the buffer, where they stay unacknowledged.
    The backlog thus grows by a copy of what was fetched, under new
    [id]s. *)
Theorem failed_sweep_stores_the_backlog_again
    (c : EdgeConnector) (net : Network) (clock : Z) (stream : string) :
  registered c = Some stream ->
  (forall k, 0 <= k < retry_max_attempts c -> raises (net k) = true) ->
  let fetched := get_unacked_samples (buffer c) 100 in
  let c' := fst (retry_turn c net clock) in
  backlog (buffer c')
  = backlog (buffer c)
    ++ fresh_rows (next_id (buffer c)) (map snd fetched) clock /\
  map reading (backlog (buffer c'))
  = map reading (backlog (buffer c)) ++ map snd fetched.
Proof.
  intros Hreg Hraise fetched c'.
  assert (Hback : backlog (buffer c')
    = backlog (buffer c)
      ++ fresh_rows (next_id (buffer c)) (map snd fetched) clock).
  { unfold c', retry_turn. fold fetched.
    destruct fetched as [|p l] eqn:Hf.
    - cbn [fst buffer set_buffer]. rewrite backlog_clear_old_acked.
      cbn [map fresh_rows]. rewrite app_nil_r. reflexivity.
    - rewrite (send_batch_all_raise c _ net clock stream Hreg Hraise).
      cbn [fst buffer set_buffer].
      rewrite backlog_clear_old_acked, backlog_store_all. reflexivity. }
  split; [exact Hback|].
  rewrite Hback, map_app, map_reading_fresh_rows. reflexivity.
Qed.

Lemma failed_sweep_stores_the_backlog_again_witness :
  let b := store_all empty_buffer [demo_reading 50] 3 in
  let c := set_buffer (demo_connector (Some "stream-1"%string)) b in
  let c' := fst (retry_turn c (fun _ => TimeoutError) 40) in
  map reading (backlog (buffer c')) = [demo_reading 50; demo_reading 50].
Proof.
  intros b c c'.
  destruct (failed_sweep_stores_the_backlog_again c
              (fun _ => TimeoutError) 40 "stream-1") as [_ H].
  - reflexivity.
  - intros k Hk. reflexivity.
  - exact H.
Defined.

Lemma delays_app (a b : list Effect) : delays (a ++ b) = delays a ++ delays b.
Proof.
  induction a as [|[s r|d|r] a IH]; simpl; rewrite ?IH; reflexivity.
Qed.

Lemma delays_inserts (readings : list SensorReading) :
  delays (map Insert readings) = [].
Proof. induction readings as [|r l IH]; simpl; auto. Qed.

Lemma total_delay_failed_attempts (stream : string)
    (readings : list SensorReading) (n : nat) :
  forall backoff : Q,
    (total_delay (failed_attempts (S n) stream readings backoff)
     == backoff * (2 ^ Z.of_nat n - 1))%Q.
Proof.
  unfold total_delay.
  induction n as [|n IH]; intros backoff.
  - simpl. ring.
  - rewrite failed_attempts_SS. cbn [delays fold_right].
    rewrite IH, Nat2Z.inj_succ. unfold Z.succ.
    rewrite Qpower_plus by discriminate.
    simpl (2 ^ 1)%Q. ring.
Qed.

(** X17. When every attempt raises, [send_batch] has slept for
    [retry_backoff * (2 ^ (retry_max_attempts - 1) - 1)] seconds in all
    before it stores the batch; with the defaults, five attempts and two
    seconds, that is thirty seconds. *)
Theorem failed_send_sleeps_a_geometric_sum
    (c : EdgeConnector) (readings : list SensorReading) (net : Network)
    (clock : Z) (stream : string) :
  registered c = Some stream -> 1 <= retry_max_attempts c ->
  (forall k, 0 <= k < retry_max_attempts c -> raises (net k) = true) ->
  (total_delay (snd (send_batch c readings net clock))
   == retry_backoff c * (2 ^ (retry_max_attempts c - 1) - 1))%Q.
Proof.
  intros Hreg Hmax Hraise.
  rewrite (send_batch_all_raise c readings net clock stream Hreg Hraise).
  cbn [snd]. unfold total_delay.
  rewrite delays_app, delays_inserts, app_nil_r.
  replace (Z.to_nat (retry_max_attempts c))
    with (S (Z.to_nat (retry_max_attempts c - 1))) by lia.
  fold (total_delay (failed_attempts (S (Z.to_nat (retry_max_attempts c - 1)))
                       stream readings (retry_backoff c))).
  rewrite total_delay_failed_attempts, Z2Nat.id by lia. reflexivity.
Qed.

Lemma failed_send_sleeps_a_geometric_sum_witness :
  (total_delay
     (snd (send_batch (demo_connector (Some "stream-1"%string))
             [demo_reading 50] (fun _ => OtherError) 0)) == 30)%Q.
Proof.
  rewrite (failed_send_sleeps_a_geometric_sum
             (demo_connector (Some "stream-1"%string)) [demo_reading 50]
             (fun _ => OtherError) 0 "stream-1");
    [reflexivity|reflexivity|simpl; lia|intros k Hk; reflexivity].
Defined.

End EdgeRunsFacts.

(** *** The sensor simulator *)

Section SimulatorFacts.

Import Simulator.
Local Open Scope R_scope.

Ltac float_cases :=
  repeat (match goal with
          | H : context [Rlt_dec ?u ?v] |- _ => destruct (Rlt_dec u v)
          | |- context [Rlt_dec ?u ?v] => destruct (Rlt_dec u v)
          end; simpl in *).

Lemma clamp_within (lo hi : float) (x : R) :
  float_lt hi lo = false -> within lo hi (max lo (min hi (Real x))).
Proof.
  unfold within, max, min.
  destruct lo as [|a|], hi as [|b|]; simpl; intros H; try discriminate H;
    float_cases;
    try discriminate; try (split; reflexivity); try lra.
Qed.

Lemma clamp_crossed (lo hi : float) (x : R) :
  float_lt hi lo = true -> max lo (min hi (Real x)) = lo.
Proof.
  unfold max, min.
  destruct lo as [|a|], hi as [|b|]; simpl; intros H; try discriminate H;
    float_cases;
    try discriminate; try reflexivity; try lra.
Qed.

Lemma clamp_inside (lo hi : float) (x : R) :
  within lo hi (Real x) -> max lo (min hi (Real x)) = Real x.
Proof.
  unfold within, max, min.
  destruct lo as [|a|], hi as [|b|]; simpl; intros [H1 H2];
    try discriminate; float_cases;
    try congruence; try (exfalso; lra); try (f_equal; lra).
Qed.

Lemma within_between (lo hi : float) (a b x : R) :
  float_lt (Real a) lo = false -> float_lt hi (Real b) = false ->
  a <= x <= b -> within lo hi (Real x).
Proof.
  unfold within.
  destruct lo as [|u|], hi as [|v|]; simpl; intros H1 H2 Hx;
    try discriminate; float_cases;
    try congruence; try (split; reflexivity); try (exfalso; lra).
Qed.

Lemma Forall2_indexed {A B : Type} (P : A -> B -> Prop) (f : nat -> A -> B)
    (l : list A) :
  (forall i x, In x l -> P x (f i x)) ->
  forall a : nat,
    Forall2 P l
      (map (fun p => f (fst p) (snd p)) (combine (seq a (List.length l)) l)).
Proof.
  induction l as [|x l IH]; intros H a; simpl; constructor.
  - apply H. left. reflexivity.
  - apply IH. intros i y Hy. apply H. right. exact Hy.
Qed.

(** X18. [read_sample] returns one reading per sensor, in the order of
    the sensors, each with the sensor's id, name and unit and the
    timestamp of the call. The value lies within the sensor's limits
    when the lower one does not exceed the upper one, and is the lower
    limit, whatever the signal, when it does. *)
Theorem read_sample_clamps_to_limits
    (s : SensorSimulator) (timestamp : string) (gauss : nat -> R) :
  Forall2
    (fun sensor r =>
       r_sensor_id r = sensor_id sensor /\ r_sensor_name r = name sensor /\
       r_unit r = unit sensor /\ r_timestamp r = timestamp /\
       if float_lt (max_value sensor) (min_value sensor)
       then r_value r = min_value sensor
       else within (min_value sensor) (max_value sensor) (r_value r))
    (sensors s) (snd (read_sample s timestamp gauss)).
Proof.
  unfold read_sample. cbn [snd].
  apply (Forall2_indexed _
           (fun i sensor =>
              read_sensor (counter s + 1) timestamp (gauss i) sensor)).
  intros i sensor _. unfold read_sensor. cbn.
  repeat split.
  destruct (float_lt (max_value sensor) (min_value sensor)) eqn:E.
  - apply clamp_crossed. exact E.
  - apply clamp_within. exact E.
Qed.

Lemma sin_signal_bounds (a b x : R) :
  0 <= b -> a - b <= a + b * sin x <= a + b.
Proof.
  intros Hb. destruct (SIN_bound x) as [H1 H2]. nra.
Qed.

(** X19. The two sine signals pass the clamp unchanged when the limits
    leave them room: the value read from an analog sensor whose limits
    include [40, 60] is [50 + 10 sin (counter / 10)], and that of a
    temperature sensor whose limits include [20, 30] is
    [25 + 5 sin (counter / 100)], for the counter as the call has
    advanced it. *)
Theorem sine_signals_pass_the_clamp
    (s : SensorSimulator) (timestamp : string) (gauss : nat -> R) :
  Forall2
    (fun sensor r =>
       (type sensor = ANALOG ->
        within (min_value sensor) (max_value sensor) (Real 40) ->
        within (min_value sensor) (max_value sensor) (Real 60) ->
        r_value r = Real (50 + 10 * sin (IZR (counter s + 1) / 10))) /\
       (type sensor = TEMPERATURE ->
        within (min_value sensor) (max_value sensor) (Real 20) ->
        within (min_value sensor) (max_value sensor) (Real 30) ->
        r_value r = Real (25 + 5 * sin (IZR (counter s + 1) / 100))))
    (sensors s) (snd (read_sample s timestamp gauss)).
Proof.
  unfold read_sample. cbn [snd].
  apply (Forall2_indexed _
           (fun i sensor =>
              read_sensor (counter s + 1) timestamp (gauss i) sensor)).
  intros i sensor _. unfold read_sensor. cbn [r_value].
  split; intros Ht [Hlo _] [_ Hhi]; rewrite Ht; cbn [signal].
  - pose proof (sin_signal_bounds 50 10 (IZR (counter s + 1) * (1 / 10))
                  ltac:(lra)) as Hb.
    assert (Hx : 40 <= 50 + 10 * sin (IZR (counter s + 1) * (1 / 10)) <= 60)
      by lra.
    rewrite (clamp_inside _ _ _ (within_between _ _ 40 60 _ Hlo Hhi Hx)).
    f_equal. f_equal. f_equal. f_equal. lra.
  - pose proof (sin_signal_bounds 25 5 (IZR (counter s + 1) * (1 / 100))
                  ltac:(lra)) as Hb.
    assert (Hx : 20 <= 25 + 5 * sin (IZR (counter s + 1) * (1 / 100)) <= 30)
      by lra.
    rewrite (clamp_inside _ _ _ (within_between _ _ 20 30 _ Hlo Hhi Hx)).
    f_equal. f_equal. f_equal. f_equal. lra.
Qed.

Lemma read_samples_quality (calls : list (string * (nat -> R))) :
  forall (s : SensorSimulator) (k : nat) (batch : list SensorReading),
    nth_error (snd (read_samples s calls)) k = Some batch ->
    Forall (fun r => r_quality r = quality_at (counter s + Z.of_nat k + 1))
      batch.
Proof.
  induction calls as [|[timestamp gauss] calls IH]; intros s k batch;
    [destruct k; discriminate|].
  cbn [read_samples].
  destruct (read_sample s timestamp gauss) as [s1 readings] eqn:Hr.
  destruct (read_samples s1 calls) as [s2 more] eqn:Hm.
  cbn [snd]. unfold read_sample in Hr. inversion Hr; subst. clear Hr.
  destruct k as [|k]; cbn [nth_error].
  - intros H. inversion H; subst. rewrite Forall_forall.
    intros r Hin. apply in_map_iff in Hin. destruct Hin as (p & <- & _).
    cbn. f_equal. lia.
  - intros H.
    specialize (IH (mkSensorSimulator (sensors s) (rate_hz s)
                      (counter s + 1)) k batch).
    rewrite Hm in IH.
    specialize (IH H). cbn [counter] in IH.
    eapply Forall_impl; [|exact IH].
    intros r ->. f_equal. lia.
Qed.

Lemma read_samples_counter (calls : list (string * (nat -> R))) :
  forall s : SensorSimulator,
    counter (fst (read_samples s calls))
    = (counter s + Z.of_nat (List.length calls))%Z /\
    List.length (snd (read_samples s calls)) = List.length calls.
Proof.
  induction calls as [|[timestamp gauss] calls IH]; intros s.
  - cbn. split; [lia|reflexivity].
  - cbn [read_samples].
    destruct (read_sample s timestamp gauss) as [s1 readings] eqn:Hr.
    specialize (IH s1).
    destruct (read_samples s1 calls) as [s2 more].
    unfold read_sample in Hr. inversion Hr; subst.
    cbn [fst snd counter List.length] in *. split; lia.
Qed.

Lemma read_samples_sizes (calls : list (string * (nat -> R))) :
  forall (s : SensorSimulator) (k : nat) (batch : list SensorReading),
    nth_error (snd (read_samples s calls)) k = Some batch ->
    List.length batch = List.length (sensors s).
Proof.
  induction calls as [|[timestamp gauss] calls IH]; intros s k batch;
    [destruct k; discriminate|].
  cbn [read_samples].
  destruct (read_sample s timestamp gauss) as [s1 readings] eqn:Hr.
  destruct (read_samples s1 calls) as [s2 more] eqn:Hm.
  cbn [snd]. unfold read_sample in Hr. inversion Hr; subst. clear Hr.
  destruct k as [|k]; cbn [nth_error].
  - intros H. inversion H; subst.
    rewrite length_map, length_combine, length_seq, Nat.min_id.
    reflexivity.
  - intros H.
    specialize (IH (mkSensorSimulator (sensors s) (rate_hz s)
                      (counter s + 1)) k batch).
    rewrite Hm in IH. exact (IH H).
Qed.

(** X20. A simulator counts its reads, and marks every hundredth of
    them: of the calls of [read_sample] made on a new simulator, the
    one at index [k] returns a reading for each sensor, all with the
    quality 0.7 if [k + 1] is a multiple of 100, and 0.95 if not. *)
Theorem every_hundredth_read_is_degraded
    (sensors : list SensorConfig) (rate_hz : R)
    (calls : list (string * (nat -> R))) :
  let s := init sensors rate_hz in
  counter (fst (read_samples s calls)) = Z.of_nat (List.length calls) /\
  List.length (snd (read_samples s calls)) = List.length calls /\
  forall (k : nat) (batch : list SensorReading),
    nth_error (snd (read_samples s calls)) k = Some batch ->
    List.length batch = List.length sensors /\
    Forall (fun r => r_quality r
                     = if ((Z.of_nat k + 1) mod 100 =? 0)%Z then 7 / 10
                       else 95 / 100)
      batch.
Proof.
  intros s.
  destruct (read_samples_counter calls s) as [H1 H2].
  split; [exact H1|]. split; [exact H2|].
  intros k batch Hk. split.
  - exact (read_samples_sizes calls s k batch Hk).
  - pose proof (read_samples_quality calls s k batch Hk) as H.
    eapply Forall_impl; [|exact H].
    intros r ->. unfold quality_at. cbn [counter s init].
    rewrite Z.add_0_l.
    destruct ((Z.of_nat k + 1) mod 100 =? 0)%Z; reflexivity.
Qed.

End SimulatorFacts.

(** *** Registration at start-up *)

Section EdgeStartupFacts.

Import Edge EdgeStartup.
Local Open Scope Z_scope.

(** X21. [start] tries to register three times at most and stops at the
    first status 200, sleeping five seconds after every attempt that
    failed, the last one included. It takes the stream id from the body
    of that response, be there one or not; and after three failures it
    goes on to the loops with the stream id it had. *)
Theorem start_registers_within_three_attempts
    (c : EdgeConnector) (net : nat -> RegisterOutcome) :
  let c' := fst (start c net) in
  let effects := snd (start c net) in
  running c' = true /\ buffer c' = buffer c /\ batch c' = batch c /\
  (forall (k : nat) (code : Z) (body_stream_id : option string),
     (k < 3)%nat -> net k = Answer code body_stream_id -> code = 200 ->
     (forall j, (j < k)%nat -> accepted (net j) = false) ->
     stream_id c' = body_stream_id /\
     effects = failed_registrations k ++ [PostRegister]) /\
  ((forall j, (j < 3)%nat -> accepted (net j) = false) ->
   stream_id c' = stream_id c /\ effects = failed_registrations 3).
Proof.
  unfold start. cbn [register_loop]. unfold register.
  destruct (net 0%nat) as [code0 body0|] eqn:N0;
    [destruct (code0 =? 200) eqn:C0|];
    (destruct (net 1%nat) as [code1 body1|] eqn:N1;
       [destruct (code1 =? 200) eqn:C1|]);
    (destruct (net 2%nat) as [code2 body2|] eqn:N2;
       [destruct (code2 =? 200) eqn:C2|]);
    cbn [fst snd running buffer batch stream_id set_running set_stream_id];
    (split; [reflexivity|]); (split; [reflexivity|]);
    (split; [reflexivity|]);
    (split;
     [ intros k code body Hk Hnet Hcode Hprev;
       destruct k as [|[|[|k]]]; [| | |lia];
       try (pose proof (Hprev 0%nat ltac:(lia)) as P0;
            rewrite N0 in P0; cbn [accepted] in P0);
       try (pose proof (Hprev 1%nat ltac:(lia)) as P1;
            rewrite N1 in P1; cbn [accepted] in P1);
       rewrite ?N0, ?N1, ?N2 in Hnet; try discriminate Hnet;
       inversion Hnet; subst; try rewrite Z.eqb_refl in *;
       try congruence; split; reflexivity
     | intros Hall;
       pose proof (Hall 0%nat ltac:(lia)) as P0;
       pose proof (Hall 1%nat ltac:(lia)) as P1;
       pose proof (Hall 2%nat ltac:(lia)) as P2;
       rewrite N0 in P0; rewrite N1 in P1; rewrite N2 in P2;
       cbn [accepted] in P0, P1, P2;
       try congruence; split; reflexivity ]).
Qed.

Lemma start_registers_within_three_attempts_example :
  let net := fun k : nat =>
               match k with
               | 1%nat => Answer 200 None
               | _ => Raise
               end in
  let c' := fst (start (demo_connector (Some "old"%string)) net) in
  snd (start (demo_connector (Some "old"%string)) net)
  = [PostRegister; SleepFor 5; PostRegister] /\
  registered c' = None.
Proof. split; reflexivity. Qed.

End EdgeStartupFacts.

(** *** From the comparison of sensors to the verdict on a cycle *)

Section AnalysisFlowFacts.

Import NumPy Analysis AnalysisFlow.
Local Open Scope R_scope.

Lemma report_reportable (sensor compared : string) (kind : DeviationType)
    (dev : pyfloat) :
  (forall v, dev = Num v -> v <= 1) ->
  Forall (fun d => reportable sensor compared d /\ deviation_type d = kind)
    (report sensor kind dev compared) /\
  (List.length (report sensor kind dev compared) <= 1)%nat.
Proof.
  intros Hle. unfold report. destruct dev as [v|]; [|split; auto].
  destruct (Rlt_dec (2 / 10) v); [|split; auto].
  split; [|auto]. constructor; [|constructor].
  unfold reportable. simpl. repeat split; auto.
Qed.

Lemma py_min_one_le (x : pyfloat) (v : R) :
  py_min x (Num 1) = Num v -> v <= 1.
Proof.
  unfold py_min, py_lt. destruct x as [q|]; [|discriminate].
  destruct (Rlt_dec 1 q); intros H; inversion H; lra.
Qed.

Lemma _detect_amplitude_deviation_le (s1 s2 : list R) (v : R) :
  _detect_amplitude_deviation s1 s2 = Num v -> v <= 1.
Proof. unfold _detect_amplitude_deviation. apply py_min_one_le. Qed.

Lemma _detect_shape_deviation_le (s1 s2 : list R) (v : R) :
  _detect_shape_deviation s1 s2 = Ok (Num v) -> v <= 1.
Proof.
  unfold _detect_shape_deviation.
  destruct (np_corrcoef s1 s2) as [[c|]|]; simpl; try discriminate.
  - unfold py_max, py_lt.
    destruct (Rlt_dec 0 (1 - Rabs c)); intros H; inversion H; subst;
      [pose proof (Rabs_pos c)|]; lra.
  - unfold py_max, py_lt. intros H. inversion H. lra.
Qed.

Lemma _detect_timing_deviation_le (s1 s2 : list R) (v : R) :
  _detect_timing_deviation s1 s2 = Ok (Num v) -> v <= 1.
Proof.
  unfold _detect_timing_deviation.
  destruct (np_argmax (correlate_same s1 s2)) as [peak|]; simpl;
    [|discriminate].
  intros H. inversion H as [H']. apply py_min_one_le in H'. exact H'.
Qed.

Lemma compared_sensor_reports
    (sensor_data ref_data : list R) (sensor compared : string)
    (deviations : list DeviationDetail) (similarity : pyfloat) :
  _compare_sensor_data sensor_data ref_data sensor compared
  = Ok (deviations, similarity) ->
  exists amplitude_dev shape_dev timing_dev : pyfloat,
    deviations
    = report sensor AMPLITUDE amplitude_dev compared
      ++ report sensor SHAPE shape_dev compared
      ++ report sensor TIMING timing_dev compared /\
    (forall v, amplitude_dev = Num v -> v <= 1) /\
    (forall v, shape_dev = Num v -> v <= 1) /\
    (forall v, timing_dev = Num v -> v <= 1).
Proof.
  unfold _compare_sensor_data.
  destruct (aligned_values sensor_data ref_data) as [[sv rv]|];
    [|discriminate].
  cbn [bind].
  destruct (_calculate_similarity sv rv) as [sim|]; [|discriminate].
  cbn [bind].
  destruct (_detect_shape_deviation sv rv) as [shape_dev|] eqn:Hs;
    [|discriminate].
  cbn [bind].
  destruct (_detect_timing_deviation sv rv) as [timing_dev|] eqn:Ht;
    [|discriminate].
  cbn [bind]. intros H. inversion H; subst. clear H.
  exists (_detect_amplitude_deviation sv rv), shape_dev, timing_dev.
  split; [reflexivity|]. split; [|split].
  - intros v Hv. eapply _detect_amplitude_deviation_le. exact Hv.
  - intros v ->. eapply _detect_shape_deviation_le. exact Hs.
  - intros v ->. eapply _detect_timing_deviation_le. exact Ht.
Qed.

Lemma compared_sensor_reportable
    (sensor_data ref_data : list R) (sensor compared : string)
    (deviations : list DeviationDetail) (similarity : pyfloat) :
  _compare_sensor_data sensor_data ref_data sensor compared
  = Ok (deviations, similarity) ->
  Forall (reportable sensor compared) deviations.
Proof.
  intros H.
  destruct (compared_sensor_reports _ _ _ _ _ _ H)
    as (a & s & t & -> & Ha & Hs & Ht).
  repeat (apply Forall_app; split);
    (eapply Forall_impl;
     [|apply report_reportable; eassumption]);
    intros d [Hd _]; exact Hd.
Qed.

(** X22. Whatever the two series, the deviations that
    [_compare_sensor_data] returns are at most three, an amplitude, a
    shape and a timing deviation in this order; each carries the sensor
    name and the kind of comparison it was given, and a severity above
    0.2 and at most 1, as the response schema requires of it. *)
Theorem compared_sensor_reports_are_in_range
    (sensor_data ref_data : list R) (sensor compared : string)
    (deviations : list DeviationDetail) (similarity : pyfloat) :
  _compare_sensor_data sensor_data ref_data sensor compared
  = Ok (deviations, similarity) ->
  Forall (reportable sensor compared) deviations /\
  exists amplitude shape timing : list DeviationDetail,
    deviations = amplitude ++ shape ++ timing /\
    (List.length amplitude <= 1)%nat /\ (List.length shape <= 1)%nat /\
    (List.length timing <= 1)%nat /\
    Forall (fun d => deviation_type d = AMPLITUDE) amplitude /\
    Forall (fun d => deviation_type d = SHAPE) shape /\
    Forall (fun d => deviation_type d = TIMING) timing.
Proof.
  intros H. split; [exact (compared_sensor_reportable _ _ _ _ _ _ H)|].
  destruct (compared_sensor_reports _ _ _ _ _ _ H)
    as (a & s & t & -> & Ha & Hs & Ht).
  destruct (report_reportable sensor compared AMPLITUDE a Ha) as [A1 A2].
  destruct (report_reportable sensor compared SHAPE s Hs) as [S1 S2].
  destruct (report_reportable sensor compared TIMING t Ht) as [T1 T2].
  do 3 eexists. split; [reflexivity|].
  repeat split; try assumption;
    (eapply Forall_impl; [|eassumption]); intros d [_ Hd]; exact Hd.
Qed.

Lemma flat_series_compared (sensor compared : string) :
  _compare_sensor_data [0; 0] [1; 1] sensor compared
  = Ok ([mkDeviationDetail sensor AMPLITUDE
           ((Rabs (0 - 1) / (Rabs 1 + eps)
             + Rabs (0 - 0) / (Rabs 0 + eps)) / 2) compared;
         mkDeviationDetail sensor TIMING 1 compared],
        NaN).
Proof.
  pose proof eps_pos as He.
  assert (Heps : eps <= 1).
  { unfold eps. apply Rmult_le_reg_r with 10000000000; [lra|].
    rewrite Rinv_l; lra. }
  unfold _compare_sensor_data, aligned_values. cbn [List.length Nat.eqb negb bind].
  change [0; 0] with (repeat 0 2).
  rewrite (_calculate_similarity_constant 0 1 [1; 1] eq_refl).
  cbn [bind].
  unfold _detect_shape_deviation.
  rewrite (np_corrcoef_zeros 1 [1; 1] eq_refl). cbn [bind lift1].
  unfold _detect_amplitude_deviation.
  rewrite (np_mean_repeat 0 1), (np_std_repeat 0 1).
  change [1; 1] with (repeat 1 2).
  rewrite (np_mean_repeat 1 1), (np_std_repeat 1 1).
  cbn [lift2].
  set (v := (Rabs (0 - 1) / (Rabs 1 + eps)
             + Rabs (0 - 0) / (Rabs 0 + eps)) / 2).
  assert (Hv : 2 / 10 < v < 1).
  { unfold v.
    replace (Rabs (0 - 1)) with 1 by (rewrite Rabs_left; lra).
    replace (Rabs (0 - 0)) with 0 by (rewrite Rminus_diag, Rabs_R0; lra).
    rewrite Rabs_R0, Rabs_R1.
    replace (0 / (0 + eps)) with 0 by (unfold Rdiv; ring).
    assert (H1 : / 2 <= 1 / (1 + eps) <= 1).
    { split.
      - apply Rmult_le_reg_r with (1 + eps); [lra|].
        unfold Rdiv. rewrite Rmult_assoc, Rinv_l by lra. lra.
      - apply Rmult_le_reg_r with (1 + eps); [lra|].
        unfold Rdiv. rewrite Rmult_assoc, Rinv_l by lra. lra. }
    lra. }
  unfold py_min at 1. unfold py_lt at 1.
  destruct (Rlt_dec 1 v) as [Hbad|_]; [lra|].
  unfold report at 1.
  destruct (Rlt_dec (2 / 10) v) as [_|Hbad]; [|lra].
  unfold py_max, py_lt. unfold report at 1.
  destruct (Rlt_dec (2 / 10) 0) as [Hbad|_]; [lra|].
  unfold _detect_timing_deviation, correlate_same, correlate_full.
  cbn [repeat List.length Nat.add Nat.sub Nat.div Nat.divmod fst seq map
       skipn firstn nth np_sum fold_right].
  unfold np_argmax. cbn [argmax_from].
  match goal with
  | |- context [Rlt_dec ?a ?b] =>
      destruct (Rlt_dec a b) as [Hbad|_]; [exfalso; lra|]
  end.
  cbn [bind Z.of_nat Z.sub Z.opp Z.add Z.abs Z.pos_sub Pos.of_succ_nat
       Pos.succ].
  unfold py_min, py_lt.
  match goal with
  | |- context [Rlt_dec ?a ?b] =>
      destruct (Rlt_dec a b) as [_|Hbad]
  end.
  - unfold report. destruct (Rlt_dec (2 / 10) 1) as [_|Hbad]; [|lra].
    reflexivity.
  - exfalso. apply Hbad. simpl. 
    apply Rmult_lt_reg_r with ((1 + 1) * (1 / 10)); [lra|].
    unfold Rdiv. rewrite Rmult_assoc, Rinv_l by lra. lra.
Qed.

Lemma compared_sensor_reports_are_in_range_witness :
  Forall (reportable "motor_speed" "reference")
    [mkDeviationDetail "motor_speed" AMPLITUDE
       ((Rabs (0 - 1) / (Rabs 1 + eps)
         + Rabs (0 - 0) / (Rabs 0 + eps)) / 2) "reference";
     mkDeviationDetail "motor_speed" TIMING 1 "reference"].
Proof.
  exact (proj1 (compared_sensor_reports_are_in_range [0; 0] [1; 1]
                  "motor_speed" "reference" _ _
                  (flat_series_compared "motor_speed" "reference"))).
Defined.


Lemma ratio_between (lo hi ws tw : R) :
  0 < tw -> lo * tw <= ws <= hi * tw -> lo <= ws / tw <= hi.
Proof.
  intros Htw [H1 H2]. split.
  - apply Rmult_le_reg_r with tw; [exact Htw|].
    unfold Rdiv. rewrite Rmult_assoc, Rinv_l by lra. lra.
  - apply Rmult_le_reg_r with tw; [exact Htw|].
    unfold Rdiv. rewrite Rmult_assoc, Rinv_l by lra. lra.
Qed.

Lemma weights_range (t : DeviationType) : 6 / 10 <= weights t <= 1.
Proof. destruct t; simpl; lra. Qed.

Lemma weighted_sums (deviations : list DeviationDetail) (lo hi : R) :
  Forall (fun d => lo <= severity d <= hi) deviations ->
  let weighted_sum :=
    np_sum (map (fun dev => severity dev * weights (deviation_type dev))
              deviations) in
  let total_weight :=
    np_sum (map (fun dev => weights (deviation_type dev)) deviations) in
  lo * total_weight <= weighted_sum <= hi * total_weight /\
  6 / 10 * INR (List.length deviations) <= total_weight.
Proof.
  induction 1 as [|d l Hd Hl IH]; cbn zeta in *.
  - simpl. lra.
  - cbn [map np_sum fold_right List.length]. fold (np_sum
      (map (fun dev => severity dev * weights (deviation_type dev)) l)).
    fold (np_sum (map (fun dev => weights (deviation_type dev)) l)).
    rewrite S_INR. pose proof (weights_range (deviation_type d)) as Hw.
    destruct IH as [[IH1 IH2] IH3]. nra.
Qed.

Lemma health_score_of_some (d : DeviationDetail) (l : list DeviationDetail)
    (lo hi : R) :
  Forall (fun d => lo <= severity d <= hi) (d :: l) ->
  Rmax 0 (1 - hi) <= _calculate_health_score (d :: l) <= Rmax 0 (1 - lo).
Proof.
  intros Hall.
  destruct (weighted_sums (d :: l) lo hi Hall) as [[H1 H2] H3].
  unfold _calculate_health_score.
  set (ws := np_sum (map (fun dev => severity dev * weights (deviation_type dev))
                       (d :: l))) in *.
  set (tw := np_sum (map (fun dev => weights (deviation_type dev)) (d :: l)))
    in *.
  assert (Htw : 0 < tw).
  { cbn [List.length] in H3. rewrite S_INR in H3.
    pose proof (pos_INR (List.length l)). lra. }
  cbv zeta. destruct (Rlt_dec 0 tw) as [_|Hbad]; [|contradiction].
  assert (Havg : lo <= ws / tw <= hi)
    by (apply ratio_between; [exact Htw|lra]).
  unfold Rmax.
  repeat match goal with
         | |- context [Rle_dec ?a ?b] => destruct (Rle_dec a b)
         end; lra.
Qed.

(** X23. The health score has a gap: it is 1 when there is no
    deviation, and as soon as there is one, with the severities that
    [_compare_sensor_data] reports, above 0.2 and at most 1, it is at
    least 0 and at most 0.8. *)
Theorem health_score_is_one_or_at_most_four_fifths
    (deviations : list DeviationDetail) :
  Forall (fun d => 2 / 10 <= severity d <= 1) deviations ->
  match deviations with
  | [] => _calculate_health_score deviations = 1
  | _ => 0 <= _calculate_health_score deviations <= 8 / 10
  end.
Proof.
  intros Hall. destruct deviations as [|d l]; [reflexivity|].
  pose proof (health_score_of_some d l (2 / 10) 1 Hall) as H.
  unfold Rmax in H.
  repeat match type of H with
         | context [Rle_dec ?a ?b] => destruct (Rle_dec a b)
         end; lra.
Qed.

Lemma health_score_is_one_or_at_most_four_fifths_witness :
  0 <= _calculate_health_score
         [mkDeviationDetail "motor_speed" TIMING 1 "reference";
          mkDeviationDetail "motor_speed" SHAPE (1 / 2) "previous"]
    <= 8 / 10.
Proof.
  apply (health_score_is_one_or_at_most_four_fifths
           [mkDeviationDetail "motor_speed" TIMING 1 "reference";
            mkDeviationDetail "motor_speed" SHAPE (1 / 2) "previous"]).
  repeat constructor; simpl; lra.
Defined.



Lemma group_add_keys (groups : list (string * list DeviationDetail))
    (dev : DeviationDetail) (k : string) :
  In k (map fst (group_add groups dev))
  <-> In k (map fst groups) \/ k = sensor_name dev.
Proof.
  induction groups as [|[k' devs] rest IH]; cbn [group_add map fst In].
  - intuition.
  - destruct (String.eqb k' (sensor_name dev)) eqn:E; cbn [map fst In].
    + apply String.eqb_eq in E. subst. intuition.
    + rewrite IH. intuition.
Qed.

Lemma group_add_distinct (groups : list (string * list DeviationDetail))
    (dev : DeviationDetail) :
  NoDup (map fst groups) -> NoDup (map fst (group_add groups dev)).
Proof.
  induction groups as [|[k' devs] rest IH]; cbn [group_add map fst];
    intros Hnd.
  - repeat constructor. intros [].
  - apply NoDup_cons_iff in Hnd. destruct Hnd as [Hk Hrest].
    destruct (String.eqb k' (sensor_name dev)) eqn:E; cbn [map fst].
    + apply NoDup_cons; assumption.
    + apply NoDup_cons; [|apply IH; exact Hrest].
      rewrite group_add_keys. intros [Hin| ->]; [contradiction|].
      rewrite String.eqb_refl in E. discriminate E.
Qed.

Lemma grouped_keys (devs : list DeviationDetail) :
  forall groups : list (string * list DeviationDetail),
    (forall k, In k (map fst (fold_left group_add devs groups)) ->
               In k (map fst groups) \/ In k (map sensor_name devs)) /\
    (NoDup (map fst groups) ->
     NoDup (map fst (fold_left group_add devs groups))).
Proof.
  induction devs as [|d devs IH]; intros groups; cbn [fold_left map In].
  - split; auto.
  - destruct (IH (group_add groups d)) as [H1 H2]. split.
    + intros k Hk. destruct (H1 k Hk) as [Hin|Hin]; [|auto].
      apply group_add_keys in Hin. destruct Hin as [Hin| ->]; auto.
    + intros Hnd. apply H2. apply group_add_distinct. exact Hnd.
Qed.

Lemma recommend_each_names (groups : list (string * list DeviationDetail)) :
  (forall s, In s (named_sensors (recommend_each groups)) ->
             In s (map fst groups)) /\
  (NoDup (map fst groups) -> NoDup (named_sensors (recommend_each groups))).
Proof.
  induction groups as [|[k devs] rest [IH1 IH2]];
    cbn [recommend_each map fst].
  - split; [intros s []|intros _; constructor].
  - destruct (py_lt (Num (7 / 10)) (np_mean (map severity devs)));
      [|destruct (py_lt (Num (4 / 10)) (np_mean (map severity devs)))];
      cbn [named_sensors flat_map recommended_sensor app];
      fold (named_sensors (recommend_each rest)).
    + split.
      * intros s [<- |Hs]; [left; reflexivity|right; auto].
      * intros Hnd. apply NoDup_cons_iff in Hnd. destruct Hnd as [Hk Hr].
        apply NoDup_cons; auto.
    + split.
      * intros s [<- |Hs]; [left; reflexivity|right; auto].
      * intros Hnd. apply NoDup_cons_iff in Hnd. destruct Hnd as [Hk Hr].
        apply NoDup_cons; auto.
    + split.
      * intros s Hs. right. auto.
      * intros Hnd. apply NoDup_cons_iff in Hnd. tauto.
Qed.

Lemma named_sensors_firstn (n : nat) :
  forall l : list Recommendation,
    (forall s, In s (named_sensors (firstn n l)) -> In s (named_sensors l)) /\
    (NoDup (named_sensors l) -> NoDup (named_sensors (firstn n l))).
Proof.
  induction n as [|n IH]; intros [|r l]; cbn [firstn named_sensors flat_map];
    try (split; [intros s []|intros _; constructor]).
  fold (named_sensors l). fold (named_sensors (firstn n l)).
  destruct (IH l) as [H1 H2].
  destruct (recommended_sensor r) as [s0|]; cbn [app].
  - split.
    + intros s [<- |Hs]; [left; reflexivity|right; auto].
    + intros Hnd. apply NoDup_cons_iff in Hnd. destruct Hnd as [Hk Hr].
      apply NoDup_cons; auto.
  - split; auto.
Qed.

(** X25. [_generate_recommendations] returns at least one sentence and
    at most five. The sensors it asks to inspect or to monitor are
    sensors of the deviations it was given, no sensor is named twice, and
    the sentence that the cycle operates normally is returned only when
    there is no deviation at all. *)
Theorem recommendations_are_few_and_name_deviating_sensors
    (ref_deviations prev_deviations : list DeviationDetail) :
  let recommendations :=
    _generate_recommendations ref_deviations prev_deviations in
  (1 <= List.length recommendations <= 5)%nat /\
  (forall s, In s (named_sensors recommendations) ->
             In s (map sensor_name (ref_deviations ++ prev_deviations))) /\
  NoDup (named_sensors recommendations) /\
  (In OperatingNormally recommendations <->
   ref_deviations = [] /\ prev_deviations = []).
Proof.
  cbv zeta.
  assert (Hnone : _generate_recommendations [] [] = [OperatingNormally])
    by reflexivity.
  assert (Hsome : ref_deviations ++ prev_deviations <> [] ->
    _generate_recommendations ref_deviations prev_deviations
    = firstn 5
        (match recommend_each
                 (fold_left group_add (ref_deviations ++ prev_deviations) [])
         with
         | [] => [ContinueMonitoring]
         | _ :: _ =>
             recommend_each
               (fold_left group_add (ref_deviations ++ prev_deviations) [])
         end)).
  { destruct ref_deviations; [destruct prev_deviations|];
      [intros H; contradiction H|..]; reflexivity. }
  assert (Hcase : ref_deviations ++ prev_deviations = [] \/
                  ref_deviations ++ prev_deviations <> [])
    by (destruct (ref_deviations ++ prev_deviations);
        [left; reflexivity|right; discriminate]).
  destruct Hcase as [E|E].
  - apply app_eq_nil in E. destruct E as [-> ->]. rewrite Hnone.
    cbn [List.length named_sensors flat_map recommended_sensor app In].
    split; [lia|]. split; [intros s []|]. split; [constructor|].
    split; [intros _; split; reflexivity|intros _; left; reflexivity].
  - rewrite (Hsome E). clear Hsome Hnone.
    set (groups := fold_left group_add (ref_deviations ++ prev_deviations) []).
    destruct (grouped_keys (ref_deviations ++ prev_deviations) [])
      as [K1 K2]. fold groups in K1, K2.
    destruct (recommend_each_names groups) as [R1 R2].
    assert (Hno : forall groups, ~ In OperatingNormally (recommend_each groups)).
    { clear. induction groups as [|[k devs] rest IH]; cbn [recommend_each];
        [intros []|].
      destruct (py_lt _ _); [|destruct (py_lt _ _)]; cbn [In];
        intuition discriminate. }
    specialize (Hno groups).
    destruct (recommend_each groups) as [|x l] eqn:Hrec.
    + cbn [firstn List.length named_sensors flat_map recommended_sensor
           app In].
      split; [lia|]. split; [intros s []|]. split; [constructor|].
      split; [intros [Habs|[]]; discriminate Habs|].
      intros [-> ->]. contradiction E. reflexivity.
    + destruct (named_sensors_firstn 5 (x :: l)) as [F1 F2].
      split; [|split; [|split; [|split]]].
      * rewrite length_firstn. cbn [List.length]. lia.
      * intros s Hs. apply F1, R1, K1 in Hs. destruct Hs as [[]|Hs]. exact Hs.
      * apply F2, R2, K2. constructor.
      * intros Hin. exfalso. apply Hno.
        clear - Hin. revert Hin. generalize (x :: l). generalize 5%nat.
        induction n as [|n IH]; intros [|y l']; cbn [firstn In]; try tauto.
        intros [H|H]; [left; exact H|right; eauto].
      * intros [-> ->]. contradiction E. reflexivity.
Qed.

Lemma compare_sensors_reports (sensors_to_compare : list string)
    (cycle_data ref_data : CycleData) :
  forall (deviations : list DeviationDetail) (scores : list pyfloat),
    compare_sensors sensors_to_compare cycle_data ref_data
    = Ok (deviations, scores) ->
    Forall (fun d => reportable (sensor_name d) "reference" d /\
                     In (sensor_name d) sensors_to_compare /\
                     frame cycle_data (sensor_name d) <> None /\
                     frame ref_data (sensor_name d) <> None)
      deviations /\
    (scores = [] -> deviations = []) /\
    ((forall s, In s sensors_to_compare ->
                frame cycle_data s = None \/ frame ref_data s = None) ->
     scores = []).
Proof.
  induction sensors_to_compare as [|name rest IH]; intros deviations scores;
    cbn [compare_sensors].
  - intros H. inversion H; subst. repeat split; auto.
  - destruct (frame cycle_data name) as [a|] eqn:Ha;
      [destruct (frame ref_data name) as [b|] eqn:Hb|].
    + destruct (_compare_sensor_data (values a) (values b) name "reference")
        as [[devs sim]|] eqn:Hc; [|discriminate].
      cbn [bind].
      destruct (compare_sensors rest cycle_data ref_data)
        as [[ds sims]|] eqn:Hr; [|discriminate].
      cbn [bind]. intros H. inversion H; subst. clear H.
      destruct (IH ds sims eq_refl) as (I1 & I2 & I3).
      pose proof (compared_sensor_reportable _ _ _ _ _ _ Hc) as C1.
      split; [|split].
      * apply Forall_app. split.
        -- eapply Forall_impl; [|exact C1].
           intros d Hd. pose proof Hd as (Hn & _ & _). rewrite Hn.
           split; [exact Hd|]. split; [left; reflexivity|].
           split; congruence.
        -- eapply Forall_impl; [|exact I1].
           intros d (H1 & H2 & H3 & H4).
           split; [exact H1|]. split; [right; exact H2|].
           split; assumption.
      * discriminate.
      * intros Hnone. destruct (Hnone name (or_introl eq_refl)); congruence.
    + intros H. destruct (IH deviations scores H) as (I1 & I2 & I3).
      split; [|split; [exact I2|]].
      * eapply Forall_impl; [|exact I1].
        intros d (H1 & H2 & H3 & H4).
        split; [exact H1|]. split; [right; exact H2|]. split; assumption.
      * intros Hnone. apply I3. intros s Hs. apply Hnone. right. exact Hs.
    + intros H. destruct (IH deviations scores H) as (I1 & I2 & I3).
      split; [|split; [exact I2|]].
      * eapply Forall_impl; [|exact I1].
        intros d (H1 & H2 & H3 & H4).
        split; [exact H1|]. split; [right; exact H2|]. split; assumption.
      * intros Hnone. apply I3. intros s Hs. apply Hnone. right. exact Hs.
Qed.

(** X26. When [compare_cycles] returns, the two cycles exist and belong
    to the same dataset; every deviation is of a sensor found in the
    data of both cycles, compared to the reference, with a severity above
    0.2 and at most 1. When the cycles share none of the sensors to
    compare, there is no deviation, and the similarity is 0: the summary
    says that the cycles differ significantly, with 0 deviations. *)
Theorem compare_cycles_reports_shared_sensors
    (cycle ref_cycle : option CycleRow) (sensors : option (list string))
    (similarity : pyfloat) (deviations : list DeviationDetail)
    (summary : Summary) :
  compare_cycles cycle ref_cycle sensors
  = Ok (similarity, deviations, summary) ->
  exists c r : CycleRow,
    cycle = Some c /\ ref_cycle = Some r /\ dataset_id c = dataset_id r /\
    Forall (fun d => reportable (sensor_name d) "reference" d /\
                     shared_sensor c r (sensor_name d))
      deviations /\
    ((forall s, ~ shared_sensor c r s) ->
     similarity = Num 0 /\ deviations = [] /\
     summary = DifferSignificantly 0).
Proof.
  unfold compare_cycles.
  destruct cycle as [c|]; [|discriminate].
  destruct ref_cycle as [r|]; [|discriminate].
  destruct (dataset_id c =? dataset_id r)%Z eqn:Hd; [|discriminate].
  cbn [negb]. apply Z.eqb_eq in Hd.
  set (names := match sensors with
                | Some (s :: l) => s :: l
                | _ => map fst (sensor_data c)
                end).
  destruct (compare_sensors names (sensor_data c) (sensor_data r))
    as [[devs sims]|] eqn:Hc; [|discriminate].
  cbn [bind]. intros H. inversion H; subst. clear H.
  destruct (compare_sensors_reports _ _ _ _ _ Hc) as (H1 & H2 & H3).
  exists c, r. repeat split; auto.
  - eapply Forall_impl; [|exact H1].
    intros d (G1 & _ & G3 & G4). split; [exact G1|split; assumption].
  - assert (Hs : sims = []).
    { apply H3. intros s _.
      destruct (frame (sensor_data c) s) eqn:Ea; [|auto].
      destruct (frame (sensor_data r) s) eqn:Eb; [|auto].
      exfalso. apply (H s). split; congruence. }
    subst. reflexivity.
  - apply H2. apply H3. intros s _.
    destruct (frame (sensor_data c) s) eqn:Ea; [|auto].
    destruct (frame (sensor_data r) s) eqn:Eb; [|auto].
    exfalso. apply (H s). split; congruence.
  - assert (Hs : sims = []).
    { apply H3. intros s _.
      destruct (frame (sensor_data c) s) eqn:Ea; [|auto].
      destruct (frame (sensor_data r) s) eqn:Eb; [|auto].
      exfalso. apply (H s). split; congruence. }
    rewrite (H2 Hs). subst.
    unfold _generate_comparison_summary, py_lt.
    destruct (Rlt_dec (9 / 10) 0) as [Hbad|_]; [lra|].
    destruct (Rlt_dec (7 / 10) 0) as [Hbad|_]; [lra|]. reflexivity.
Qed.

Lemma compare_cycles_reports_shared_sensors_witness :
  let cycle := mkCycleRow 1 [("motor_speed"%string, [(0, 0); (1, 0)])] in
  let ref_cycle := mkCycleRow 1 [("motor_speed"%string, [(0, 1); (1, 1)])] in
  exists similarity deviations summary,
    compare_cycles (Some cycle) (Some ref_cycle) None
    = Ok (similarity, deviations, summary) /\
    List.length deviations = 2%nat /\
    Forall (fun d => reportable (sensor_name d) "reference" d /\
                     shared_sensor cycle ref_cycle (sensor_name d))
      deviations.
Proof.
  intros cycle ref_cycle.
  assert (H : compare_cycles (Some cycle) (Some ref_cycle) None
              = Ok (NaN,
                    [mkDeviationDetail "motor_speed" AMPLITUDE
                       ((Rabs (0 - 1) / (Rabs 1 + eps)
                         + Rabs (0 - 0) / (Rabs 0 + eps)) / 2) "reference";
                     mkDeviationDetail "motor_speed" TIMING 1 "reference"],
                    DifferSignificantly 2)).
  { unfold compare_cycles, cycle, ref_cycle.
    cbn [dataset_id sensor_data Z.eqb Pos.eqb negb map fst compare_sensors
         frame String.eqb Ascii.eqb Bool.eqb values snd].
    rewrite flat_series_compared. reflexivity. }
  do 3 eexists. split; [exact H|]. split; [reflexivity|].
  destruct (compare_cycles_reports_shared_sensors _ _ _ _ _ _ H)
    as (c & r & Hc & Hr & _ & Hall & _).
  inversion Hc; inversion Hr; subst. exact Hall.
Defined.

End AnalysisFlowFacts.

(** *** The contributors to an abnormal stop *)

Section RootCauseFacts.

Import NumPy Analysis AnalysisFlow RootCause.
Local Open Scope R_scope.

Lemma window_score_range (window_data ref_data : DataFrame)
    (window_start window_end : R) (v : R) :
  fst (fst (_calculate_window_deviation window_data ref_data window_start
              window_end)) = Num v ->
  0 <= v <= 1.
Proof.
  unfold _calculate_window_deviation.
  destruct window_data as [|row rows].
  - cbn. intros H. inversion H. lra.
  - cbv zeta. cbn [fst snd]. intros Hv.
    split; [|eapply py_min_one_le; exact Hv].
    unfold py_min, py_lt in Hv.
    destruct (np_mean (values (row :: rows))) as [wm|];
      [|discriminate Hv].
    destruct (pd_std (values (row :: rows))) as [wsd|];
      destruct (np_mean (values ref_data)) as [rm|];
      destruct (pd_std (values ref_data)) as [rsd|];
      cbn [lift2] in Hv; try discriminate Hv.
    pose proof (guarded_ratio_nonneg (wm - rm) rm).
    pose proof (guarded_ratio_nonneg (wsd - rsd) rsd).
    destruct (Rlt_dec 1 _) in Hv; inversion Hv; lra.
Qed.

Lemma window_score_of_one_sample (row : R * R) (ref_data : DataFrame)
    (window_start window_end : R) :
  fst (fst (_calculate_window_deviation [row] ref_data window_start
              window_end)) = NaN.
Proof.
  unfold _calculate_window_deviation. cbv zeta.
  cbn [fst snd values map pd_std].
  destruct (np_mean [snd row]); destruct (np_mean (values ref_data));
    reflexivity.
Qed.

Lemma window_kind_and_time (row : R * R) (rows ref_data : DataFrame)
    (window_start window_end : R) :
  let kind :=
    snd (fst (_calculate_window_deviation (row :: rows) ref_data
                window_start window_end)) in
  (kind = AMPLITUDE \/ kind = SHAPE) /\
  snd (_calculate_window_deviation (row :: rows) ref_data window_start
         window_end)
  = fst (last (row :: rows) (0, 0)).
Proof.
  unfold _calculate_window_deviation. cbv zeta. cbn [fst snd].
  split; [|reflexivity].
  destruct (py_lt _ _); auto.
Qed.

(** X27. The score of [_calculate_window_deviation] is a number between
    0 and 1, or it is not a number; and it is not a number whenever the
    window holds a single sample, of which pandas has no standard
    deviation. For a window that is not empty the deviation is an
    amplitude or a shape deviation, timed at the last sample of the
    window. *)
Theorem window_deviation_score_range
    (window_data ref_data : DataFrame) (window_start window_end : R) :
  let score :=
    fst (fst (_calculate_window_deviation window_data ref_data window_start
                window_end)) in
  let kind :=
    snd (fst (_calculate_window_deviation window_data ref_data window_start
                window_end)) in
  let time :=
    snd (_calculate_window_deviation window_data ref_data window_start
           window_end) in
  (forall v, score = Num v -> 0 <= v <= 1) /\
  (List.length window_data = 1%nat -> score = NaN) /\
  (window_data <> [] ->
   (kind = AMPLITUDE \/ kind = SHAPE) /\
   time = fst (last window_data (0, 0))).
Proof.
  cbv zeta. split; [|split].
  - intros v. apply window_score_range.
  - destruct window_data as [|row [|row' rows]]; try discriminate.
    intros _. apply window_score_of_one_sample.
  - destruct window_data as [|row rows]; [intros H; contradiction|].
    intros _. apply window_kind_and_time.
Qed.

Lemma insert_contributor_spec (x : RootCauseContributor)
    (l : list RootCauseContributor) :
  descending (map contribution_score l) ->
  descending (map contribution_score (insert_contributor x l)) /\
  (forall y, In y (insert_contributor x l) <-> y = x \/ In y l).
Proof.
  induction l as [|y l IH]; cbn [insert_contributor map descending].
  - intros _. split; [split; [constructor|exact I]|].
    intros y. cbn. intuition.
  - intros [Hy Hl]. destruct (IH Hl) as [IH1 IH2].
    destruct (Rlt_dec (contribution_score y) (contribution_score x)) as [Hlt|Hge];
      cbn [map descending].
    + split; [|intros z; cbn; intuition].
      split; [|split; assumption].
      constructor; [lra|].
      eapply Forall_impl; [|exact Hy]. cbn. intros; lra.
    + split; [|intros z; cbn; rewrite IH2; intuition].
      split; [|exact IH1].
      rewrite Forall_forall. intros s Hs. apply in_map_iff in Hs.
      destruct Hs as (z & <- & Hz). apply IH2 in Hz.
      destruct Hz as [->|Hz]; [lra|].
      rewrite Forall_forall in Hy. apply Hy. apply in_map. exact Hz.
Qed.

Lemma sort_contributors_spec (l : list RootCauseContributor) :
  descending (map contribution_score (sort_contributors l)) /\
  (forall y, In y (sort_contributors l) <-> In y l).
Proof.
  unfold sort_contributors.
  assert (H : forall acc,
             descending (map contribution_score acc) ->
             descending (map contribution_score
                           (fold_left (fun s x => insert_contributor x s)
                              l acc)) /\
             (forall y, In y (fold_left (fun s x => insert_contributor x s)
                                l acc)
                        <-> In y acc \/ In y l)).
  { induction l as [|x l IH]; intros acc Hacc; cbn [fold_left].
    - split; [exact Hacc|]. intros y. cbn. intuition.
    - destruct (insert_contributor_spec x acc Hacc) as [H1 H2].
      destruct (IH _ H1) as [G1 G2]. split; [exact G1|].
      intros y. rewrite G2, H2. cbn. intuition. }
  destruct (H [] I) as [H1 H2]. split; [exact H1|].
  intros y. rewrite H2. cbn. intuition.
Qed.

Lemma window_contributors_spec (cycle_data ref_data : CycleData)
    (window_start stop_time : R) (c : RootCauseContributor) :
  In c (window_contributors cycle_data ref_data window_start stop_time) ->
  3 / 10 < contribution_score c <= 1 /\
  (exists series ref_series,
     In (c_sensor_name c, series) cycle_data /\
     frame ref_data (c_sensor_name c) = Some ref_series /\
     (2 <= List.length (in_window window_start stop_time series))%nat) /\
  (c_deviation_type c = AMPLITUDE \/ c_deviation_type c = SHAPE) /\
  description c
  = (if Rlt_dec (7 / 10) (contribution_score c) then high
     else if Rlt_dec (4 / 10) (contribution_score c) then moderate else low,
     c_deviation_type c).
Proof.
  induction cycle_data as [|[name series] rest IH];
    cbn [window_contributors]; [intros []|].
  assert (Hrest :
    In c (window_contributors rest ref_data window_start stop_time) ->
    3 / 10 < contribution_score c <= 1 /\
    (exists series0 ref_series,
       In (c_sensor_name c, series0) ((name, series) :: rest) /\
       frame ref_data (c_sensor_name c) = Some ref_series /\
       (2 <= List.length (in_window window_start stop_time series0))%nat) /\
    (c_deviation_type c = AMPLITUDE \/ c_deviation_type c = SHAPE) /\
    description c
    = (if Rlt_dec (7 / 10) (contribution_score c) then high
       else if Rlt_dec (4 / 10) (contribution_score c) then moderate else low,
       c_deviation_type c)).
  { intros Hin. destruct (IH Hin) as (H1 & (s & r & H2 & H3 & H4) & H5).
    split; [exact H1|]. split; [|exact H5].
    exists s, r. split; [right; exact H2|]. split; assumption. }
  destruct (frame ref_data name) as [ref_series|] eqn:Hf; [|exact Hrest].
  destruct (in_window window_start stop_time series) as [|row rows] eqn:Hw;
    [exact Hrest|].
  assert (R1 := fun v => window_score_range (row :: rows) ref_series
                          window_start stop_time v).
  assert (R2 : List.length (row :: rows) = 1%nat ->
               fst (fst (_calculate_window_deviation (row :: rows) ref_series
                           window_start stop_time)) = NaN).
  { destruct rows; [|discriminate].
    intros _. apply window_score_of_one_sample. }
  assert (R3 := fun _ : row :: rows <> [] =>
                  window_kind_and_time row rows ref_series window_start
                    stop_time).
  cbv zeta in R3.
  destruct (_calculate_window_deviation (row :: rows) ref_series window_start
              stop_time) as [[score kind] time].
  cbn [fst snd] in R1, R2, R3.
  destruct score as [score|]; [|exact Hrest].
  destruct (Rlt_dec (3 / 10) score) as [Hs|_]; [|exact Hrest].
  intros [<-|Hin]; [|exact (Hrest Hin)].
  cbn [contribution_score c_sensor_name c_deviation_type description].
  split; [split; [exact Hs|apply (R1 score eq_refl)]|].
  split; [|split; [apply R3; discriminate|reflexivity]].
  exists series, ref_series. split; [left; reflexivity|].
  split; [exact Hf|]. rewrite Hw.
  destruct rows; [|cbn; lia].
  specialize (R2 eq_refl). discriminate R2.
Qed.

(** X28. In the response of [analyze_root_cause] the window is the one
    of the analysis, and the contributors are ranked from the largest
    score down. Each has a score above 0.3 and at most 1, for an
    amplitude or a shape deviation of a sensor that the reference cycle
    has too and that has two samples or more in the window. The
    confidence is 0.1 when there is no contributor, and the score of
    the first contributor, capped at 0.95, when there is one. *)
Theorem root_cause_contributors_are_ranked
    (cycle : Cycle) (cycle_data : CycleData) (time_window_seconds : option R)
    (ref_cycle : option CycleData) (response : RootCauseAnalysisResponse) :
  RootCause.analyze_root_cause (Some (cycle, cycle_data)) time_window_seconds
    ref_cycle = Some response ->
  Analysis.analyze_root_cause (Some cycle) time_window_seconds
    (option_map (fun _ => cycle) ref_cycle)
  = Some (analysis_window_start response, analysis_window_end response) /\
  descending (map contribution_score (ranked_contributors response)) /\
  Forall (fun c =>
            3 / 10 < contribution_score c <= 1 /\
            (c_deviation_type c = AMPLITUDE \/ c_deviation_type c = SHAPE) /\
            exists series ref_data ref_series,
              ref_cycle = Some ref_data /\
              In (c_sensor_name c, series) cycle_data /\
              frame ref_data (c_sensor_name c) = Some ref_series /\
              (2 <= List.length
                      (in_window (analysis_window_start response)
                         (analysis_window_end response) series))%nat)
    (ranked_contributors response) /\
  match ranked_contributors response with
  | [] => most_likely_cause response = NoClearDeviation /\
          confidence response = 1 / 10
  | top :: _ =>
      most_likely_cause response = AbnormalBehaviorIn (c_sensor_name top) /\
      confidence response = Rmin (contribution_score top) (95 / 100) /\
      3 / 10 < confidence response <= 95 / 100
  end.
Proof.
  unfold RootCause.analyze_root_cause, Analysis.analyze_root_cause.
  destruct (is_complete cycle); [discriminate|].
  destruct ref_cycle as [ref_data|]; [|discriminate].
  cbn [option_map].
  set (ws := window_start cycle time_window_seconds).
  set (found := window_contributors cycle_data ref_data ws (end_time cycle)).
  destruct (sort_contributors_spec found) as [Hdesc Hin].
  assert (Hall : forall c, In c (sort_contributors found) ->
            3 / 10 < contribution_score c <= 1 /\
            (c_deviation_type c = AMPLITUDE \/ c_deviation_type c = SHAPE) /\
            exists series ref_data0 ref_series,
              Some ref_data = Some ref_data0 /\
              In (c_sensor_name c, series) cycle_data /\
              frame ref_data0 (c_sensor_name c) = Some ref_series /\
              (2 <= List.length (in_window ws (end_time cycle) series))%nat).
  { intros c Hc. apply Hin in Hc.
    destruct (window_contributors_spec _ _ _ _ _ Hc)
      as (H1 & (s & r & H2 & H3 & H4) & H5 & _).
    split; [exact H1|]. split; [exact H5|].
    exists s, ref_data, r. auto. }
  destruct (sort_contributors found) as [|top others] eqn:Hsort;
    intros H; inversion H; subst; clear H;
    cbn [analysis_window_start analysis_window_end ranked_contributors
         most_likely_cause confidence].
  - repeat split; auto.
  - split; [reflexivity|]. split; [exact Hdesc|].
    split; [rewrite Forall_forall; exact Hall|].
    destruct (Hall top (or_introl eq_refl)) as (Hs & _).
    split; [reflexivity|].
    unfold Rmin.
    destruct (Rlt_dec (95 / 100) (contribution_score top));
      destruct (Rle_dec (contribution_score top) (95 / 100)); lra.
Qed.

Lemma pd_std_repeat (c : R) (n : nat) : pd_std (repeat c (S (S n))) = Num 0.
Proof.
  change (pd_std (repeat c (S (S n))))
    with (match np_mean (repeat c (S (S n))) with
          | Num m =>
              Num (sqrt (np_sum (map (fun x => (x - m) * (x - m))
                                   (repeat c (S (S n))))
                         / (INR (List.length (repeat c (S (S n)))) - 1)))
          | NaN => NaN
          end).
  rewrite np_mean_repeat, map_repeat.
  replace ((c - c) * (c - c)) with 0 by ring.
  rewrite np_sum_repeat. f_equal.
  replace (INR (S (S n)) * 0 / (INR (List.length (repeat c (S (S n)))) - 1))
    with 0 by (unfold Rdiv; ring).
  apply sqrt_0.
Qed.

Lemma stalled_sensor_is_the_cause :
  let v := (Rabs (0 - 1) / (Rabs 1 + eps)
            + Rabs (0 - 0) / (Rabs 0 + eps)) / 2 in
  RootCause.analyze_root_cause
    (Some (mkCycle 0 10 10 false,
           [("motor_speed"%string, [(8, 1); (9, 0); (10, 0)])]))
    None (Some [("motor_speed"%string, [(0, 1); (1, 1)])])
  = Some (mkRootCauseAnalysisResponse 10 (10 - 10 * (1 / 10)) 10
            [mkRootCauseContributor "motor_speed" v AMPLITUDE 10
               (moderate, AMPLITUDE)]
            (AbnormalBehaviorIn "motor_speed") v).
Proof.
  intros v.
  pose proof eps_pos as He.
  assert (Heps : eps <= 1 / 10).
  { unfold eps. apply Rmult_le_reg_r with 10000000000; [lra|].
    rewrite Rinv_l; lra. }
  assert (Hv : 4 / 10 < v <= 5 / 10).
  { unfold v.
    replace (Rabs (0 - 1)) with 1 by (rewrite Rabs_left; lra).
    replace (Rabs (0 - 0)) with 0 by (rewrite Rminus_diag, Rabs_R0; lra).
    rewrite Rabs_R0, Rabs_R1.
    replace (0 / (0 + eps)) with 0 by (unfold Rdiv; ring).
    assert (H1 : 9 / 10 <= 1 / (1 + eps) <= 1)
      by (apply ratio_between; lra).
    lra. }
  unfold RootCause.analyze_root_cause.
  cbn [is_complete end_time window_start start_time duration
       window_contributors frame String.eqb Ascii.eqb Bool.eqb].
  unfold in_window. cbn [filter fst].
  repeat match goal with
         | |- context [Rle_dec ?a ?b] =>
             destruct (Rle_dec a b); try (exfalso; lra)
         end.
  cbn [andb].
  unfold _calculate_window_deviation.
  cbn [values map snd last fst].
  change [0; 0] with (repeat 0 2). change [1; 1] with (repeat 1 2).
  rewrite (np_mean_repeat 0 1), (np_mean_repeat 1 1),
    (pd_std_repeat 0 0), (pd_std_repeat 1 0).
  cbn [lift2]. fold v.
  assert (Hlt : py_lt (Num (Rabs (0 - 0) / (Rabs 0 + eps)))
                  (Num (Rabs (0 - 1) / (Rabs 1 + eps))) = true).
  { unfold py_lt.
    replace (Rabs (0 - 1)) with 1 by (rewrite Rabs_left; lra).
    replace (Rabs (0 - 0)) with 0 by (rewrite Rminus_diag, Rabs_R0; lra).
    rewrite Rabs_R0, Rabs_R1.
    replace (0 / (0 + eps)) with 0 by (unfold Rdiv; ring).
    assert (H1 : 9 / 10 <= 1 / (1 + eps) <= 1)
      by (apply ratio_between; lra).
    destruct (Rlt_dec 0 (1 / (1 + eps))); [reflexivity|lra]. }
  rewrite Hlt.
  unfold py_min, py_lt.
  destruct (Rlt_dec 1 v); [exfalso; lra|].
  destruct (Rlt_dec (3 / 10) v); [|exfalso; lra].
  unfold sort_contributors, _describe_deviation.
  cbn [fold_left insert_contributor contribution_score c_sensor_name].
  destruct (Rlt_dec (7 / 10) v); [exfalso; lra|].
  destruct (Rlt_dec (4 / 10) v); [|exfalso; lra].
  destruct (Rlt_dec (95 / 100) v); [exfalso; lra|].
  reflexivity.
Qed.

Lemma root_cause_contributors_are_ranked_witness :
  exists response : RootCauseAnalysisResponse,
    RootCause.analyze_root_cause
      (Some (mkCycle 0 10 10 false,
             [("motor_speed"%string, [(8, 1); (9, 0); (10, 0)])]))
      None (Some [("motor_speed"%string, [(0, 1); (1, 1)])])
    = Some response /\
    List.length (ranked_contributors response) = 1%nat /\
    3 / 10 < confidence response <= 95 / 100.
Proof.
  eexists. split; [apply stalled_sensor_is_the_cause|].
  split; [reflexivity|].
  destruct (root_cause_contributors_are_ranked _ _ _ _ _
              stalled_sensor_is_the_cause) as (_ & _ & _ & H).
  cbn [ranked_contributors] in H. apply H.
Defined.

End RootCauseFacts.

(** *** Normalised signals and ranked sensors *)

Section RankingFacts.

Import NumPy Deviation.
Local Open Scope R_scope.

Lemma np_min_spec (rest : list R) :
  forall v : R,
    Forall (fun x => np_min v rest <= x) (v :: rest) /\
    In (np_min v rest) (v :: rest).
Proof.
  unfold np_min.
  induction rest as [|x rest IH]; intros v; cbn [fold_left].
  - split; [repeat constructor; lra|left; reflexivity].
  - destruct (IH (Rmin v x)) as [H1 H2].
    inversion H1 as [|? ? Hm Hrest]; subst.
    pose proof (Rmin_l v x). pose proof (Rmin_r v x).
    split.
    + constructor; [lra|]. constructor; [lra|exact Hrest].
    + destruct H2 as [H2|H2]; [|right; right; exact H2].
      rewrite <- H2. unfold Rmin. destruct (Rle_dec v x); cbn; auto.
Qed.

Lemma np_max_spec (rest : list R) :
  forall v : R,
    Forall (fun x => x <= np_max v rest) (v :: rest) /\
    In (np_max v rest) (v :: rest).
Proof.
  unfold np_max.
  induction rest as [|x rest IH]; intros v; cbn [fold_left].
  - split; [repeat constructor; lra|left; reflexivity].
  - destruct (IH (Rmax v x)) as [H1 H2].
    inversion H1 as [|? ? Hm Hrest]; subst.
    pose proof (Rmax_l v x). pose proof (Rmax_r v x).
    split.
    + constructor; [lra|]. constructor; [lra|exact Hrest].
    + destruct H2 as [H2|H2]; [|right; right; exact H2].
      rewrite <- H2. unfold Rmax. destruct (Rle_dec v x); cbn; auto.
Qed.

(** X29. [normalize_signal] keeps the length of a signal and maps every
    sample into [0, 1]. Unless the signal is empty, some sample is
    mapped to 0; and as soon as two samples differ, some sample is
    mapped to 1. *)
Theorem normalize_signal_fills_the_unit_interval (values : list R) :
  List.length (normalize_signal values) = List.length values /\
  Forall (fun y => 0 <= y <= 1) (normalize_signal values) /\
  (values <> [] -> In 0 (normalize_signal values)) /\
  ((exists x y, In x values /\ In y values /\ x <> y) ->
   In 1 (normalize_signal values)).
Proof.
  split; [apply length_normalize_signal|].
  destruct values as [|v rest].
  { cbn. split; [constructor|]. split; [intros H; contradiction|].
    intros (x & _ & [] & _). }
  rewrite normalize_signal_cons.
  destruct (np_min_spec rest v) as [Hmin Hmin_in].
  destruct (np_max_spec rest v) as [Hmax Hmax_in].
  set (lo := np_min v rest) in *. set (hi := np_max v rest) in *.
  rewrite Forall_forall in Hmin, Hmax.
  destruct (Req_dec_T hi lo) as [Heq|Hne].
  - split; [|split].
    + rewrite Forall_forall. intros y Hy. apply in_map_iff in Hy.
      destruct Hy as (x & <- & _). lra.
    + intros _. left. reflexivity.
    + intros (x & y & Hx & Hy & Hxy). exfalso. apply Hxy.
      pose proof (Hmin x Hx). pose proof (Hmax x Hx).
      pose proof (Hmin y Hy). pose proof (Hmax y Hy). lra.
  - assert (Hgap : 0 < hi - lo).
    { pose proof (Hmin hi Hmax_in). lra. }
    split; [|split].
    + rewrite Forall_forall. intros y Hy. apply in_map_iff in Hy.
      destruct Hy as (x & <- & Hx).
      pose proof (Hmin x Hx). pose proof (Hmax x Hx).
      split.
      * apply Rmult_le_reg_r with (hi - lo); [exact Hgap|].
        unfold Rdiv. rewrite Rmult_assoc, Rinv_l by lra. lra.
      * apply Rmult_le_reg_r with (hi - lo); [exact Hgap|].
        unfold Rdiv. rewrite Rmult_assoc, Rinv_l by lra. lra.
    + intros _. apply in_map_iff. exists lo. split; [|exact Hmin_in].
      unfold Rdiv. ring.
    + intros _. apply in_map_iff. exists hi. split; [|exact Hmax_in].
      unfold Rdiv. apply Rinv_r. lra.
Qed.

Import Ranking.

Lemma x_lt_asym (a b : xreal) : x_lt a b = true -> x_lt b a = false.
Proof.
  destruct a as [x| |], b as [y| |]; cbn;
    try discriminate; try reflexivity.
  destruct (Rlt_dec x y); [|discriminate].
  intros _. destruct (Rlt_dec y x); [lra|reflexivity].
Qed.

Lemma x_lt_below (a b c : xreal) :
  x_lt b a = true -> x_lt b c = false -> x_lt a c = false.
Proof.
  destruct a as [x| |], b as [y| |], c as [z| |]; cbn;
    try discriminate; try reflexivity.
  destruct (Rlt_dec y x); [|discriminate].
  destruct (Rlt_dec y z); [discriminate|].
  intros _ _. destruct (Rlt_dec x z); [lra|reflexivity].
Qed.

Lemma insert_ranked_spec (x : SensorDeviation) (l : list SensorDeviation) :
  keys_descending (map rank_key l) ->
  keys_descending (map rank_key (insert_ranked x l)) /\
  (forall y, In y (insert_ranked x l) <-> y = x \/ In y l) /\
  List.length (insert_ranked x l) = S (List.length l).
Proof.
  induction l as [|y l IH]; cbn [insert_ranked map keys_descending].
  - intros _. split; [split; [constructor|exact I]|].
    split; [intros y; cbn; intuition|reflexivity].
  - intros [Hy Hl]. destruct (IH Hl) as (IH1 & IH2 & IH3).
    destruct (x_lt (rank_key y) (rank_key x)) eqn:E;
      cbn [map keys_descending List.length].
    + split; [|split; [intros z; cbn; intuition|reflexivity]].
      split; [|split; assumption].
      constructor; [apply x_lt_asym; exact E|].
      eapply Forall_impl; [|exact Hy]. cbn. intros k Hk.
      eapply x_lt_below; eassumption.
    + split; [|split; [intros z; cbn; rewrite IH2; intuition
                      |rewrite IH3; reflexivity]].
      split; [|exact IH1].
      rewrite Forall_forall. intros k Hk. apply in_map_iff in Hk.
      destruct Hk as (z & <- & Hz). apply IH2 in Hz.
      destruct Hz as [-> | Hz]; [exact E|].
      rewrite Forall_forall in Hy. apply Hy. apply in_map. exact Hz.
Qed.

Lemma sort_ranked_spec (l : list SensorDeviation) :
  keys_descending (map rank_key (sort_ranked l)) /\
  (forall y, In y (sort_ranked l) <-> In y l) /\
  List.length (sort_ranked l) = List.length l.
Proof.
  unfold sort_ranked.
  assert (H : forall acc,
             keys_descending (map rank_key acc) ->
             keys_descending
               (map rank_key
                  (fold_left (fun s x => insert_ranked x s) l acc)) /\
             (forall y, In y (fold_left (fun s x => insert_ranked x s) l acc)
                        <-> In y acc \/ In y l) /\
             List.length (fold_left (fun s x => insert_ranked x s) l acc)
             = (List.length acc + List.length l)%nat).
  { induction l as [|x l IH]; intros acc Hacc; cbn [fold_left List.length].
    - split; [exact Hacc|]. split; [intros y; cbn; intuition|lia].
    - destruct (insert_ranked_spec x acc Hacc) as (H1 & H2 & H3).
      destruct (IH _ H1) as (G1 & G2 & G3). split; [exact G1|].
      split; [intros y; rewrite G2, H2; cbn; intuition|].
      rewrite G3, H3. lia. }
  destruct (H [] I) as (H1 & H2 & H3). split; [exact H1|].
  split; [intros y; rewrite H2; cbn; intuition|exact H3].
Qed.

Lemma enumerate_ranks_spec (l : list SensorDeviation) :
  forall i : nat,
    map d_contribution_rank (enumerate_ranks i l) = seq i (List.length l) /\
    map rank_key (enumerate_ranks i l) = map rank_key l /\
    map d_sensor_id (enumerate_ranks i l) = map d_sensor_id l /\
    map d_sensor_name (enumerate_ranks i l) = map d_sensor_name l /\
    map d_severity (enumerate_ranks i l) = map d_severity l.
Proof.
  induction l as [|d l IH]; intros i; cbn [enumerate_ranks map List.length seq].
  - repeat split.
  - destruct (IH (S i)) as (H1 & H2 & H3 & H4 & H5).
    rewrite H1, H2, H3, H4, H5. repeat split.
Qed.

Lemma analyze_each_analysed
    (savgol_filter : list R -> nat -> nat -> outcome (list R))
    (reference_samples : list (string * list R)) :
  forall (completed_samples : list (string * list R))
         (deviations : list SensorDeviation),
    analyze_each savgol_filter completed_samples reference_samples
    = Ok deviations ->
    Forall (analysed completed_samples reference_samples) deviations /\
    (List.length deviations <= List.length completed_samples)%nat.
Proof.
  induction completed_samples as [|[sensor values] rest IH];
    intros deviations; cbn [analyze_each].
  - intros H. inversion H. split; [constructor|apply Nat.le_refl].
  - assert (Hweak : forall l,
              Forall (analysed rest reference_samples) l ->
              Forall (analysed ((sensor, values) :: rest) reference_samples) l).
    { intros l. apply Forall_impl. intros d (H1 & H2 & H3).
      split; [right; exact H1|split; assumption]. }
    destruct (lookup reference_samples sensor) as [reference_values|] eqn:Hl.
    + destruct (analyze_sensor savgol_filter sensor sensor values
                  reference_values) as [d|] eqn:Hd; [|discriminate].
      cbn [bind].
      destruct (analyze_each savgol_filter rest reference_samples)
        as [ds|] eqn:Hr; [|discriminate].
      cbn [bind]. intros H. inversion H; subst. clear H.
      destruct (IH ds eq_refl) as [I1 I2].
      split; [|cbn [List.length]; lia].
      constructor; [|apply Hweak; exact I1].
      unfold analyze_sensor in Hd.
      destruct (dtw_distance _ _) as [dtw|]; [|discriminate Hd].
      destruct (compute_deviation_metrics values reference_values)
        as [metrics|]; [|discriminate Hd].
      cbn [bind] in Hd. inversion Hd; subst.
      unfold analysed. cbn [d_sensor_id d_sensor_name map fst].
      split; [left; reflexivity|]. split; [congruence|reflexivity].
    + intros H. destruct (IH deviations H) as [I1 I2].
      split; [apply Hweak; exact I1|cbn [List.length]; lia].
Qed.

Lemma severity_scores_range (severity : string) :
  0 <= severity_scores severity <= 1.
Proof.
  unfold severity_scores.
  repeat match goal with
         | |- context [String.eqb ?a ?b] => destruct (String.eqb a b)
         end; lra.
Qed.

Lemma health_of_range (l : list SensorDeviation) :
  exists h : R, health_of l = Num h /\ 0 <= h <= 100.
Proof.
  destruct l as [|d l].
  - exists 100. split; [reflexivity|lra].
  - rewrite health_of_nonempty. eexists. split; [reflexivity|].
    assert (Hsum : 0 <= np_sum (map (fun d => severity_scores (d_severity d))
                                  (d :: l))
                   <= INR (List.length (d :: l))).
    { induction (d :: l) as [|x xs IH].
      - cbn. lra.
      - cbn [map np_sum fold_right List.length]. rewrite S_INR.
        fold (np_sum (map (fun d => severity_scores (d_severity d)) xs)).
        pose proof (severity_scores_range (d_severity x)). lra. }
    assert (Hn : 0 < INR (List.length (d :: l)))
      by (apply lt_0_INR; cbn; lia).
    set (total := np_sum (map (fun d => severity_scores (d_severity d))
                            (d :: l))) in *.
    assert (Hb : 0 * INR (List.length (d :: l)) <= total
                 <= 1 * INR (List.length (d :: l))) by lra.
    pose proof (ratio_between 0 1 _ _ Hn Hb) as Hr. lra.
Qed.

Lemma ranked_sensors_keep (P : SensorDeviation -> Prop)
    (deviations : list SensorDeviation) :
  (forall d i, P d -> P (set_contribution_rank d i)) ->
  Forall P deviations ->
  Forall P (enumerate_ranks 1 (sort_ranked deviations)).
Proof.
  intros Hrank Hall.
  destruct (sort_ranked_spec deviations) as (_ & Hin & _).
  assert (Hsorted : Forall P (sort_ranked deviations)).
  { rewrite Forall_forall in *. intros d Hd. apply Hall, Hin, Hd. }
  clear Hin. revert Hsorted. generalize 1%nat.
  induction (sort_ranked deviations) as [|d l IH]; intros i Hl;
    cbn [enumerate_ranks]; [constructor|].
  inversion Hl; subst. constructor; auto.
Qed.

Lemma analyze_each_severities
    (savgol_filter : list R -> nat -> nat -> outcome (list R))
    (reference_samples : list (string * list R)) :
  forall (completed_samples : list (string * list R))
         (deviations : list SensorDeviation),
    analyze_each savgol_filter completed_samples reference_samples
    = Ok deviations ->
    Forall (fun d => d_dtw_distance d = XNaN ->
                     d_severity d = "critical"%string) deviations.
Proof.
  induction completed_samples as [|[sensor values] rest IH];
    intros deviations; cbn [analyze_each].
  - intros H. inversion H. constructor.
  - destruct (lookup reference_samples sensor) as [reference_values|];
      [|apply IH].
    destruct (analyze_sensor savgol_filter sensor sensor values
                reference_values) as [d|] eqn:Hd; [|discriminate].
    cbn [bind].
    destruct (analyze_each savgol_filter rest reference_samples)
      as [ds|]; [|discriminate].
    cbn [bind]. intros H. inversion H; subst. clear H.
    constructor; [|apply IH; reflexivity].
    unfold analyze_sensor in Hd.
    destruct (dtw_distance _ _) as [dtw|]; [|discriminate Hd].
    destruct (compute_deviation_metrics values reference_values)
      as [metrics|]; [|discriminate Hd].
    cbn [bind] in Hd. inversion Hd; subst.
    cbn [d_dtw_distance d_severity]. intros ->.
    unfold combined_score, severity_of, anomaly_threshold.
    destruct (Rlt_dec (7 / 10) 1); [reflexivity|lra].
Qed.

(** X30. When [analyze_cycle] returns, the sensors of its result are
    the sensors that both cycles have, each named by its id, and ranked
    1, 2, 3 and so on in the order of the result. When every DTW
    distance in the result is a number, this order runs from the
    largest sum of the two distances down. A sensor whose DTW distance
    is not a number, as it is for a single sample against a longer
    series, is [critical]. The health score is a number between 0 and
    100, and the anomaly flag is set exactly if it is below 70. *)
Theorem analyze_cycle_ranks_the_sensors
    (savgol_filter : list R -> nat -> nat -> outcome (list R))
    (cycle reference_cycle comparison : string)
    (completed_samples reference_samples : list (string * list R))
    (result : CycleAnalysisResult) :
  analyze_cycle savgol_filter cycle completed_samples reference_samples
    reference_cycle comparison = Ok result ->
  let ranked := sensor_deviations result in
  map d_contribution_rank ranked = seq 1 (List.length ranked) /\
  (Forall (fun d => d_dtw_distance d <> XNaN) ranked ->
   keys_descending (map rank_key ranked)) /\
  Forall (fun d => d_dtw_distance d = XNaN ->
                   d_severity d = "critical"%string) ranked /\
  (List.length ranked <= List.length completed_samples)%nat /\
  Forall (analysed completed_samples reference_samples) ranked /\
  exists h : R,
    overall_health_score result = Num h /\ 0 <= h <= 100 /\
    (anomaly_flag result = true <-> h < 70).
Proof.
  unfold analyze_cycle.
  destruct (analyze_each savgol_filter completed_samples reference_samples)
    as [deviations|] eqn:He; [|discriminate].
  cbn [bind]. intros H. inversion H; subst. clear H.
  cbn [sensor_deviations overall_health_score anomaly_flag].
  destruct (analyze_each_analysed _ _ _ _ He) as [A1 A2].
  pose proof (analyze_each_severities _ _ _ _ He) as A3.
  destruct (sort_ranked_spec deviations) as (S1 & S2 & S3).
  destruct (enumerate_ranks_spec (sort_ranked deviations) 1)
    as (E1 & E2 & _).
  assert (Hlen : List.length (enumerate_ranks 1 (sort_ranked deviations))
                 = List.length deviations).
  { rewrite <- (length_map d_contribution_rank), E1, length_seq. exact S3. }
  split; [rewrite E1, Hlen, S3; reflexivity|].
  split; [intros _; rewrite E2; exact S1|].
  split; [apply ranked_sensors_keep; [intros d i Hd; exact Hd|exact A3]|].
  split; [rewrite Hlen; exact A2|].
  split; [apply ranked_sensors_keep; [intros d i Hd; exact Hd|exact A1]|].
  destruct (health_of_range (enumerate_ranks 1 (sort_ranked deviations)))
    as (h & Hh & Hrange).
  exists h. rewrite Hh. split; [reflexivity|]. split; [exact Hrange|].
  unfold py_lt. destruct (Rlt_dec h 70); split; auto; discriminate.
Qed.

Lemma analyze_cycle_ranks_the_sensors_witness :
  exists result : CycleAnalysisResult,
    analyze_cycle (fun values _ _ => Ok values) "cycle-1"
      [("temperature"%string, constant_series 5 2)]
      [("temperature"%string, constant_series 7 2)]
      "cycle-0" "reference" = Ok result /\
    map d_contribution_rank (sensor_deviations result) = [1%nat] /\
    Forall (analysed [("temperature"%string, constant_series 5 2)]
              [("temperature"%string, constant_series 7 2)])
      (sensor_deviations result).
Proof.
  destruct (compute_deviation_metrics_defined (constant_series 5 2)
              (constant_series 7 2)) as (metrics & Hm); try discriminate.
  assert (H : analyze_cycle (fun values _ _ => Ok values) "cycle-1"
                [("temperature"%string, constant_series 5 2)]
                [("temperature"%string, constant_series 7 2)]
                "cycle-0" "reference"
              = Ok (mkCycleAnalysisResult "cycle-1" "cycle-0" "reference"
                      (enumerate_ranks 1
                         (sort_ranked
                            [mkSensorDeviation "temperature" "temperature"
                               0 (Fin 0) (max_deviation metrics)
                               (mean_deviation metrics) 0
                               (severity_of (combined_score 0 (Fin 0)))]))
                      (health_of
                         (enumerate_ranks 1
                            (sort_ranked
                               [mkSensorDeviation "temperature" "temperature"
                                  0 (Fin 0) (max_deviation metrics)
                                  (mean_deviation metrics) 0
                                  (severity_of (combined_score 0 (Fin 0)))])))
                      (py_lt
                         (health_of
                            (enumerate_ranks 1
                               (sort_ranked
                                  [mkSensorDeviation "temperature"
                                     "temperature" 0 (Fin 0)
                                     (max_deviation metrics)
                                     (mean_deviation metrics) 0
                                     (severity_of
                                        (combined_score 0 (Fin 0)))])))
                         (Num 70)))).
  { unfold analyze_cycle.
    cbn [analyze_each lookup String.eqb Ascii.eqb Bool.eqb].
    unfold analyze_sensor, smooth_signal.
    replace (Nat.ltb (List.length (constant_series 5 2)) 11) with true
      by reflexivity.
    replace (Nat.ltb (List.length (constant_series 7 2)) 11) with true
      by reflexivity.
    rewrite euclidean_distance_constant, dtw_distance_constant, Hm.
    reflexivity. }
  eexists. split; [exact H|].
  destruct (analyze_cycle_ranks_the_sensors _ _ _ _ _ _ _ H)
    as (H1 & _ & _ & _ & H4 & _).
  split; [exact H1|exact H4].
Defined.

End RankingFacts.

